(** * QualCoder: coded text spans, overlaps, restricted text edits and auto-coding

    A shallow embedding of the span handling of [qualcoder/code_text.py]
    (class [DialogCodeText]) and [qualcoder/manage_files.py] (class
    [DialogManageFiles]), over the sqlite tables created in
    [qualcoder/qualcoder.py].

    Tables are lists of rows in insertion order, SQL statements are filters
    and maps over them, and the unique constraint of [code_text] makes an
    insert or update raise [IntegrityError].  Dialog methods are written in a
    small state-and-exception monad: a raised exception keeps every change the
    method made before it, as in Python.  What the user answers in a Qt
    dialog is an argument of the method. *)

From Stdlib Require Import ZArith List String Ascii Bool Lia.
Import ListNotations.
Open Scope string_scope.
Open Scope Z_scope.

(** ** Python strings and lists *)

Module Py.

(** [len(s)] *)
Definition len (s : string) : Z := Z.of_nat (String.length s).

(** A slice bound: negative bounds count from the end, then clamp. *)
Definition bound (n i : Z) : Z :=
  let i := if i <? 0 then i + n else i in
  if i <? 0 then 0 else if n <? i then n else i.

(** [s[i:j]] *)
Definition slice (s : string) (i j : Z) : string :=
  let a := bound (len s) i in
  let b := bound (len s) j in
  if b <=? a then "" else substring (Z.to_nat a) (Z.to_nat (b - a)) s.

(** [l[x]]: a negative index counts from the end; [None] is IndexError. *)
Definition index {A} (l : list A) (x : Z) : option A :=
  let n := Z.of_nat (List.length l) in
  let x := if x <? 0 then x + n else x in
  if x <? 0 then None else nth_error l (Z.to_nat x).

(** [l[x] = v] for an index that [index] accepts. *)
Fixpoint set_nth {A} (l : list A) (k : nat) (v : A) : list A :=
  match l, k with
  | [], _ => []
  | _ :: t, O => v :: t
  | h :: t, S k => h :: set_nth t k v
  end.

Definition set_index {A} (l : list A) (x : Z) (v : A) : list A :=
  let n := Z.of_nat (List.length l) in
  let x := if x <? 0 then x + n else x in
  if x <? 0 then l else set_nth l (Z.to_nat x) v.

(** [text in sentence] *)
Fixpoint contains (pat s : string) : bool :=
  prefix pat s ||
  match s with
  | EmptyString => false
  | String _ s' => contains pat s'
  end.

(** [[m.start() for m in re.finditer(re.escape(pat), s)]] for a non-empty
    [pat]: the leftmost, non-overlapping occurrences.  [skip] counts the
    characters of the last match still to step over. *)
Fixpoint finditer_from (pat s : string) (pos : Z) (skip : nat) : list Z :=
  match s with
  | EmptyString => []
  | String _ s' =>
      match skip with
      | S k => finditer_from pat s' (pos + 1) k
      | O =>
          if prefix pat s
          then pos :: finditer_from pat s' (pos + 1) (String.length pat - 1)
          else finditer_from pat s' (pos + 1) 0
      end
  end.

Definition finditer (pat s : string) : list Z := finditer_from pat s 0 0.

(** [s.split(sep)] for a non-empty [sep]; [cur] is the segment being read. *)
Fixpoint split_from (sep s cur : string) (skip : nat) : list string :=
  match s with
  | EmptyString => [cur]
  | String c s' =>
      match skip with
      | S k => split_from sep s' cur k
      | O =>
          if prefix sep s
          then cur :: split_from sep s' "" (String.length sep - 1)
          else split_from sep s' (cur ++ String c "") 0
      end
  end.

Definition split (s sep : string) : list string := split_from sep s "" 0.

(** [list(set(l))] keeps one copy of each element (Python fixes no order;
    the first occurrences are kept here, in order). *)
Fixpoint dedup (l : list string) : list string :=
  match l with
  | [] => []
  | h :: t => h :: filter (fun s => negb (String.eqb s h)) (dedup t)
  end.

(** [l.remove(x)]: drops the first element equal to [x]. *)
Fixpoint remove_first {A} (eqb : A -> A -> bool) (x : A) (l : list A) : list A :=
  match l with
  | [] => []
  | h :: t => if eqb h x then t else h :: remove_first eqb x t
  end.

(** [for note in l: if cond(note): l.remove(note)]: the loop reads the
    list by index while the body shortens it. *)
Fixpoint remove_while_iterating {A} (eqb : A -> A -> bool) (cond : A -> bool)
    (fuel idx : nat) (l : list A) : list A :=
  match fuel with
  | O => l
  | S fuel =>
      match nth_error l idx with
      | None => l
      | Some note =>
          if cond note
          then remove_while_iterating eqb cond fuel (S idx) (remove_first eqb note l)
          else remove_while_iterating eqb cond fuel (S idx) l
      end
  end.

End Py.

(** ** The project database (tables of [create_project], qualcoder.py) *)

Module Source.
Record row := mk
  { id : Z; name : string; fulltext : option string; mediapath : option string;
    memo : string; owner : string; date : string }.
Definition set_fulltext (t : string) (r : row) : row :=
  mk (id r) (name r) (Some t) (mediapath r) (memo r) (owner r) (date r).
End Source.

Module Code_text.
(** Also the dictionaries of [DialogCodeText.code_text]. *)
Record row := mk
  { cid : Z; fid : Z; seltext : string; pos0 : Z; pos1 : Z;
    owner : string; date : string; memo : string }.

Definition set_pos (p0 p1 : Z) (r : row) : row :=
  mk (cid r) (fid r) (seltext r) p0 p1 (owner r) (date r) (memo r).
Definition set_seltext_pos1 (t : string) (p1 : Z) (r : row) : row :=
  mk (cid r) (fid r) t (pos0 r) p1 (owner r) (date r) (memo r).

(** [unique(cid, fid, pos0, pos1, owner)] *)
Definition key (r : row) : Z * Z * Z * Z * string :=
  (cid r, fid r, pos0 r, pos1 r, owner r).

Definition key_eqb (a b : Z * Z * Z * Z * string) : bool :=
  let '(c, f, p0, p1, o) := a in
  let '(c', f', p0', p1', o') := b in
  (c =? c') && (f =? f') && (p0 =? p0') && (p1 =? p1') && String.eqb o o'.

Definition eq_dec (a b : row) : {a = b} + {a <> b}.
Proof. decide equality; (apply string_dec || apply Z.eq_dec). Defined.

Definition eqb (a b : row) : bool := if eq_dec a b then true else false.
End Code_text.

Module Annotation.
Record row := mk
  { anid : Z; fid : Z; pos0 : Z; pos1 : Z; memo : string; owner : string;
    date : string }.
Definition set_pos (p0 p1 : Z) (r : row) : row :=
  mk (anid r) (fid r) p0 p1 (memo r) (owner r) (date r).
Definition set_memo (m : string) (r : row) : row :=
  mk (anid r) (fid r) (pos0 r) (pos1 r) m (owner r) (date r).
Definition set_anid (a : Z) (r : row) : row :=
  mk a (fid r) (pos0 r) (pos1 r) (memo r) (owner r) (date r).
Definition eq_dec (a b : row) : {a = b} + {a <> b}.
Proof. decide equality; (apply string_dec || apply Z.eq_dec). Defined.
Definition eqb (a b : row) : bool := if eq_dec a b then true else false.
End Annotation.

Module Case_text.
Record row := mk
  { id : Z; caseid : Z; fid : Z; pos0 : Z; pos1 : Z; owner : string;
    date : string; memo : string }.
Definition set_pos (p0 p1 : Z) (r : row) : row :=
  mk (id r) (caseid r) (fid r) p0 p1 (owner r) (date r) (memo r).
End Case_text.

Module Db.

Record database := mk
  { source : list Source.row;
    code_text : list Code_text.row;
    annotation : list Annotation.row;
    case_text : list Case_text.row }.

Definition with_source (t : list Source.row) (db : database) : database :=
  mk t (code_text db) (annotation db) (case_text db).
Definition with_code_text (t : list Code_text.row) (db : database) : database :=
  mk (source db) t (annotation db) (case_text db).
Definition with_annotation (t : list Annotation.row) (db : database) : database :=
  mk (source db) (code_text db) t (case_text db).
Definition with_case_text (t : list Case_text.row) (db : database) : database :=
  mk (source db) (code_text db) (annotation db) t.

End Db.

(** ** Exceptions and the monad of dialog methods *)

Inductive exn := IntegrityError | IndexError | KeyError | TypeError.

Inductive outcome (A : Type) :=
| Return (a : A)
| Raise (e : exn).
Arguments Return {A} a.
Arguments Raise {A} e.

Definition M (St A : Type) : Type := St -> outcome A * St.

Definition ret {St A} (a : A) : M St A := fun s => (Return a, s).
Definition raise {St A} (e : exn) : M St A := fun s => (Raise e, s).
Definition bind {St A B} (m : M St A) (k : A -> M St B) : M St B :=
  fun s =>
    match m s with
    | (Return a, s') => k a s'
    | (Raise e, s') => (Raise e, s')
    end.
Definition get {St} : M St St := fun s => (Return s, s).
Definition put {St} (s : St) : M St unit := fun _ => (Return tt, s).
Definition modify {St} (f : St -> St) : M St unit := fun s => (Return tt, f s).

(** [try: m  except Exception: pass] (the handlers only write a debug log). *)
Definition try_except {St} (m : M St unit) : M St unit :=
  fun s =>
    match m s with
    | (Return a, s') => (Return a, s')
    | (Raise _, s') => (Return tt, s')
    end.

Declare Scope py_scope.
Delimit Scope py_scope with py.
Notation "x <- m ;; k" := (bind m (fun x => k))
  (at level 100, m at next level, right associativity) : py_scope.
Notation "m ;; k" := (bind m (fun _ => k))
  (at level 100, right associativity) : py_scope.
Open Scope py_scope.

(** [for x in l: body(x)] *)
Fixpoint for_each {St A} (l : list A) (body : A -> M St unit) : M St unit :=
  match l with
  | [] => ret tt
  | x :: t => body x ;; for_each t body
  end.

(** ** SQL statements *)

Module Sql.
Import Db.

Definition same_key (r r' : Code_text.row) : bool :=
  Code_text.key_eqb (Code_text.key r') (Code_text.key r).

Fixpoint unique_keys (t : list Code_text.row) : bool :=
  match t with
  | [] => true
  | r :: t' => negb (existsb (same_key r) t') && unique_keys t'
  end.

(** [insert into code_text ...]: refused when the key is already stored. *)
Definition insert_code_text (r : Code_text.row) (db : database) : outcome database :=
  if existsb (same_key r) (code_text db)
  then Raise IntegrityError
  else Return (with_code_text (code_text db ++ [r]) db).

(** [update code_text set ... where ...]: the statement is undone and
    raises when it would leave two rows with one key. *)
Definition update_code_text (where_ : Code_text.row -> bool)
    (set : Code_text.row -> Code_text.row) (db : database) : outcome database :=
  let t := map (fun r => if where_ r then set r else r) (code_text db) in
  if unique_keys t then Return (with_code_text t db) else Raise IntegrityError.

Definition delete_code_text (where_ : Code_text.row -> bool) (db : database) : database :=
  with_code_text (filter (fun r => negb (where_ r)) (code_text db)) db.

Definition update_annotation (where_ : Annotation.row -> bool)
    (set : Annotation.row -> Annotation.row) (db : database) : database :=
  with_annotation (map (fun r => if where_ r then set r else r) (annotation db)) db.

Definition delete_annotation (where_ : Annotation.row -> bool) (db : database) : database :=
  with_annotation (filter (fun r => negb (where_ r)) (annotation db)) db.

Definition update_case_text (where_ : Case_text.row -> bool)
    (set : Case_text.row -> Case_text.row) (db : database) : database :=
  with_case_text (map (fun r => if where_ r then set r else r) (case_text db)) db.

Definition update_source (where_ : Source.row -> bool)
    (set : Source.row -> Source.row) (db : database) : database :=
  with_source (map (fun r => if where_ r then set r else r) (source db)) db.

(** [select last_insert_rowid()] after an insert into [annotation]: an
    integer primary key one above the largest stored. *)
Definition next_anid (t : list Annotation.row) : Z :=
  fold_right (fun r m => Z.max (Annotation.anid r) m) 0 t + 1.

(** [order by length(seltext) desc], as a stable insertion sort. *)
Fixpoint insert_by_length (r : Code_text.row) (l : list Code_text.row) : list Code_text.row :=
  match l with
  | [] => [r]
  | h :: t =>
      if Py.len (Code_text.seltext r) <? Py.len (Code_text.seltext h)
      then h :: insert_by_length r t
      else r :: h :: t
  end.

Definition order_by_length_desc (l : list Code_text.row) : list Code_text.row :=
  fold_right insert_by_length [] l.

End Sql.

(** ** [DialogCodeText] (code_text.py) *)

Module CodeText.
Import Code_text.

(** [treeWidget.currentItem()]: [text(0)] is the name, [text(1)] is
    ["cid:N"] for a code and ["catid:N"] for a category. *)
Inductive tree_item :=
| Code_item (name : string) (cid : Z)
| Category_item (name : string) (catid : Z).

(** [self.filename]: [None], [{}] or the dictionary of the loaded file. *)
Inductive filename_t :=
| NoneFile
| EmptyDict
| File (id : Z) (name : string).

(** Message boxes shown and lines appended to [parent_textEdit]. *)
Inductive ui_event :=
| Warning_no_file_selected
| Warning_no_code_selected
| Warning_already_coded (owner : string)
| Annotation_added (pos0 pos1 : Z) (file : string)
| Annotation_removed (pos0 : Z) (file : string)
| Automatic_code_sentence (code text ending : string) (msg : list (string * Z))
| Automatic_coding (filenames txt : string).

Record state := mk
  { conn : Db.database;
    codername : string;
    filenames : list (Z * string);
    filename : filename_t;
    textEdit : string;
    code_text : list Code_text.row;
    annotations : list Annotation.row;
    shown : list ui_event }.

Definition with_conn (db : Db.database) (s : state) : state :=
  mk db (codername s) (filenames s) (filename s) (textEdit s) (code_text s)
     (annotations s) (shown s).
Definition with_code_text (l : list Code_text.row) (s : state) : state :=
  mk (conn s) (codername s) (filenames s) (filename s) (textEdit s) l
     (annotations s) (shown s).
Definition with_annotations (l : list Annotation.row) (s : state) : state :=
  mk (conn s) (codername s) (filenames s) (filename s) (textEdit s) (code_text s)
     l (shown s).
Definition with_shown (l : list ui_event) (s : state) : state :=
  mk (conn s) (codername s) (filenames s) (filename s) (textEdit s) (code_text s)
     (annotations s) l.

Definition show (e : ui_event) : M state unit :=
  modify (fun s => with_shown (shown s ++ [e]) s).

(** [cur.execute(...)] for a statement that can raise. *)
Definition execute (stmt : Db.database -> outcome Db.database) : M state unit :=
  fun s =>
    match stmt (conn s) with
    | Return db => (Return tt, with_conn db s)
    | Raise e => (Raise e, s)
    end.

Definition execute_ok (stmt : Db.database -> Db.database) : M state unit :=
  modify (fun s => with_conn (stmt (conn s)) s).

(** [self.filename['id']] *)
Definition filename_id : M state Z :=
  fun s =>
    match filename s with
    | File id _ => (Return id, s)
    | EmptyDict => (Raise KeyError, s)
    | NoneFile => (Raise TypeError, s)
    end.

(** The test used by every method that looks for codes under a position. *)
Definition here (s : state) (location : Z) (item : row) : bool :=
  (location >=? pos0 item) && (location <=? pos1 item)
  && String.eqb (owner item) (codername s).

(** Reloads [self.code_text] for this file and coder; the tooltip filter
    and the highlighting that follow only format the text. *)
Definition get_coded_text_update_eventfilter_tooltips : M state unit :=
  s <- get ;;
  match filename s with
  | NoneFile => ret tt
  | _ =>
      id <- filename_id ;;
      modify (with_code_text
                (Sql.order_by_length_desc
                   (filter (fun r => (fid r =? id) && String.eqb (owner r) (codername s))
                           (Db.code_text (conn s)))))
  end.

(** [where cid=? and fid=? and pos0=? and pos1=? and owner=?] *)
Definition where_code (c f p0 p1 : Z) (o : string) (r : row) : bool :=
  (cid r =? c) && (fid r =? f) && (pos0 r =? p0) && (pos1 r =? p1)
  && String.eqb (owner r) o.

(** The four key handlers get [code_], an element of [self.code_text],
    and change it in place: [k] is its index in the list. *)
Definition extend_left (k : nat) : M state unit :=
  s <- get ;;
  match nth_error (code_text s) k with
  | None => ret tt
  | Some code_ =>
      if pos0 code_ <? 1 then ret tt
      else
        let code_ := set_pos (pos0 code_ - 1) (pos1 code_) code_ in
        modify (with_code_text (Py.set_nth (code_text s) k code_)) ;;
        execute (Sql.update_code_text
                   (where_code (cid code_) (fid code_) (pos0 code_ + 1) (pos1 code_)
                               (codername s))
                   (fun r => set_pos (pos0 code_) (pos1 r) r)) ;;
        get_coded_text_update_eventfilter_tooltips
  end.

Definition extend_right (k : nat) : M state unit :=
  s <- get ;;
  match nth_error (code_text s) k with
  | None => ret tt
  | Some code_ =>
      if pos1 code_ + 1 >=? Py.len (textEdit s) then ret tt
      else
        let code_ := set_pos (pos0 code_) (pos1 code_ + 1) code_ in
        modify (with_code_text (Py.set_nth (code_text s) k code_)) ;;
        execute (Sql.update_code_text
                   (where_code (cid code_) (fid code_) (pos0 code_) (pos1 code_ - 1)
                               (codername s))
                   (fun r => set_pos (pos0 r) (pos1 code_) r)) ;;
        get_coded_text_update_eventfilter_tooltips
  end.

Definition shrink_to_left (k : nat) : M state unit :=
  s <- get ;;
  match nth_error (code_text s) k with
  | None => ret tt
  | Some code_ =>
      if pos1 code_ <=? pos0 code_ + 1 then ret tt
      else
        let code_ := set_pos (pos0 code_) (pos1 code_ - 1) code_ in
        modify (with_code_text (Py.set_nth (code_text s) k code_)) ;;
        execute (Sql.update_code_text
                   (where_code (cid code_) (fid code_) (pos0 code_) (pos1 code_ + 1)
                               (codername s))
                   (fun r => set_pos (pos0 r) (pos1 code_) r)) ;;
        get_coded_text_update_eventfilter_tooltips
  end.

Definition shrink_to_right (k : nat) : M state unit :=
  s <- get ;;
  match nth_error (code_text s) k with
  | None => ret tt
  | Some code_ =>
      if pos0 code_ >=? pos1 code_ - 1 then ret tt
      else
        let code_ := set_pos (pos0 code_ + 1) (pos1 code_) code_ in
        modify (with_code_text (Py.set_nth (code_text s) k code_)) ;;
        execute (Sql.update_code_text
                   (where_code (cid code_) (fid code_) (pos0 code_ - 1) (pos1 code_)
                               (codername s))
                   (fun r => set_pos (pos0 code_) (pos1 r) r)) ;;
        get_coded_text_update_eventfilter_tooltips
  end.

(** The key events of [eventFilter] that resize a coding. *)
Inductive key_event :=
| Alt_Left | Alt_Right | Shift_Left | Shift_Right.

(** Indices of the items of [l] that satisfy [p], from index [i] on. *)
Fixpoint indices_from {A} (p : A -> bool) (l : list A) (i : nat) : list nat :=
  match l with
  | [] => []
  | h :: t => if p h then i :: indices_from p t (S i) else indices_from p t (S i)
  end.

Definition eventFilter (key : key_event) (cursor_pos : Z) : M state unit :=
  s <- get ;;
  match indices_from (here s cursor_pos) (code_text s) 0 with
  | [k] =>
      match key with
      | Alt_Left => shrink_to_left k
      | Alt_Right => shrink_to_right k
      | Shift_Left => extend_left k
      | Shift_Right => extend_right k
      end
  | _ => ret tt
  end.

(** [DialogSelectItems(..., "single")]: [None] when cancelled, else the
    index of the chosen item in the list offered. *)
Definition choose (l : list row) (select : option nat) : option row :=
  match l with
  | [c] => Some c
  | _ => match select with
         | Some i => nth_error l i
         | None => None
         end
  end.

(** Bounds given to [QInputDialog.getInt]; the dialog returns a value
    within them, or [None] when cancelled. *)
Definition start_min (code_to_edit : row) : Z := -1 * pos0 code_to_edit.
Definition start_max (code_to_edit : row) : Z := pos1 code_to_edit - pos0 code_to_edit - 1.
Definition end_min (code_to_edit : row) : Z := pos0 code_to_edit - pos1 code_to_edit + 1.
Definition end_max (txt_len : Z) (code_to_edit : row) : Z := txt_len - pos1 code_to_edit.

Definition change_code_pos (location : Z) (start_or_end : string)
    (select : option nat) (getInt : option Z) : M state unit :=
  s <- get ;;
  match filename s with
  | EmptyDict => ret tt
  | _ =>
      let code_list := filter (here s location) (code_text s) in
      match code_list with
      | [] => ret tt
      | _ =>
          match choose code_list select with
          | None => ret tt
          | Some code_to_edit =>
              let changed (which : string) : option Z :=
                if String.eqb start_or_end which then getInt else Some 0 in
              match changed "start", changed "end" with
              | Some changed_start, Some changed_end =>
                  if (changed_start =? 0) && (changed_end =? 0) then ret tt
                  else
                    let new_pos0 := pos0 code_to_edit + changed_start in
                    let new_pos1 := pos1 code_to_edit + changed_end in
                    execute (Sql.update_code_text
                               (where_code (cid code_to_edit) (fid code_to_edit)
                                           (pos0 code_to_edit) (pos1 code_to_edit)
                                           (codername s))
                               (set_pos new_pos0 new_pos1)) ;;
                    get_coded_text_update_eventfilter_tooltips
              | _, _ => ret tt
              end
          end
      end
  end.

(** *** Overlaps *)

(** The body of the two loops of [apply_overline_to_overlaps] for one
    [i] and one [j]. *)
Definition overlap_step (i j : row) (overlaps : list (Z * Z)) : list (Z * Z) :=
  if negb (eqb j i) then
    if (pos0 j <=? pos0 i) && (pos1 j >=? pos0 i) then
      if (pos0 j >=? pos0 i) && (pos1 j <=? pos1 i) then
        overlaps ++ [(pos0 j, pos1 j)]
      else if (pos0 i >=? pos0 j) && (pos1 i <=? pos1 j) then
        overlaps ++ [(pos0 i, pos1 i)]
      else if pos0 j >? pos0 i then
        overlaps ++ [(pos0 j, pos1 i)]
      else
        overlaps ++ [(pos1 j, pos0 i)]
    else overlaps
  else overlaps.

(** The list [overlaps] that [apply_overline_to_overlaps] builds. *)
Definition apply_overline_to_overlaps (code_text : list row) : list (Z * Z) :=
  fold_left
    (fun overlaps i => fold_left (fun overlaps j => overlap_step i j overlaps) code_text overlaps)
    code_text [].

(** The characters that get the overline for an entry [o]: the cursor is
    anchored at [o[0]] and moved to [o[1]], and a [QTextCursor] selects the
    text between its anchor and its position, whichever comes first. *)
Definition overlined (o : Z * Z) : Z * Z :=
  (Z.min (fst o) (snd o), Z.max (fst o) (snd o)).

(** *** Mark and unmark *)

Definition mark (item : option tree_item) (selectionStart selectionEnd : Z)
    (now : string) : M state unit :=
  s <- get ;;
  match filename s with
  | EmptyDict => show Warning_no_file_selected
  | _ =>
      match item with
      | None => show Warning_no_code_selected
      | Some (Category_item _ _) => ret tt
      | Some (Code_item _ cid) =>
          let selectedText := Py.slice (textEdit s) selectionStart selectionEnd in
          let pos0 := selectionStart in
          let pos1 := selectionEnd in
          if pos0 =? pos1 then ret tt
          else
            id <- filename_id ;;
            let coded := Code_text.mk cid id selectedText pos0 pos1 (codername s) now "" in
            let result :=
              filter (where_code (Code_text.cid coded) (Code_text.fid coded)
                                 (Code_text.pos0 coded) (Code_text.pos1 coded)
                                 (Code_text.owner coded))
                     (Db.code_text (conn s)) in
            if (Z.of_nat (List.length result)) >? 0 then
              show (Warning_already_coded (Code_text.owner coded))
            else
              modify (fun s => with_code_text (code_text s ++ [coded]) s) ;;
              try_except (execute (Sql.insert_code_text coded))
      end
  end.

Definition unmark (location : Z) (select : option nat) : M state unit :=
  s <- get ;;
  match filename s with
  | EmptyDict => ret tt
  | _ =>
      let unmarked_list := filter (here s location) (code_text s) in
      match unmarked_list with
      | [] => ret tt
      | _ =>
          match choose unmarked_list select with
          | None => ret tt
          | Some to_unmark =>
              execute_ok (Sql.delete_code_text
                            (where_code (cid to_unmark) (fid to_unmark) (pos0 to_unmark)
                                        (pos1 to_unmark) (codername s))) ;;
              modify (fun s => with_code_text (Py.remove_first eqb to_unmark (code_text s)) s) ;;
              get_coded_text_update_eventfilter_tooltips
          end
      end
  end.

(** *** Annotations *)

(** The last note of [l] that satisfies [p], with its index. *)
Fixpoint find_last {A} (p : A -> bool) (l : list A) (i : nat)
    (found : option (nat * A)) : option (nat * A) :=
  match l with
  | [] => found
  | h :: t => find_last p t (S i) (if p h then Some (i, h) else found)
  end.

(** [ui_memo] is the memo the [DialogMemo] returns.  A note found in
    [self.annotations] is changed in place, and appended once more after
    the insert: both entries are the one dictionary. *)
Definition annotate (location selectionStart selectionEnd : Z) (ui_memo now : string)
    : M state unit :=
  s <- get ;;
  match filename s with
  | EmptyDict | NoneFile => show Warning_no_file_selected
  | File file_id file_name =>
      let pos0 := selectionStart in
      let pos1 := selectionEnd in
      let text_length := Py.len (textEdit s) in
      if (pos0 >=? text_length) || (pos1 >=? text_length) then ret tt
      else
        let found :=
          find_last (fun note => (location >=? Annotation.pos0 note)
                                 && (location <=? Annotation.pos1 note)
                                 && (Annotation.fid note =? file_id))
                    (annotations s) 0 None in
        if (pos0 =? pos1) && (match found with None => true | Some _ => false end)
        then ret tt
        else
          let item :=
            match found with
            | Some (_, note) => note
            | None => Annotation.mk (-1) file_id pos0 pos1 "" (codername s) now
            end in
          let item := Annotation.set_memo ui_memo item in
          let in_place (v : Annotation.row) (l : list Annotation.row) :=
            match found with
            | Some (k, _) => Py.set_nth l k v
            | None => l
            end in
          modify (fun s => with_annotations (in_place item (annotations s)) s) ;;
          (if negb (String.eqb (Annotation.memo item) "") then
             s1 <- get ;;
             let anid := Sql.next_anid (Db.annotation (conn s1)) in
             let item := Annotation.set_anid anid item in
             execute_ok (fun db => Db.with_annotation (Db.annotation db ++ [item]) db) ;;
             modify (fun s => with_annotations (in_place item (annotations s) ++ [item]) s) ;;
             show (Annotation_added (Annotation.pos0 item) (Annotation.pos1 item) file_name)
           else ret tt) ;;
          (if String.eqb (Annotation.memo item) "" then
             execute_ok (Sql.delete_annotation
                           (fun r => Annotation.pos0 r =? Annotation.pos0 item)) ;;
             modify (fun s =>
                       with_annotations
                         (Py.remove_while_iterating Annotation.eqb
                            (fun note => (Annotation.pos0 note =? Annotation.pos0 item)
                                         && (Annotation.fid note =? Annotation.fid item))
                            (List.length (annotations s)) 0 (annotations s)) s) ;;
             show (Annotation_removed (Annotation.pos0 item) file_name)
           else ret tt)
  end.

(** *** Auto-coding *)

(** [order by name] *)
Fixpoint insert_by_name (r : Source.row) (l : list Source.row) : list Source.row :=
  match l with
  | [] => [r]
  | h :: t =>
      if String.ltb (Source.name h) (Source.name r)
      then h :: insert_by_name r t
      else r :: h :: t
  end.

(** [self.app.get_file_texts(fileids)]: the rows with a text, as
    [(name, id, fulltext)]. *)
Definition get_file_texts (fileids : option Z) (db : Db.database)
    : list (string * Z * string) :=
  let with_text (rows : list Source.row) :=
    flat_map (fun r => match Source.fulltext r with
                       | Some t => [(Source.name r, Source.id r, t)]
                       | None => []
                       end) rows in
  match fileids with
  | Some id => with_text (filter (fun r => Source.id r =? id) (Db.source db))
  | None => with_text (fold_right insert_by_name [] (Db.source db))
  end.

(** The loop over the sentences of one file: [pos0] is the offset of the
    sentence, [codes_added] is raised before the insert is tried. *)
Fixpoint code_sentences_loop (cid id : Z) (text ending owner now : string)
    (sentences : list string) (pos0 codes_added : Z) : M state Z :=
  match sentences with
  | [] => ret codes_added
  | sentence :: rest =>
      codes_added <-
        (if Py.contains text sentence then
           let i := Code_text.mk cid id sentence pos0 (pos0 + Py.len sentence) owner now "" in
           try_except (execute (Sql.insert_code_text i)) ;;
           ret (codes_added + 1)
         else ret codes_added) ;;
      code_sentences_loop cid id text ending owner now rest
        (pos0 + Py.len sentence + Py.len ending) codes_added
  end.

(** The loop over the files; [msg] collects, per file with a positive
    count, the file name and the count shown as its added codes. *)
Fixpoint code_sentences_files (cid : Z) (text ending owner now : string)
    (files : list (string * Z * string)) (msg : list (string * Z))
    : M state (list (string * Z)) :=
  match files with
  | [] => ret msg
  | (f_name, f_id, f_fulltext) :: rest =>
      let sentences := Py.split f_fulltext ending in
      codes_added <- code_sentences_loop cid f_id text ending owner now sentences 0 0 ;;
      code_sentences_files cid text ending owner now rest
        (if codes_added >? 0 then msg ++ [(f_name, codes_added)] else msg)
  end.

(** [dialog] and [dialog2] are the answers of the two input dialogs,
    [None] when cancelled. *)
Definition code_sentences (item : option tree_item) (all : string)
    (dialog dialog2 : option string) (now : string) : M state unit :=
  match item with
  | None => show Warning_no_code_selected
  | Some (Category_item _ _) => ret tt
  | Some (Code_item item_name cid) =>
      match dialog, dialog2 with
      | Some text, Some ending =>
          if String.eqb text "" then ret tt
          else if String.eqb ending "" then ret tt
          else
            s <- get ;;
            files <- (if String.eqb all "all" then ret (get_file_texts None (conn s))
                      else id <- filename_id ;; ret (get_file_texts (Some id) (conn s))) ;;
            msg <- code_sentences_files cid text ending (codername s) now files [] ;;
            show (Automatic_code_sentence item_name text ending msg) ;;
            get_coded_text_update_eventfilter_tooltips
      | _, _ => ret tt
      end
  end.

(** [for startPos in textStarts: try: insert ... except: log] *)
Definition auto_code_inserts (cid id : Z) (txt owner now : string) (textStarts : list Z)
    : M state unit :=
  for_each textStarts
    (fun startPos =>
       let item := Code_text.mk cid id txt startPos (startPos + Py.len txt) owner now "" in
       try_except (execute (Sql.insert_code_text item))).

(** The loop over the chosen files for one [txt]; [filenames] grows by
    one name per file. *)
Fixpoint auto_code_files (cid : Z) (txt owner now : string)
    (files : list (Z * string)) (filenames : string) : M state unit :=
  match files with
  | [] => ret tt
  | (f_id, f_name) :: rest =>
      let filenames := filenames ++ f_name ++ " " in
      s <- get ;;
      let currentfile :=
        filter (fun r => (Source.id r =? f_id)
                         && match Source.mediapath r with None => true | Some _ => false end)
               (Db.source (conn s)) in
      match currentfile with
      | [] => raise TypeError
      | r :: _ =>
          match Source.fulltext r with
          | None => raise TypeError
          | Some text =>
              let textStarts := Py.finditer txt text in
              auto_code_inserts cid f_id txt owner now textStarts ;;
              show (Automatic_coding filenames txt) ;;
              auto_code_files cid txt owner now rest filenames
          end
      end
  end.

(** [dialog] is the answer of the input dialog and [ui] the files chosen
    in [DialogSelectItems], [None] when cancelled. *)
Definition auto_code (item : option tree_item) (dialog : option string)
    (ui : option (list (Z * string))) (now : string) : M state unit :=
  match item with
  | None => show Warning_no_code_selected
  | Some (Category_item _ _) => ret tt
  | Some (Code_item _ cid) =>
      match dialog with
      | None => ret tt
      | Some find_text =>
          if String.eqb find_text "" then ret tt
          else
            let texts := Py.split find_text "|" in
            let tmp := Py.dedup texts in
            let texts := filter (fun t => negb (String.eqb t "")) tmp in
            s <- get ;;
            if Z.of_nat (List.length (filenames s)) =? 0 then ret tt
            else
              match ui with
              | None => ret tt
              | Some files =>
                  if Z.of_nat (List.length files) =? 0 then ret tt
                  else
                    for_each texts
                      (fun txt => auto_code_files cid txt (codername s) now files "") ;;
                    get_coded_text_update_eventfilter_tooltips
              end
      end
  end.

End CodeText.

(** ** [DialogManageFiles] (manage_files.py) *)

Module ManageFiles.

(** Message boxes shown; a crossover warning lists the selection and the
    rows found. *)
Inductive ui_event :=
| Codes_cross_over_text (selstart selend : Z) (code_crossover : list (Z * Z))
| Annotations_cross_over_text (selstart selend : Z) (annote_crossover : list (Z * Z))
| Too_much_text_selected (characters : Z).

(** [self.source] holds the rows loaded by [load_file_data]; [text_view]
    is the plain text of the viewer opened by [view]. *)
Record state := mk
  { conn : Db.database;
    source : list Source.row;
    text_view : string;
    shown : list ui_event }.

Definition with_conn (db : Db.database) (s : state) : state :=
  mk db (source s) (text_view s) (shown s).
Definition with_source (l : list Source.row) (s : state) : state :=
  mk (conn s) l (text_view s) (shown s).
Definition with_text_view (t : string) (s : state) : state :=
  mk (conn s) (source s) t (shown s).
Definition with_shown (l : list ui_event) (s : state) : state :=
  mk (conn s) (source s) (text_view s) l.

Definition show (e : ui_event) : M state unit :=
  modify (fun s => with_shown (shown s ++ [e]) s).

Definition execute (stmt : Db.database -> outcome Db.database) : M state unit :=
  fun s =>
    match stmt (conn s) with
    | Return db => (Return tt, with_conn db s)
    | Raise e => (Raise e, s)
    end.

Definition execute_ok (stmt : Db.database -> Db.database) : M state unit :=
  modify (fun s => with_conn (stmt (conn s)) s).

(** [self.source[x]] *)
Definition source_at (x : Z) : M state Source.row :=
  fun s =>
    match Py.index (source s) x with
    | Some r => (Return r, s)
    | None => (Raise IndexError, s)
    end.

(** The selection of the viewer's [QTextCursor]. *)
Record text_cursor := cursor { selectionStart : Z; selectionEnd : Z }.

Definition selectedText (s : state) (c : text_cursor) : string :=
  Py.slice (text_view s) (selectionStart c) (selectionEnd c).

Record response := mkresponse
  { crossover : bool;
    coded_section : list (Z * Z);
    annoted_section : list (Z * Z);
    cased_section : list (Z * Z * Z) }.

(** [(pos0>? and pos0<?) or (pos1>? and pos1<?)] *)
Definition crosses (selstart selend pos0 pos1 : Z) : bool :=
  ((pos0 >? selstart) && (pos0 <? selend)) || ((pos1 >? selstart) && (pos1 <? selend)).

(** [?>=pos0 and ?<=pos1] *)
Definition within (selstart selend pos0 pos1 : Z) : bool :=
  (selstart >=? pos0) && (selend <=? pos1).

Definition crossover_check (x : Z) (c : text_cursor) : M state response :=
  let selstart := selectionStart c in
  let selend := selectionEnd c in
  r <- source_at x ;;
  s <- get ;;
  let id := Source.id r in
  let code_crossover :=
    map (fun r => (Code_text.pos0 r, Code_text.pos1 r))
        (filter (fun r => (Code_text.fid r =? id)
                          && crosses selstart selend (Code_text.pos0 r) (Code_text.pos1 r))
                (Db.code_text (conn s))) in
  match code_crossover with
  | _ :: _ =>
      show (Codes_cross_over_text selstart selend code_crossover) ;;
      ret (mkresponse true [] [] [])
  | [] =>
      let coded :=
        map (fun r => (Code_text.pos0 r, Code_text.pos1 r))
            (filter (fun r => (Code_text.fid r =? id)
                              && within selstart selend (Code_text.pos0 r) (Code_text.pos1 r))
                    (Db.code_text (conn s))) in
      let annote_crossover :=
        map (fun r => (Annotation.pos0 r, Annotation.pos1 r))
            (filter (fun r => (Annotation.fid r =? id)
                              && crosses selstart selend (Annotation.pos0 r) (Annotation.pos1 r))
                    (Db.annotation (conn s))) in
      match annote_crossover with
      | _ :: _ =>
          show (Annotations_cross_over_text selstart selend annote_crossover) ;;
          ret (mkresponse true coded [] [])
      | [] =>
          let annoted :=
            map (fun r => (Annotation.pos0 r, Annotation.pos1 r))
                (filter (fun r => (Annotation.fid r =? id)
                                  && within selstart selend (Annotation.pos0 r) (Annotation.pos1 r))
                        (Db.annotation (conn s))) in
          let cased :=
            map (fun r => (Case_text.pos0 r, Case_text.pos1 r, Case_text.id r))
                (filter (fun r => (Case_text.fid r =? id)
                                  && within selstart selend (Case_text.pos0 r) (Case_text.pos1 r))
                        (Db.case_text (conn s))) in
          ret (mkresponse false coded annoted cased)
      end
  end.

(** [pos1>? and not(?>=pos0 and ?<=pos1)] *)
Definition after_selection (selstart selend pos0 pos1 : Z) : bool :=
  (pos1 >? selend) && negb (within selstart selend pos0 pos1).

(** [edit_dialog] is the text of the edit dialog, [None] when cancelled. *)
Definition restricted_edit_text (x : Z) (c : text_cursor) (edit_dialog : option string)
    : M state unit :=
  s <- get ;;
  let txt := selectedText s c in
  let selstart := selectionStart c in
  let selend := selectionEnd c in
  if Py.len txt >? 20 then show (Too_much_text_selected (Py.len txt))
  else
    match edit_dialog with
    | None => ret tt
    | Some new_text =>
        r <- source_at x ;;
        match Source.fulltext r with
        | None => raise TypeError
        | Some old =>
            let before := Py.slice old 0 selstart in
            let after := Py.slice old selend (Py.len old) in
            let fulltext := before ++ new_text ++ after in
            let id := Source.id r in
            modify (fun s => with_source
                               (Py.set_index (source s) x (Source.set_fulltext fulltext r)) s) ;;
            execute_ok (Sql.update_source (fun r => Source.id r =? id)
                                          (Source.set_fulltext fulltext)) ;;
            let length_diff := Py.len new_text - Py.len txt in
            if length_diff =? 0 then ret tt
            else
              s <- get ;;
              let post_case_linked :=
                filter (fun r => (Case_text.fid r =? id)
                                 && after_selection selstart selend
                                      (Case_text.pos0 r) (Case_text.pos1 r))
                       (Db.case_text (conn s)) in
              let post_annote_linked :=
                filter (fun r => (Annotation.fid r =? id)
                                 && after_selection selstart selend
                                      (Annotation.pos0 r) (Annotation.pos1 r))
                       (Db.annotation (conn s)) in
              let post_code_linked :=
                map (fun r => (Code_text.pos0 r, Code_text.pos1 r))
                    (filter (fun r => (Code_text.fid r =? id)
                                      && after_selection selstart selend
                                           (Code_text.pos0 r) (Code_text.pos1 r))
                            (Db.code_text (conn s))) in
              for_each post_case_linked
                (fun i => execute_ok
                   (Sql.update_case_text
                      (fun r => Case_text.id r =? Case_text.id i)
                      (Case_text.set_pos (Case_text.pos0 i + length_diff)
                                         (Case_text.pos1 i + length_diff)))) ;;
              for_each post_annote_linked
                (fun i => execute_ok
                   (Sql.update_annotation
                      (fun r => Annotation.anid r =? Annotation.anid i)
                      (Annotation.set_pos (Annotation.pos0 i + length_diff)
                                          (Annotation.pos1 i + length_diff)))) ;;
              for_each post_code_linked
                (fun i => execute
                   (Sql.update_code_text
                      (fun r => (Code_text.fid r =? id) && (Code_text.pos0 r =? fst i)
                                && (Code_text.pos1 r =? snd i))
                      (Code_text.set_pos (fst i + length_diff) (snd i + length_diff)))) ;;
              crossovers <- crossover_check x c ;;
              for_each (coded_section crossovers)
                (fun i =>
                   let newtext := Py.slice fulltext (fst i) (snd i + length_diff) in
                   execute
                     (Sql.update_code_text
                        (fun r => (Code_text.fid r =? id) && (Code_text.pos0 r =? fst i)
                                  && (Code_text.pos1 r =? snd i))
                        (Code_text.set_seltext_pos1 newtext (snd i + length_diff)))) ;;
              for_each (annoted_section crossovers)
                (fun i => execute_ok
                   (Sql.update_annotation
                      (fun r => (Annotation.fid r =? id) && (Annotation.pos0 r =? fst i)
                                && (Annotation.pos1 r =? snd i))
                      (fun r => Annotation.set_pos (Annotation.pos0 r) (snd i + length_diff) r))) ;;
              for_each (cased_section crossovers)
                (fun i => execute_ok
                   (Sql.update_case_text
                      (fun r => (Case_text.fid r =? id)
                                && (Case_text.pos0 r =? fst (fst i))
                                && (Case_text.pos1 r =? snd (fst i)))
                      (fun r => Case_text.set_pos (Case_text.pos0 r)
                                                  (snd (fst i) + length_diff) r)))
        end
    end.

(** The entries of the context menu of the restricted viewer. *)
Inductive menu_action :=
| action_item_edit
| action_select_all
| action_copy.

Definition textEdit_restricted_menu (x : Z) (c : text_cursor)
    (action : option menu_action) (edit_dialog : option string) : M state unit :=
  s <- get ;;
  if String.eqb (text_view s) "" then ret tt
  else
    let selected_text := selectedText s c in
    match action with
    | Some action_item_edit =>
        if (Py.len selected_text >? 0) && (Py.len selected_text <? 21) then
          result <- crossover_check x c ;;
          if crossover result then ret tt
          else
            restricted_edit_text x c edit_dialog ;;
            r <- source_at x ;;
            match Source.fulltext r with
            | None => raise TypeError
            | Some t => modify (with_text_view t)
            end
        else ret tt
    | _ => ret tt
    end.

End ManageFiles.

(** ** [App] (qualcoder.py) *)

Module App.

(** [get_annotations]: [select ... from annotation where owner=?]. *)
Definition get_annotations (db : Db.database) (codername : string)
    : list Annotation.row :=
  filter (fun r => String.eqb (Annotation.owner r) codername) (Db.annotation db).

End App.

(** ** [DialogCodeText.load_file] (code_text.py) *)

Module CodeTextFile.
Import CodeText.

Definition with_filename (f : filename_t) (s : state) : state :=
  CodeText.mk (conn s) (codername s) (filenames s) f (textEdit s) (code_text s)
              (annotations s) (shown s).
Definition with_textEdit (t : string) (s : state) : state :=
  CodeText.mk (conn s) (codername s) (filenames s) (filename s) t (code_text s)
              (annotations s) (shown s).

(** [filedata] is the dictionary of the file, with its id and name.  The
    first row of [get_file_texts([id])] gives the text; [[0]] raises
    [IndexError] when there is none. *)
Definition load_file (filedata : Z * string) : M state unit :=
  let '(id, name) := filedata in
  modify (with_filename (File id name)) ;;
  s <- get ;;
  match get_file_texts (Some id) (conn s) with
  | [] => raise IndexError
  | (_, _, fulltext) :: _ =>
      modify (with_textEdit fulltext) ;;
      get_coded_text_update_eventfilter_tooltips
  end.

End CodeTextFile.

(** ** The code tree of [DialogCodeText]: merging and deleting codes *)

Module Code_name.
Record row := mk
  { cid : Z; name : string; memo : string; catid : option Z; owner : string;
    date : string; color : string }.
End Code_name.

Module Code_av.
Record row := mk
  { avid : Z; id : Z; pos0 : Z; pos1 : Z; cid : Z; memo : string; date : string;
    owner : string }.
Definition set_cid (c : Z) (r : row) : row :=
  mk (avid r) (id r) (pos0 r) (pos1 r) c (memo r) (date r) (owner r).
End Code_av.

Module Code_image.
Record row := mk
  { imid : Z; id : Z; x1 : Z; y1 : Z; width : Z; height : Z; cid : Z; memo : string;
    date : string; owner : string }.
Definition set_cid (c : Z) (r : row) : row :=
  mk (imid r) (id r) (x1 r) (y1 r) (width r) (height r) c (memo r) (date r) (owner r).
End Code_image.

Module CodeTree.

(** The information box of a refused merge and the lines appended to
    [parent_textEdit]. *)
Inductive ui_event :=
| Cannot_merge (e : exn)
| Merge_code (item parent : string)
| Code_deleted (name : string).

(** [dialog] holds the connection with the tables of the text dialog;
    [code_name], [code_av] and [code_image] are the other tables that name a
    code; [codes] is [self.codes]. *)
Record state := mk
  { dialog : CodeText.state;
    code_name : list Code_name.row;
    code_av : list Code_av.row;
    code_image : list Code_image.row;
    codes : list Code_name.row;
    shown : list ui_event }.

Definition with_dialog (d : CodeText.state) (s : state) : state :=
  mk d (code_name s) (code_av s) (code_image s) (codes s) (shown s).
Definition with_code_name (t : list Code_name.row) (s : state) : state :=
  mk (dialog s) t (code_av s) (code_image s) (codes s) (shown s).
Definition with_code_av (t : list Code_av.row) (s : state) : state :=
  mk (dialog s) (code_name s) t (code_image s) (codes s) (shown s).
Definition with_code_image (t : list Code_image.row) (s : state) : state :=
  mk (dialog s) (code_name s) (code_av s) t (codes s) (shown s).
Definition with_codes (l : list Code_name.row) (s : state) : state :=
  mk (dialog s) (code_name s) (code_av s) (code_image s) l (shown s).
Definition with_shown (l : list ui_event) (s : state) : state :=
  mk (dialog s) (code_name s) (code_av s) (code_image s) (codes s) l.

Definition show (e : ui_event) : M state unit :=
  modify (fun s => with_shown (shown s ++ [e]) s).

(** A method of the text dialog, run on [dialog]. *)
Definition lift {A} (m : M CodeText.state A) : M state A :=
  fun s => let (o, d) := m (dialog s) in (o, with_dialog d s).

(** [try: m  except Exception as e: ...]: the exception caught, if any. *)
Definition caught {St} (m : M St unit) : M St (option exn) :=
  fun s =>
    match m s with
    | (Return _, s') => (Return None, s')
    | (Raise e, s') => (Return (Some e), s')
    end.

(** [int(item.text(1).split(':')[1])] and [item.text(0)] *)
Definition tree_id (item : CodeText.tree_item) : Z :=
  match item with
  | CodeText.Code_item _ n => n
  | CodeText.Category_item _ n => n
  end.
Definition tree_name (item : CodeText.tree_item) : string :=
  match item with
  | CodeText.Code_item n _ => n
  | CodeText.Category_item n _ => n
  end.

Definition set_cid (c : Z) (r : Code_text.row) : Code_text.row :=
  Code_text.mk c (Code_text.fid r) (Code_text.seltext r) (Code_text.pos0 r)
               (Code_text.pos1 r) (Code_text.owner r) (Code_text.date r)
               (Code_text.memo r).

(** SQLite's [lower]: the letters A to Z. *)
Definition lower_ascii (c : ascii) : ascii :=
  let n := N_of_ascii c in
  if ((65 <=? n) && (n <=? 90))%N then ascii_of_N (n + 32) else c.

Fixpoint lower (s : string) : string :=
  match s with
  | EmptyString => EmptyString
  | String c s' => String (lower_ascii c) (lower s')
  end.

(** [order by lower(name)] *)
Fixpoint insert_by_lower_name (r : Code_name.row) (l : list Code_name.row)
    : list Code_name.row :=
  match l with
  | [] => [r]
  | h :: t =>
      if String.ltb (lower (Code_name.name h)) (lower (Code_name.name r))
      then h :: insert_by_lower_name r t
      else r :: h :: t
  end.

(** [self.codes, self.categories = self.app.get_data()]: the codes. *)
Definition get_codes_and_categories : M state unit :=
  modify (fun s => with_codes (fold_right insert_by_lower_name [] (code_name s)) s).

(** The refresh of this dialog, which is in its own [dialog_list]; only
    a [RuntimeError] is caught there. *)
Definition update_dialog_codes_and_categories : M state unit :=
  get_codes_and_categories ;;
  lift CodeText.get_coded_text_update_eventfilter_tooltips.

(** [reply] is the answer to the question box. *)
Definition merge_codes (item : Code_name.row) (parent : CodeText.tree_item)
    (reply : bool) : M state unit :=
  if negb reply then ret tt
  else
    let old_cid := Code_name.cid item in
    let new_cid := tree_id parent in
    raised <-
      caught
        (lift (CodeText.execute
                 (Sql.update_code_text (fun r => Code_text.cid r =? old_cid)
                                       (set_cid new_cid))) ;;
         modify (fun s =>
                   with_code_av
                     (map (fun r => if Code_av.cid r =? old_cid
                                    then Code_av.set_cid new_cid r else r)
                          (code_av s)) s) ;;
         modify (fun s =>
                   with_code_image
                     (map (fun r => if Code_image.cid r =? old_cid
                                    then Code_image.set_cid new_cid r else r)
                          (code_image s)) s)) ;;
    match raised with
    | Some e => show (Cannot_merge e)
    | None =>
        modify (fun s =>
                  with_code_name
                    (filter (fun r => negb (Code_name.cid r =? old_cid)) (code_name s)) s) ;;
        show (Merge_code (Code_name.name item) (tree_name parent)) ;;
        update_dialog_codes_and_categories
    end.

(** [ok] is the answer of [DialogConfirmDelete]. *)
Definition delete_code (selected : CodeText.tree_item) (ok : bool) : M state unit :=
  s <- get ;;
  match CodeText.find_last (fun c => Code_name.cid c =? tree_id selected) (codes s) 0 None with
  | None => ret tt
  | Some (_, code_) =>
      if negb ok then ret tt
      else
        let c := Code_name.cid code_ in
        modify (fun s =>
                  with_code_name
                    (filter (fun r => negb (Code_name.cid r =? c)) (code_name s)) s) ;;
        lift (CodeText.execute_ok (Sql.delete_code_text (fun r => Code_text.cid r =? c))) ;;
        modify (fun s =>
                  with_code_av
                    (filter (fun r => negb (Code_av.cid r =? c)) (code_av s)) s) ;;
        modify (fun s =>
                  with_code_image
                    (filter (fun r => negb (Code_image.cid r =? c)) (code_image s)) s) ;;
        update_dialog_codes_and_categories ;;
        show (Code_deleted (Code_name.name code_))
  end.

End CodeTree.

(** * Properties *)

Import Code_text.
Open Scope list_scope.

(** Case analysis on the integer comparisons of a goal. *)
Ltac zcases :=
  rewrite ?Z.geb_leb, ?Z.gtb_ltb in *;
  repeat match goal with
         | |- context [?a <=? ?b] => destruct (Z.leb_spec a b)
         | |- context [?a <? ?b] => destruct (Z.ltb_spec a b)
         | |- context [?a =? ?b] => destruct (Z.eqb_spec a b)
         end;
  cbn [andb orb negb] in *.

(** ** Overlaps *)

Section Overlaps.
Import CodeText.

(** What one pass of the inner loop body appends for [i] and [j]. *)
Definition visit (i j : row) : list (Z * Z) := overlap_step i j [].

Lemma overlap_step_visit i j overlaps :
  overlap_step i j overlaps = overlaps ++ visit i j.
Proof.
  unfold visit, overlap_step.
  repeat match goal with
         | |- context [if ?b then _ else _] => destruct b
         end; cbn [app]; rewrite ?app_nil_r; reflexivity.
Qed.

Lemma inner_loop_visits i l : forall overlaps,
  fold_left (fun overlaps j => overlap_step i j overlaps) l overlaps
  = overlaps ++ flat_map (visit i) l.
Proof.
  induction l as [|j l IH]; intros overlaps; cbn [fold_left flat_map].
  - now rewrite app_nil_r.
  - rewrite IH, overlap_step_visit, <- app_assoc. reflexivity.
Qed.

Lemma overlaps_are_visits code_text :
  apply_overline_to_overlaps code_text
  = flat_map (fun i => flat_map (visit i) code_text) code_text.
Proof.
  unfold apply_overline_to_overlaps.
  enough (H : forall l overlaps,
             fold_left (fun overlaps i =>
                          fold_left (fun overlaps j => overlap_step i j overlaps)
                                    code_text overlaps) l overlaps
             = overlaps ++ flat_map (fun i => flat_map (visit i) code_text) l)
    by (rewrite H; reflexivity).
  induction l as [|i l IH]; intros overlaps; cbn [fold_left flat_map].
  - now rewrite app_nil_r.
  - rewrite IH, inner_loop_visits, <- app_assoc. reflexivity.
Qed.

Lemma visit_self i : visit i i = [].
Proof.
  unfold visit, overlap_step, eqb.
  destruct (eq_dec i i) as [_|N]; [reflexivity | contradiction].
Qed.

(** One span contains the other. *)
Definition nested (i j : row) : bool :=
  ((pos0 j <=? pos0 i) && (pos1 i <=? pos1 j))
  || ((pos0 i <=? pos0 j) && (pos1 j <=? pos1 i)).

(** What the two visits of a pair of intersecting spans append. *)
Lemma pair_visits i j :
  i <> j -> pos0 i < pos1 j -> pos0 j < pos1 i ->
  visit i j ++ visit j i =
  let lo := Z.max (pos0 i) (pos0 j) in
  let hi := Z.min (pos1 i) (pos1 j) in
  if pos0 i =? pos0 j then [(lo, hi); (lo, hi)]
  else if nested i j then [(lo, hi)]
  else [(hi, lo)].
Proof.
  intros Hne Hij Hji. unfold visit, overlap_step, nested, eqb.
  destruct (eq_dec j i) as [E|_]; [congruence|].
  destruct (eq_dec i j) as [E|_]; [congruence|].
  clear Hne. cbn [negb].
  destruct i as [ci fi ti i0 i1 oi di mi], j as [cj fj tj j0 j1 oj dj mj].
  cbn [pos0 pos1] in *.
  destruct (Z.max_spec i0 j0) as [[? ->]|[? ->]];
    destruct (Z.min_spec i1 j1) as [[? ->]|[? ->]];
    zcases; cbn [app]; try lia; try reflexivity;
    repeat f_equal; lia.
Qed.

End Overlaps.

(** ** Keys of [code_text] *)

Section Keys.

Lemma key_eqb_eq a b : key_eqb a b = true <-> a = b.
Proof.
  destruct a as [[[[c f] p0] p1] o], b as [[[[c' f'] p0'] p1'] o'].
  unfold key_eqb.
  rewrite !andb_true_iff, !Z.eqb_eq, String.eqb_eq.
  split.
  - intros [[[[-> ->] ->] ->] ->]. reflexivity.
  - intros E. inversion E. auto.
Qed.

Lemma key_eqb_refl a : key_eqb a a = true.
Proof. now apply key_eqb_eq. Qed.

Lemma where_code_key c f p0 p1 o r :
  CodeText.where_code c f p0 p1 o r = true <-> key r = (c, f, p0, p1, o).
Proof.
  unfold CodeText.where_code, key.
  rewrite !andb_true_iff, !Z.eqb_eq, String.eqb_eq.
  split.
  - intros [[[[-> ->] ->] ->] ->]. reflexivity.
  - intros E. inversion E. auto.
Qed.

(** Number of stored rows with key [k]. *)
Definition count_key (k : Z * Z * Z * Z * string) (t : list row) : nat :=
  List.length (filter (fun r => key_eqb (key r) k) t).

Lemma count_key_absent k t :
  existsb (fun r => key_eqb (key r) k) t = false -> count_key k t = 0%nat.
Proof.
  unfold count_key. induction t as [|h t IH]; cbn [existsb filter]; intros H.
  - reflexivity.
  - apply orb_false_iff in H as [-> H]. auto.
Qed.

Lemma count_key_unique t r :
  Sql.unique_keys t = true -> In r t -> count_key (key r) t = 1%nat.
Proof.
  induction t as [|h t IH]; cbn [Sql.unique_keys In]; intros U I; [contradiction|].
  apply andb_true_iff in U as [Hh U]. apply negb_true_iff in Hh.
  unfold count_key in *. cbn [filter].
  destruct (key_eqb (key h) (key r)) eqn:E.
  - apply key_eqb_eq in E. cbn [List.length]. f_equal.
    apply count_key_absent. unfold Sql.same_key in Hh. rewrite <- E. exact Hh.
  - destruct I as [->|I]; [now rewrite key_eqb_refl in E|]. auto.
Qed.

Lemma count_key_app k t1 t2 :
  count_key k (t1 ++ t2) = (count_key k t1 + count_key k t2)%nat.
Proof. unfold count_key. now rewrite filter_app, length_app. Qed.

End Keys.

(** ** Marking *)

Section Mark.
Import CodeText.

(** Marking a segment whose key is stored shows the warning and changes
    neither the table nor the list of the dialog. *)
Lemma mark_stored s name c p0 p1 now id fname r :
  filename s = File id fname ->
  p0 <> p1 ->
  In r (Db.code_text (conn s)) ->
  key r = (c, id, p0, p1, codername s) ->
  mark (Some (Code_item name c)) p0 p1 now s
  = (Return tt, with_shown (shown s ++ [Warning_already_coded (codername s)]) s).
Proof.
  intros Hf Hne Hin Hk. unfold mark, bind, get. rewrite Hf.
  destruct (Z.eqb_spec p0 p1) as [E|_]; [contradiction|].
  unfold filename_id. rewrite Hf. cbn [Code_text.cid Code_text.fid Code_text.pos0
    Code_text.pos1 Code_text.owner].
  destruct (filter _ _) as [|r0 l] eqn:F.
  - exfalso. assert (I : In r []) by (rewrite <- F; apply filter_In; split;
      [exact Hin | now apply where_code_key]). exact I.
  - cbn [List.length]. replace (Z.of_nat (S (List.length l)) >? 0) with true
      by (symmetry; apply Z.gtb_lt; lia).
    reflexivity.
Qed.

(** Marking a segment whose key is not stored stores one row. *)
Lemma mark_fresh s name c p0 p1 now id fname :
  filename s = File id fname ->
  p0 <> p1 ->
  existsb (fun r => key_eqb (key r) (c, id, p0, p1, codername s))
          (Db.code_text (conn s)) = false ->
  let coded := Code_text.mk c id (Py.slice (textEdit s) p0 p1) p0 p1 (codername s) now "" in
  mark (Some (Code_item name c)) p0 p1 now s
  = (Return tt,
     with_conn (Db.with_code_text (Db.code_text (conn s) ++ [coded]) (conn s))
               (with_code_text (code_text s ++ [coded]) s)).
Proof.
  intros Hf Hne Hex coded. unfold mark, bind, get. rewrite Hf.
  destruct (Z.eqb_spec p0 p1) as [E|_]; [contradiction|].
  unfold filename_id. rewrite Hf. cbn [Code_text.cid Code_text.fid Code_text.pos0
    Code_text.pos1 Code_text.owner].
  destruct (filter _ _) as [|r0 l] eqn:F.
  - cbn [List.length Z.of_nat Z.gtb Z.compare].
    assert (Hex' : existsb (Sql.same_key coded) (Db.code_text (conn s)) = false)
      by exact Hex.
    unfold modify, try_except, execute, Sql.insert_code_text.
    cbn [conn with_code_text]. fold coded. rewrite Hex'. reflexivity.
  - exfalso. assert (I : In r0 (r0 :: l)) by now left.
    rewrite <- F in I. apply filter_In in I as [I W].
    apply where_code_key in W.
    assert (T : existsb (fun r => key_eqb (key r) (c, id, p0, p1, codername s))
                        (Db.code_text (conn s)) = true).
    { rewrite existsb_exists. exists r0. split; [exact I|]. now apply key_eqb_eq. }
    congruence.
Qed.

End Mark.

(** ** Resizing a coding *)

Section Resize.
Import CodeText.

(** Every coding the dialog knows: the rows of the table and the items of
    [self.code_text]. *)
Definition codings (s : state) : list row := Db.code_text (conn s) ++ code_text s.

Lemma In_insert_by_length x r l :
  In x (Sql.insert_by_length r l) <-> x = r \/ In x l.
Proof.
  induction l as [|h t IH]; cbn [Sql.insert_by_length In].
  - intuition.
  - destruct (_ <? _); cbn [In]; rewrite ?IH; intuition.
Qed.

Lemma In_order_by_length_desc x l :
  In x (Sql.order_by_length_desc l) <-> In x l.
Proof.
  unfold Sql.order_by_length_desc.
  induction l as [|h t IH]; cbn [fold_right In]; [tauto|].
  rewrite In_insert_by_length, IH. intuition.
Qed.

Lemma In_set_nth {A} (l : list A) k v x :
  In x (Py.set_nth l k v) -> x = v \/ In x l.
Proof.
  revert k. induction l as [|h t IH]; intros [|k]; cbn [Py.set_nth In]; try tauto.
  - intuition.
  - intros [->|H]; [tauto|]. apply IH in H. tauto.
Qed.

(** The reload only changes [self.code_text], to rows of the table. *)
Lemma reload_codings s :
  exists l,
    snd (get_coded_text_update_eventfilter_tooltips s) = with_code_text l s
    /\ forall r, In r l -> In r (codings s).
Proof.
  unfold get_coded_text_update_eventfilter_tooltips, bind, get, filename_id, modify, codings.
  destruct s as [db cn fns fn te ct an sh]; cbn [filename conn code_text codername].
  destruct fn; cbn [snd with_code_text conn codername filenames filename textEdit
                    code_text annotations shown].
  - exists ct. split; [reflexivity|]. intros r H. apply in_or_app. now right.
  - exists ct. split; [reflexivity|]. intros r H. apply in_or_app. now right.
  - eexists. split; [reflexivity|]. intros r H.
    apply In_order_by_length_desc, filter_In in H as [H _].
    apply in_or_app. now left.
Qed.

(** The common shape of [extend_left], [extend_right], [shrink_to_left]
    and [shrink_to_right]. *)
Definition key_handler (guard : state -> row -> bool) (change : row -> row)
    (where_ : state -> row -> row -> bool) (set : row -> row -> row) (k : nat)
    : M state unit :=
  s <- get ;;
  match nth_error (code_text s) k with
  | None => ret tt
  | Some code_ =>
      if guard s code_ then ret tt
      else
        let code_ := change code_ in
        modify (with_code_text (Py.set_nth (code_text s) k code_)) ;;
        execute (Sql.update_code_text (where_ s code_) (set code_)) ;;
        get_coded_text_update_eventfilter_tooltips
  end.

Lemma extend_left_handler k :
  extend_left k =
  key_handler (fun _ c => pos0 c <? 1) (fun c => set_pos (pos0 c - 1) (pos1 c) c)
    (fun s c => where_code (cid c) (fid c) (pos0 c + 1) (pos1 c) (codername s))
    (fun c r => set_pos (pos0 c) (pos1 r) r) k.
Proof. reflexivity. Qed.

Lemma extend_right_handler k :
  extend_right k =
  key_handler (fun s c => pos1 c + 1 >=? Py.len (textEdit s))
    (fun c => set_pos (pos0 c) (pos1 c + 1) c)
    (fun s c => where_code (cid c) (fid c) (pos0 c) (pos1 c - 1) (codername s))
    (fun c r => set_pos (pos0 r) (pos1 c) r) k.
Proof. reflexivity. Qed.

Lemma shrink_to_left_handler k :
  shrink_to_left k =
  key_handler (fun _ c => pos1 c <=? pos0 c + 1)
    (fun c => set_pos (pos0 c) (pos1 c - 1) c)
    (fun s c => where_code (cid c) (fid c) (pos0 c) (pos1 c + 1) (codername s))
    (fun c r => set_pos (pos0 r) (pos1 c) r) k.
Proof. reflexivity. Qed.

Lemma shrink_to_right_handler k :
  shrink_to_right k =
  key_handler (fun _ c => pos0 c >=? pos1 c - 1)
    (fun c => set_pos (pos0 c + 1) (pos1 c) c)
    (fun s c => where_code (cid c) (fid c) (pos0 c - 1) (pos1 c) (codername s))
    (fun c r => set_pos (pos0 c) (pos1 r) r) k.
Proof. reflexivity. Qed.

(** A handler whose guard holds returns at once. *)
Lemma key_handler_guarded guard change where_ set k s c :
  nth_error (code_text s) k = Some c -> guard s c = true ->
  key_handler guard change where_ set k s = (Return tt, s).
Proof.
  intros Hk Hg. unfold key_handler, bind, get. now rewrite Hk, Hg.
Qed.

(** The codings after a handler: those before, the changed item, and the
    rows rewritten by the update. *)
Lemma key_handler_codings guard change where_ set k s r' :
  In r' (codings (snd (key_handler guard change where_ set k s))) ->
  In r' (codings s)
  \/ exists c, nth_error (code_text s) k = Some c /\ guard s c = false
               /\ (r' = change c
                   \/ exists r, In r (Db.code_text (conn s))
                                /\ where_ s (change c) r = true
                                /\ r' = set (change c) r).
Proof.
  unfold key_handler, bind, get.
  destruct (nth_error (code_text s) k) as [c|] eqn:Hk; cbn [ret snd]; [|tauto].
  destruct (guard s c) eqn:Hg; cbn [ret snd]; [tauto|].
  unfold modify at 1. cbn [fst snd].
  set (s1 := with_code_text (Py.set_nth (code_text s) k (change c)) s).
  assert (H1 : forall x, In x (codings s1) ->
                         In x (codings s) \/ x = change c).
  { intros x Hx. unfold codings, s1 in *. cbn [conn code_text with_code_text] in Hx.
    apply in_app_or in Hx as [Hx|Hx].
    - left. apply in_or_app. now left.
    - apply In_set_nth in Hx as [->|Hx]; [now right|].
      left. apply in_or_app. now right. }
  unfold execute, Sql.update_code_text.
  change (conn s1) with (conn s).
  destruct (Sql.unique_keys _) eqn:U; cbn [snd].
  - set (t := map _ (Db.code_text (conn s))).
    set (s2 := with_conn (Db.with_code_text t (conn s)) s1).
    destruct (reload_codings s2) as (l & -> & Hl).
    intros H.
    assert (H2 : In r' (codings s2)).
    { unfold codings in *. cbn [conn code_text with_code_text] in H.
      apply in_app_or in H as [H|H]; [apply in_or_app; now left|]. now apply Hl. }
    clear H. unfold codings, s2 in H2.
    cbn [conn code_text with_conn Db.code_text Db.with_code_text] in H2.
    apply in_app_or in H2 as [H2|H2].
    + unfold t in H2. apply in_map_iff in H2 as (r & <- & Hr).
      destruct (where_ s (change c) r) eqn:W.
      * right. exists c. repeat split; try assumption. right. now exists r.
      * left. apply in_or_app. now left.
    + destruct (H1 r') as [H|H].
      * unfold codings. apply in_or_app. now right.
      * now left.
      * right. exists c. repeat split; try assumption. now left.
  - intros H. destruct (H1 r' H) as [H'|H']; [now left|].
    right. exists c. repeat split; try assumption. now left.
Qed.

(** A handler only writes the table and [self.code_text]. *)
Lemma key_handler_result guard change where_ set k s :
  exists db l,
    snd (key_handler guard change where_ set k s) = with_conn db (with_code_text l s).
Proof.
  assert (Same : s = with_conn (conn s) (with_code_text (code_text s) s))
    by now destruct s.
  unfold key_handler, bind, get.
  destruct (nth_error (code_text s) k) as [c|]; cbn [ret snd];
    [|now exists (conn s), (code_text s)].
  destruct (guard s c); cbn [ret snd]; [now exists (conn s), (code_text s)|].
  unfold modify at 1. cbn [fst snd].
  unfold execute, Sql.update_code_text.
  destruct (Sql.unique_keys _); cbn [snd].
  - match goal with |- context [get_coded_text_update_eventfilter_tooltips ?s2] =>
      destruct (reload_codings s2) as (l & -> & _) end.
    eexists _, l. reflexivity.
  - exists (conn s). eexists. reflexivity.
Qed.

Lemma key_handler_frame guard change where_ set k s :
  let s' := snd (key_handler guard change where_ set k s) in
  textEdit s' = textEdit s /\ codername s' = codername s /\ filename s' = filename s.
Proof.
  destruct (key_handler_result guard change where_ set k s) as (db & l & E).
  cbv zeta. rewrite E. now repeat split.
Qed.

(** The codings after [change_code_pos]: those before, and the rows of
    the chosen coding moved by the numbers entered. *)
Lemma change_code_pos_codings location start_or_end select getInt s r' :
  In r' (codings (snd (change_code_pos location start_or_end select getInt s))) ->
  In r' (codings s)
  \/ exists c changed_start changed_end r,
       choose (filter (here s location) (code_text s)) select = Some c
       /\ (if String.eqb start_or_end "start" then getInt else Some 0) = Some changed_start
       /\ (if String.eqb start_or_end "end" then getInt else Some 0) = Some changed_end
       /\ In r (Db.code_text (conn s))
       /\ where_code (cid c) (fid c) (pos0 c) (pos1 c) (codername s) r = true
       /\ r' = set_pos (pos0 c + changed_start) (pos1 c + changed_end) r.
Proof.
  unfold change_code_pos, bind, get.
  destruct (filename s); cbn [ret snd]; try tauto;
    (destruct (filter (here s location) (code_text s)) as [|c0 l0]; cbn [ret snd]; [tauto|];
     destruct (choose (c0 :: l0) select) as [c|]; cbn [ret snd]; [|tauto];
     destruct (if String.eqb start_or_end "start" then getInt else Some 0)
       as [changed_start|]; cbn [ret snd]; [|tauto];
     destruct (if String.eqb start_or_end "end" then getInt else Some 0)
       as [changed_end|]; cbn [ret snd]; [|tauto];
     destruct ((changed_start =? 0) && (changed_end =? 0)); cbn [ret snd]; [tauto|];
     unfold execute, Sql.update_code_text;
     destruct (Sql.unique_keys _); cbn [snd]; [|tauto];
     match goal with |- context [get_coded_text_update_eventfilter_tooltips ?s2] =>
       destruct (reload_codings s2) as (l & -> & Hl) end;
     intros H; unfold codings in H;
     cbn [conn code_text with_code_text with_conn Db.code_text Db.with_code_text] in H;
     assert (H2 : In r' (map (fun r => if where_code (cid c) (fid c) (pos0 c) (pos1 c)
                                                     (codername s) r
                                       then set_pos (pos0 c + changed_start)
                                                    (pos1 c + changed_end) r
                                       else r) (Db.code_text (conn s)))
                  \/ In r' (code_text s));
     [ apply in_app_or in H as [H|H]; [now left|];
       apply Hl in H; unfold codings in H;
       cbn [conn code_text with_conn Db.code_text Db.with_code_text] in H;
       now apply in_app_or in H
     | clear H Hl; destruct H2 as [H2|H2];
       [ apply in_map_iff in H2 as (r & <- & Hr);
         destruct (where_code (cid c) (fid c) (pos0 c) (pos1 c) (codername s) r) eqn:W;
         [ right; exists c, changed_start, changed_end, r; now repeat split
         | left; apply in_or_app; now left ]
       | left; apply in_or_app; now right ] ]).
Qed.

End Resize.

(** ** Restricted edits of a coded text *)

Section RestrictedEdit.
Import ManageFiles.

(** The rows of the two crossover queries of [crossover_check]. *)
Definition code_crossover (db : Db.database) (id : Z) (c : text_cursor) : list (Z * Z) :=
  map (fun r => (pos0 r, pos1 r))
      (filter (fun r => (fid r =? id)
                        && crosses (selectionStart c) (selectionEnd c) (pos0 r) (pos1 r))
              (Db.code_text db)).

Definition annote_crossover (db : Db.database) (id : Z) (c : text_cursor) : list (Z * Z) :=
  map (fun r => (Annotation.pos0 r, Annotation.pos1 r))
      (filter (fun r => (Annotation.fid r =? id)
                        && crosses (selectionStart c) (selectionEnd c)
                             (Annotation.pos0 r) (Annotation.pos1 r))
              (Db.annotation db)).

(** The warning shown for a selection with a crossover: the codes that
    cross, or when there are none the annotations that cross. *)
Definition crossover_warning (db : Db.database) (id : Z) (c : text_cursor) : ui_event :=
  match code_crossover db id c with
  | _ :: _ =>
      Codes_cross_over_text (selectionStart c) (selectionEnd c) (code_crossover db id c)
  | [] =>
      Annotations_cross_over_text (selectionStart c) (selectionEnd c)
                                  (annote_crossover db id c)
  end.

Lemma crossover_check_crossing s x c r :
  Py.index (source s) x = Some r ->
  code_crossover (conn s) (Source.id r) c <> []
  \/ annote_crossover (conn s) (Source.id r) c <> [] ->
  exists resp,
    crossover_check x c s
    = (Return resp,
       with_shown (shown s ++ [crossover_warning (conn s) (Source.id r) c]) s)
    /\ crossover resp = true.
Proof.
  intros Hx Hcross.
  unfold crossover_check, bind, source_at, get. rewrite Hx.
  unfold crossover_warning.
  fold (code_crossover (conn s) (Source.id r) c).
  fold (annote_crossover (conn s) (Source.id r) c).
  destruct (code_crossover (conn s) (Source.id r) c) as [|p l] eqn:Ec.
  - destruct (annote_crossover (conn s) (Source.id r) c) as [|q l'] eqn:Ea.
    + destruct Hcross as [H|H]; contradiction.
    + eexists. split; reflexivity.
  - eexists. split; reflexivity.
Qed.

(** A coded span or annotation with an end strictly inside the selection
    makes its crossover query non-empty. *)
Lemma code_crossover_In db id c r :
  In r (Db.code_text db) -> fid r = id ->
  (selectionStart c < pos0 r < selectionEnd c
   \/ selectionStart c < pos1 r < selectionEnd c) ->
  code_crossover db id c <> [].
Proof.
  intros Hin Hf Hc E. unfold code_crossover in E.
  apply map_eq_nil in E.
  assert (I : In r []); [|exact I].
  rewrite <- E. apply filter_In. split; [exact Hin|].
  unfold crosses. rewrite Hf, Z.eqb_refl. zcases; try reflexivity; lia.
Qed.

Lemma annote_crossover_In db id c r :
  In r (Db.annotation db) -> Annotation.fid r = id ->
  (selectionStart c < Annotation.pos0 r < selectionEnd c
   \/ selectionStart c < Annotation.pos1 r < selectionEnd c) ->
  annote_crossover db id c <> [].
Proof.
  intros Hin Hf Hc E. unfold annote_crossover in E.
  apply map_eq_nil in E.
  assert (I : In r []); [|exact I].
  rewrite <- E. apply filter_In. split; [exact Hin|].
  unfold crosses. rewrite Hf, Z.eqb_refl. zcases; try reflexivity; lia.
Qed.

(** The menu leaves everything but the message boxes as it was when the
    selection has a crossover. *)
Lemma menu_crossover s x c action edit_dialog r :
  Py.index (source s) x = Some r ->
  code_crossover (conn s) (Source.id r) c <> []
  \/ annote_crossover (conn s) (Source.id r) c <> [] ->
  let attempted :=
    match action with
    | Some action_item_edit =>
        negb (String.eqb (text_view s) "")
        && (Py.len (selectedText s c) >? 0) && (Py.len (selectedText s c) <? 21)
    | _ => false
    end in
  textEdit_restricted_menu x c action edit_dialog s
  = (Return tt,
     if attempted
     then with_shown (shown s ++ [crossover_warning (conn s) (Source.id r) c]) s
     else s).
Proof.
  intros Hx Hcross. cbv zeta.
  unfold textEdit_restricted_menu, bind, get.
  destruct (String.eqb (text_view s) ""); cbn [negb andb ret].
  - now destruct action as [[]|].
  - destruct action as [[]|]; try reflexivity.
    destruct ((Py.len (selectedText s c) >? 0) && (Py.len (selectedText s c) <? 21));
      [|reflexivity].
    destruct (crossover_check_crossing s x c r Hx Hcross) as (resp & -> & ->).
    reflexivity.
Qed.

End RestrictedEdit.

(** ** Unmarking *)

Section Unmark.
Import CodeText.

(** [unmark] writes the table and [self.code_text] only, and the table
    by at most one delete with the name of the current coder. *)
Lemma unmark_result s location select :
  exists db l,
    snd (unmark location select s) = with_conn db (with_code_text l s)
    /\ (db = conn s
        \/ exists u, db = Sql.delete_code_text
                            (where_code (cid u) (fid u) (pos0 u) (pos1 u) (codername s))
                            (conn s)).
Proof.
  assert (Same : exists db l,
             s = with_conn db (with_code_text l s)
             /\ (db = conn s
                 \/ exists u, db = Sql.delete_code_text
                            (where_code (cid u) (fid u) (pos0 u) (pos1 u) (codername s))
                            (conn s))).
  { exists (conn s), (code_text s). split; [now destruct s | now left]. }
  unfold unmark, bind, get.
  destruct (filename s); cbn [ret snd]; try exact Same;
    (destruct (filter (here s location) (code_text s)) as [|c0 l0]; [exact Same|];
     destruct (choose (c0 :: l0) select) as [u|]; [|exact Same];
     unfold execute_ok, modify; cbn [fst snd];
     match goal with |- context [get_coded_text_update_eventfilter_tooltips ?s2] =>
       destruct (reload_codings s2) as (l & -> & _) end;
     eexists _, l; split; [reflexivity | right; now exists u]).
Qed.

(** [unmark] deletes rows of the current coder only, and nothing else. *)
Lemma unmark_only_own s location select :
  let s' := snd (unmark location select s) in
  exists keep,
    Db.code_text (conn s') = filter keep (Db.code_text (conn s))
    /\ (forall r, keep r = false -> owner r = codername s)
    /\ Db.annotation (conn s') = Db.annotation (conn s)
    /\ Db.case_text (conn s') = Db.case_text (conn s)
    /\ Db.source (conn s') = Db.source (conn s).
Proof.
  cbv zeta. destruct (unmark_result s location select) as (db & l & -> & [->|[u ->]]).
  - exists (fun _ => true). cbn [conn with_conn]. repeat split; [|discriminate].
    induction (Db.code_text (conn s)) as [|h t IH]; cbn [filter]; congruence.
  - eexists. cbn [conn with_conn Sql.delete_code_text Db.with_code_text
                  Db.code_text Db.annotation Db.case_text Db.source].
    split; [reflexivity|]. split; [|now repeat split].
    intros r Hr. apply negb_false_iff, where_code_key in Hr. now inversion Hr.
Qed.

End Unmark.

(** ** Auto-coding *)

Section AutoCode.
Import CodeText.

(** [k] is the key of a stored row. *)
Definition stored (k : Z * Z * Z * Z * string) (db : Db.database) : bool :=
  existsb (fun r => key_eqb (key r) k) (Db.code_text db).

(** An insert inside [try ... except]: the table after. *)
Definition attempt (t : list row) (r : row) : list row :=
  if existsb (Sql.same_key r) t then t else t ++ [r].

Lemma try_insert s r :
  try_except (execute (Sql.insert_code_text r)) s
  = (Return tt,
     with_conn (Db.with_code_text (attempt (Db.code_text (conn s)) r) (conn s)) s).
Proof.
  unfold try_except, execute, Sql.insert_code_text, attempt.
  destruct (existsb _ _); [|reflexivity].
  destruct s as [[] ? ? ? ? ? ? ?]. reflexivity.
Qed.








(** The rows that the literal-match loop tries for one file. *)
Definition auto_code_items (cid id : Z) (txt owner now : string) (textStarts : list Z)
    : list row :=
  map (fun startPos => Code_text.mk cid id txt startPos (startPos + Py.len txt) owner now "")
      textStarts.

Lemma auto_code_inserts_attempts cid id txt owner now textStarts : forall s,
  auto_code_inserts cid id txt owner now textStarts s
  = (Return tt,
     with_conn (Db.with_code_text
                  (fold_left attempt (auto_code_items cid id txt owner now textStarts)
                             (Db.code_text (conn s)))
                  (conn s)) s).
Proof.
  unfold auto_code_inserts, auto_code_items.
  induction textStarts as [|p l IH]; intros s; cbn [for_each map fold_left].
  - destruct s as [[] ? ? ? ? ? ? ?]. reflexivity.
  - unfold bind. rewrite try_insert, IH. reflexivity.
Qed.

(** The rows that the sentence loop tries for one file, from offset
    [pos0] on. *)
Fixpoint sentence_items (cid id : Z) (text ending owner now : string)
    (sentences : list string) (pos0 : Z) : list row :=
  match sentences with
  | [] => []
  | sentence :: rest =>
      (if Py.contains text sentence
       then [Code_text.mk cid id sentence pos0 (pos0 + Py.len sentence) owner now ""]
       else [])
      ++ sentence_items cid id text ending owner now rest
           (pos0 + Py.len sentence + Py.len ending)
  end.

Lemma code_sentences_loop_attempts cid id text ending owner now sentences :
  forall pos0 codes_added s,
  exists n,
    code_sentences_loop cid id text ending owner now sentences pos0 codes_added s
    = (Return n,
       with_conn (Db.with_code_text
                    (fold_left attempt
                               (sentence_items cid id text ending owner now sentences pos0)
                               (Db.code_text (conn s)))
                    (conn s)) s).
Proof.
  induction sentences as [|sen rest IH]; intros pos0 codes_added s;
    cbn [code_sentences_loop sentence_items].
  - exists codes_added. destruct s as [[] ? ? ? ? ? ? ?]. reflexivity.
  - unfold bind at 1. destruct (Py.contains text sen).
    + unfold bind at 1. rewrite try_insert. cbn [ret].
      match goal with |- context [code_sentences_loop _ _ _ _ _ _ _ ?p ?c ?s1] =>
        destruct (IH p c s1) as (n & ->) end.
      exists n. cbn [app fold_left conn with_conn Db.code_text Db.with_code_text].
      reflexivity.
    + cbn [ret].
      match goal with |- context [code_sentences_loop _ _ _ _ _ _ _ ?p ?c ?s1] =>
        destruct (IH p c s1) as (n & ->) end.
      exists n. reflexivity.
Qed.

(** *** No method of the auto-coder ends in [IntegrityError] *)

Definition never_integrity {A} (m : M state A) : Prop :=
  forall s, fst (m s) <> Raise IntegrityError.



Lemma never_try (m : M state unit) : never_integrity (try_except m).
Proof. intros s. unfold try_except. destruct (m s) as [[a|e] s']; discriminate. Qed.








(** *** What a run shows *)














End AutoCode.

(** * The claims *)

(** ** C1: overlaps of coded spans *)

Section C1.
Import CodeText.

Definition span_0_10 : row := Code_text.mk 1 1 "0123456789" 0 10 "A" "2020-01-01" "".
Definition span_5_15 : row := Code_text.mk 2 1 "56789abcde" 5 15 "A" "2020-01-01" "".
Definition span_0_5 : row := Code_text.mk 2 1 "01234" 0 5 "A" "2020-01-01" "".

(** C1, as stated, fails: two distinct intersecting spans that start at
    the same offset, [0,10) and [0,5), are reported twice, once for
    each order of the pair, and the one entry for [0,10) and [5,15) is
    written (10, 5), not (5, 10). *)
Lemma C1_same_start_reported_twice :
  span_0_10 <> span_0_5
  /\ pos0 span_0_10 < pos1 span_0_5 /\ pos0 span_0_5 < pos1 span_0_10
  /\ apply_overline_to_overlaps [span_0_10; span_0_5] = [(0, 5); (0, 5)]
  /\ apply_overline_to_overlaps [span_0_10; span_0_5]
     <> [(Z.max (pos0 span_0_10) (pos0 span_0_5), Z.min (pos1 span_0_10) (pos1 span_0_5))]
  /\ apply_overline_to_overlaps [span_0_10; span_5_15] = [(10, 5)].
Proof.
  repeat split; try discriminate; reflexivity.
Qed.

(** C1, amended: the list built for a snapshot is the concatenation of
    what each visit (i, j) of the two loops appends; for two distinct spans
    with intersecting ranges the two visits of the pair append two entries
    when the spans start at the same offset and one entry otherwise; an
    entry is (max start, min end) when one span contains the other and
    (min end, max start) otherwise; in both forms the text it overlines is
    [max start, min end). *)
Theorem C1_overlap_entries (i j : row) :
  i <> j ->
  pos0 i < pos1 i -> pos0 j < pos1 j ->
  pos0 i < pos1 j -> pos0 j < pos1 i ->
  let lo := Z.max (pos0 i) (pos0 j) in
  let hi := Z.min (pos1 i) (pos1 j) in
  (forall code_text,
      apply_overline_to_overlaps code_text
      = flat_map (fun i => flat_map (visit i) code_text) code_text)
  /\ apply_overline_to_overlaps [i; j] = visit i j ++ visit j i
  /\ visit i j ++ visit j i
     = (if pos0 i =? pos0 j then [(lo, hi); (lo, hi)]
        else if nested i j then [(lo, hi)]
        else [(hi, lo)])
  /\ Forall (fun o => overlined o = (lo, hi)) (visit i j ++ visit j i).
Proof.
  intros Hne Wi Wj Hij Hji lo hi.
  split; [exact overlaps_are_visits|].
  split.
  { rewrite overlaps_are_visits. cbn [flat_map].
    rewrite !visit_self, !app_nil_r. reflexivity. }
  pose proof (pair_visits i j Hne Hij Hji) as P. cbv zeta in P. fold lo hi in P.
  split; [exact P|].
  rewrite P.
  assert (Hlh : lo < hi) by (unfold lo, hi; lia).
  assert (O1 : overlined (lo, hi) = (lo, hi))
    by (unfold overlined; cbn [fst snd]; f_equal; lia).
  assert (O2 : overlined (hi, lo) = (lo, hi))
    by (unfold overlined; cbn [fst snd]; f_equal; lia).
  destruct (pos0 i =? pos0 j); [|destruct (nested i j)]; repeat constructor; assumption.
Qed.

(** The spans [0,10) and [5,15): one entry, (10, 5), overlining [5,10). *)
Lemma C1_overlap_entries_witness :
  apply_overline_to_overlaps [span_0_10; span_5_15] = [(10, 5)]
  /\ Forall (fun o => overlined o = (5, 10)) [(10, 5)].
Proof.
  assert (Hne : span_0_10 <> span_5_15) by discriminate.
  destruct (C1_overlap_entries span_0_10 span_5_15 Hne) as (_ & H2 & H3 & H4);
    try (cbn; lia).
  split.
  - rewrite H2. exact H3.
  - rewrite H3 in H4. exact H4.
Defined.

End C1.

(** ** C5: marking a segment twice *)

Section C5.
Import CodeText.

(** C5: marking a segment whose key (code, file, coder, start, end) is
    already stored reports the conflict in a warning and changes nothing
    else: the table and the list of the dialog stay as they are, and the
    table still holds exactly one row with that key. *)
Theorem C5_duplicate_mark_is_conflict s name c p0 p1 now id fname r :
  filename s = File id fname ->
  p0 <> p1 ->
  Sql.unique_keys (Db.code_text (conn s)) = true ->
  In r (Db.code_text (conn s)) ->
  key r = (c, id, p0, p1, codername s) ->
  let result := mark (Some (Code_item name c)) p0 p1 now s in
  fst result = Return tt
  /\ conn (snd result) = conn s
  /\ code_text (snd result) = code_text s
  /\ shown (snd result) = shown s ++ [Warning_already_coded (codername s)]
  /\ count_key (c, id, p0, p1, codername s) (Db.code_text (conn (snd result))) = 1%nat.
Proof.
  intros Hf Hne U Hin Hk result. unfold result.
  rewrite (mark_stored s name c p0 p1 now id fname r Hf Hne Hin Hk).
  cbn [fst snd conn code_text shown with_shown].
  repeat split. rewrite <- Hk. now apply count_key_unique.
Qed.

(** A file with the text of the spec's scenario, opened by coder A. *)
Definition cat_text : string := "The cat sat. The dog ran.".

Definition cat_file (codes : list row) : state :=
  CodeText.mk
    (Db.mk [Source.mk 1 "doc" (Some cat_text) None "" "A" "2020-01-01"] codes [] [])
    "A" [(1, "doc")] (File 1 "doc") cat_text codes [] [].

(** Marking [4,7) twice in a file with no codes: the first call stores
    the span, the second only warns. *)
Lemma C5_duplicate_mark_is_conflict_witness :
  let s1 := snd (mark (Some (Code_item "animal" 1)) 4 7 "2020-01-02" (cat_file [])) in
  let s2 := snd (mark (Some (Code_item "animal" 1)) 4 7 "2020-01-03" s1) in
  Db.code_text (conn s1) = [Code_text.mk 1 1 "cat" 4 7 "A" "2020-01-02" ""]
  /\ conn s2 = conn s1
  /\ shown s2 = [Warning_already_coded "A"]
  /\ count_key (1, 1, 4, 7, "A") (Db.code_text (conn s2)) = 1%nat.
Proof.
  intros s1 s2.
  assert (E1 : Db.code_text (conn s1) = [Code_text.mk 1 1 "cat" 4 7 "A" "2020-01-02" ""])
    by reflexivity.
  destruct (C5_duplicate_mark_is_conflict s1 "animal" 1 4 7 "2020-01-03" 1 "doc"
              (Code_text.mk 1 1 "cat" 4 7 "A" "2020-01-02" ""))
    as (_ & H2 & _ & H4 & H5).
  - reflexivity.
  - discriminate.
  - reflexivity.
  - rewrite E1. now left.
  - reflexivity.
  - repeat split; assumption.
Defined.

End C5.

(** ** C8 and C10: resizing keeps a span non-empty and inside the text *)

Section C8_C10.
Import CodeText.

(** Every coding that the dialog knows has at least one character. *)
Definition one_character_minimum (s : state) : Prop :=
  Forall (fun r => pos0 r < pos1 r) (codings s).

Lemma where_code_pos c f p0 p1 o r :
  where_code c f p0 p1 o r = true -> pos0 r = p0 /\ pos1 r = p1.
Proof. intros H. apply where_code_key in H. now inversion H. Qed.

Lemma one_character_after (s s' : state) :
  one_character_minimum s ->
  (forall r', In r' (codings s') -> In r' (codings s) \/ pos0 r' < pos1 r') ->
  one_character_minimum s'.
Proof.
  unfold one_character_minimum. rewrite !Forall_forall. intros H Hs r' Hr'.
  destruct (Hs r' Hr') as [I|W]; auto.
Qed.

Lemma extend_left_one_character s k :
  one_character_minimum s -> one_character_minimum (snd (extend_left k s)).
Proof.
  intros H. apply (one_character_after s); [exact H|]. intros r' Hr'.
  rewrite extend_left_handler in Hr'.
  apply key_handler_codings in Hr' as [I|(c & Hk & Hg & [->|(r & Hr & W & ->)])];
    [now left| |]; right.
  - unfold one_character_minimum, codings in H. rewrite Forall_forall in H.
    assert (pos0 c < pos1 c) by (apply H, in_or_app; right; eapply nth_error_In; eauto).
    cbn [pos0 pos1 set_pos]. lia.
  - unfold one_character_minimum, codings in H. rewrite Forall_forall in H.
    assert (pos0 r < pos1 r) by (apply H, in_or_app; now left).
    apply where_code_pos in W. cbn [pos0 pos1 set_pos] in *. lia.
Qed.

Lemma extend_right_one_character s k :
  one_character_minimum s -> one_character_minimum (snd (extend_right k s)).
Proof.
  intros H. apply (one_character_after s); [exact H|]. intros r' Hr'.
  rewrite extend_right_handler in Hr'.
  apply key_handler_codings in Hr' as [I|(c & Hk & Hg & [->|(r & Hr & W & ->)])];
    [now left| |]; right.
  - unfold one_character_minimum, codings in H. rewrite Forall_forall in H.
    assert (pos0 c < pos1 c) by (apply H, in_or_app; right; eapply nth_error_In; eauto).
    cbn [pos0 pos1 set_pos]. lia.
  - unfold one_character_minimum, codings in H. rewrite Forall_forall in H.
    assert (pos0 r < pos1 r) by (apply H, in_or_app; now left).
    apply where_code_pos in W. cbn [pos0 pos1 set_pos] in *. lia.
Qed.

(** The two shrinking handlers need nothing of the span they get. *)
Lemma shrink_to_left_codings s k r' :
  In r' (codings (snd (shrink_to_left k s))) -> In r' (codings s) \/ pos0 r' < pos1 r'.
Proof.
  rewrite shrink_to_left_handler. intros Hr'.
  apply key_handler_codings in Hr' as [I|(c & Hk & Hg & [->|(r & Hr & W & ->)])];
    [now left| |]; right.
  - apply Z.leb_gt in Hg. cbn [pos0 pos1 set_pos]. lia.
  - apply Z.leb_gt in Hg. apply where_code_pos in W. cbn [pos0 pos1 set_pos] in *. lia.
Qed.

Lemma shrink_to_right_codings s k r' :
  In r' (codings (snd (shrink_to_right k s))) -> In r' (codings s) \/ pos0 r' < pos1 r'.
Proof.
  rewrite shrink_to_right_handler. intros Hr'.
  apply key_handler_codings in Hr' as [I|(c & Hk & Hg & [->|(r & Hr & W & ->)])];
    [now left| |]; right.
  - rewrite Z.geb_leb in Hg. apply Z.leb_gt in Hg. cbn [pos0 pos1 set_pos]. lia.
  - rewrite Z.geb_leb in Hg. apply Z.leb_gt in Hg.
    apply where_code_pos in W. cbn [pos0 pos1 set_pos] in *. lia.
Qed.

Lemma change_code_pos_one_character s location start_or_end select getInt :
  one_character_minimum s ->
  (forall c v,
      choose (filter (here s location) (code_text s)) select = Some c ->
      getInt = Some v ->
      (start_or_end = "start" -> start_min c <= v <= start_max c)
      /\ (start_or_end = "end" -> end_min c <= v <= end_max (Py.len (textEdit s)) c)) ->
  one_character_minimum (snd (change_code_pos location start_or_end select getInt s)).
Proof.
  intros H Hdialog. apply (one_character_after s); [exact H|]. intros r' Hr'.
  apply change_code_pos_codings in Hr'
    as [I|(c & cs & ce & r & Hc & Hs & He & Hr & W & ->)]; [now left|right].
  unfold one_character_minimum, codings in H. rewrite Forall_forall in H.
  assert (Wr : pos0 r < pos1 r) by (apply H, in_or_app; now left).
  apply where_code_pos in W. destruct W as [W0 W1].
  cbn [pos0 pos1 set_pos]. unfold start_min, start_max, end_min, end_max in Hdialog.
  destruct (String.eqb_spec start_or_end "start") as [Es|Ns].
  - subst start_or_end. cbn in He. injection He as <-.
    destruct (Hdialog c cs Hc Hs) as [B _]. specialize (B eq_refl). lia.
  - injection Hs as <-.
    destruct (String.eqb_spec start_or_end "end") as [Ee|Ne].
    + destruct (Hdialog c ce Hc He) as [_ B]. specialize (B Ee). lia.
    + injection He as <-. lia.
Qed.

(** A file with one span [5,10) of coder A, and the same file after the
    span was shrunk to [5,6). *)
Definition span_5_10 : row := Code_text.mk 1 1 "at sa" 5 10 "A" "2020-01-01" "".
Definition span_5_6 : row := Code_text.mk 1 1 "at sa" 5 6 "A" "2020-01-01" "".

(** C8: the four key handlers and [change_code_pos] (whose dialog returns
    a number within the bounds it was given) keep every coding with
    start < end; a span of one character is left as it is by both shrinking
    handlers, which return without a message; four presses of Alt-Left
    shrink the span [5,10) to [5,6), so does the end change -4, and the
    bounds of the dialog for [5,6) exclude a change of the end by -1. *)
Theorem C8_resize_keeps_one_character (s : state) :
  one_character_minimum s ->
  (forall k,
      one_character_minimum (snd (extend_left k s))
      /\ one_character_minimum (snd (extend_right k s))
      /\ one_character_minimum (snd (shrink_to_left k s))
      /\ one_character_minimum (snd (shrink_to_right k s)))
  /\ (forall location start_or_end select getInt,
         (forall c v,
             choose (filter (here s location) (code_text s)) select = Some c ->
             getInt = Some v ->
             (start_or_end = "start" -> start_min c <= v <= start_max c)
             /\ (start_or_end = "end" -> end_min c <= v <= end_max (Py.len (textEdit s)) c)) ->
         one_character_minimum
           (snd (change_code_pos location start_or_end select getInt s)))
  /\ (forall k c,
         nth_error (code_text s) k = Some c -> pos1 c = pos0 c + 1 ->
         shrink_to_left k s = (Return tt, s) /\ shrink_to_right k s = (Return tt, s))
  /\ (let press := eventFilter Alt_Left 5 in
      snd ((press ;; press ;; press ;; press) (cat_file [span_5_10])) = cat_file [span_5_6]
      /\ press (cat_file [span_5_6]) = (Return tt, cat_file [span_5_6])
      /\ change_code_pos 5 "end" None (Some (-4)) (cat_file [span_5_10])
         = (Return tt, cat_file [span_5_6])
      /\ end_min span_5_6 = 0).
Proof.
  intros H. split; [|split; [|split]].
  - intros k. repeat split.
    + now apply extend_left_one_character.
    + now apply extend_right_one_character.
    + apply (one_character_after s); [exact H | apply shrink_to_left_codings].
    + apply (one_character_after s); [exact H | apply shrink_to_right_codings].
  - intros. now apply change_code_pos_one_character.
  - intros k c Hk Hc. split.
    + rewrite shrink_to_left_handler. apply (key_handler_guarded _ _ _ _ k s c Hk).
      apply Z.leb_le. lia.
    + rewrite shrink_to_right_handler. apply (key_handler_guarded _ _ _ _ k s c Hk).
      rewrite Z.geb_leb. apply Z.leb_le. lia.
  - vm_compute. repeat split.
Qed.

(** The file with the span [5,10): one Alt-Left and the end change -4 keep
    the invariant; the file with the span [5,6) is left as it is. *)
Lemma C8_resize_keeps_one_character_witness :
  one_character_minimum (snd (shrink_to_left 0 (cat_file [span_5_10])))
  /\ one_character_minimum
       (snd (change_code_pos 5 "end" None (Some (-4)) (cat_file [span_5_10])))
  /\ shrink_to_left 0 (cat_file [span_5_6]) = (Return tt, cat_file [span_5_6]).
Proof.
  assert (W10 : one_character_minimum (cat_file [span_5_10]))
    by (repeat constructor).
  assert (W6 : one_character_minimum (cat_file [span_5_6]))
    by (repeat constructor).
  destruct (C8_resize_keeps_one_character _ W10) as (K & C & _ & _).
  destruct (C8_resize_keeps_one_character _ W6) as (_ & _ & G & _).
  split; [apply K|]. split.
  - apply C. intros c v Hc Hv. injection Hc as <-. injection Hv as <-.
    split; [discriminate|]. intros _. cbv. split; discriminate.
  - apply (G 0%nat span_5_6); reflexivity.
Defined.

(** C10: [extend_right] returns at once when end + 1 >= length of the
    text, and a coding it writes ends at most at length - 1;
    [extend_left] returns at once when start is 0, and a coding it writes
    starts at 0 or later. *)
Theorem C10_extend_stays_inside (s : state) (k : nat) :
  (forall c, nth_error (code_text s) k = Some c ->
             pos1 c + 1 >= Py.len (textEdit s) ->
             extend_right k s = (Return tt, s))
  /\ (forall r', In r' (codings (snd (extend_right k s))) ->
                 In r' (codings s) \/ pos1 r' <= Py.len (textEdit s) - 1)
  /\ (forall c, nth_error (code_text s) k = Some c ->
                pos0 c = 0 ->
                extend_left k s = (Return tt, s))
  /\ (forall r', In r' (codings (snd (extend_left k s))) ->
                 In r' (codings s) \/ 0 <= pos0 r').
Proof.
  split; [|split; [|split]].
  - intros c Hk Hc. rewrite extend_right_handler.
    apply (key_handler_guarded _ _ _ _ k s c Hk).
    rewrite Z.geb_leb. apply Z.leb_le. lia.
  - intros r' Hr'. rewrite extend_right_handler in Hr'.
    apply key_handler_codings in Hr' as [I|(c & Hk & Hg & [->|(r & Hr & W & ->)])];
      [now left| |]; right;
      rewrite Z.geb_leb in Hg; apply Z.leb_gt in Hg; cbn [pos0 pos1 set_pos] in *; lia.
  - intros c Hk Hc. rewrite extend_left_handler.
    apply (key_handler_guarded _ _ _ _ k s c Hk).
    apply Z.ltb_lt. lia.
  - intros r' Hr'. rewrite extend_left_handler in Hr'.
    apply key_handler_codings in Hr' as [I|(c & Hk & Hg & [->|(r & Hr & W & ->)])];
      [now left| |]; right;
      apply Z.ltb_ge in Hg; cbn [pos0 pos1 set_pos] in *; lia.
Qed.

(** In the text of 25 characters a span ending at 24 is not extended to
    the right, and a span starting at 0 is not extended to the left. *)
Definition span_0_24 : row :=
  Code_text.mk 1 1 "The cat sat. The dog ran" 0 24 "A" "2020-01-01" "".

Lemma C10_extend_stays_inside_witness :
  extend_right 0 (cat_file [span_0_24]) = (Return tt, cat_file [span_0_24])
  /\ extend_left 0 (cat_file [span_0_24]) = (Return tt, cat_file [span_0_24]).
Proof.
  destruct (C10_extend_stays_inside (cat_file [span_0_24]) 0) as (R & _ & L & _).
  split.
  - apply (R span_0_24); [reflexivity | cbv; discriminate].
  - apply (L span_0_24); reflexivity.
Defined.

End C8_C10.

(** ** C9: deleting removes the coder's own spans only *)

Section C9.
Import CodeText.

(** Three annotations that start at offset 4: one of coder A in file 1,
    one of coder B in file 2 and one of coder B in file 1.  Coder A has
    file 1 open; [self.annotations] holds the annotations of coder A. *)
Definition note_mine : Annotation.row :=
  Annotation.mk 1 1 4 7 "a cat" "A" "2020-01-01".
Definition note_other_file : Annotation.row :=
  Annotation.mk 2 2 4 9 "elsewhere" "B" "2020-01-01".
Definition note_other_owner : Annotation.row :=
  Annotation.mk 3 1 4 11 "same place" "B" "2020-01-01".

Definition annotated_file : state :=
  CodeText.mk
    (Db.mk [Source.mk 1 "doc" (Some cat_text) None "" "A" "2020-01-01"] []
           [note_mine; note_other_file; note_other_owner] [])
    "A" [(1, "doc")] (File 1 "doc") cat_text [] [note_mine] [].

(** C9 fails on [annotate]: coder A empties the memo of the own
    annotation at [4,7) of file 1, and the delete, which names the start
    offset only, also removes the annotation of coder B in file 2 and the
    annotation of coder B in file 1.  [unmark] does delete rows of the
    current coder only ([unmark_only_own]). *)
Theorem C9_annotate_deletes_other_owners :
  let s' := snd (annotate 5 4 7 "" "2020-01-02" annotated_file) in
  codername annotated_file = "A"
  /\ In note_other_file (Db.annotation (conn annotated_file))
  /\ Annotation.owner note_other_file = "B" /\ Annotation.fid note_other_file = 2
  /\ In note_other_owner (Db.annotation (conn annotated_file))
  /\ Annotation.owner note_other_owner = "B"
  /\ Db.annotation (conn s') = []
  /\ shown s' = [Annotation_removed 4 "doc"].
Proof.
  vm_compute. repeat split; auto.
Qed.

End C9.

(** ** C7: auto-coding and duplicate keys *)

Section C7.
Import CodeText.

(** A file with three occurrences of "cat", the second already coded by
    hand with code 1 by coder A; and a file with three sentences that
    contain "cat", the second already coded. *)
Definition three_cats : state :=
  let manual := Code_text.mk 1 1 "cat" 4 7 "A" "2020-01-01" "" in
  CodeText.mk
    (Db.mk [Source.mk 1 "doc" (Some "cat cat cat") None "" "A" "2020-01-01"] [manual] [] [])
    "A" [(1, "doc")] (File 1 "doc") "cat cat cat" [manual] [] [].

Definition three_sentences : state :=
  let manual := Code_text.mk 1 1 "B cat" 7 12 "A" "2020-01-01" "" in
  CodeText.mk
    (Db.mk [Source.mk 1 "doc" (Some "A cat. B cat. C cat") None "" "A" "2020-01-01"]
           [manual] [] [])
    "A" [(1, "doc")] (File 1 "doc") "A cat. B cat. C cat" [manual] [] [].




End C7.

(** ** C2, C3, C4 and C6: editing a text that has codes *)

Section Edits.
Import ManageFiles.

Lemma length_substring s : forall n m,
  (n + m <= String.length s)%nat -> String.length (substring n m s) = m.
Proof.
  induction s as [|a s IH]; intros [|n] [|m] H; cbn [substring String.length] in *;
    try lia; try reflexivity.
  - f_equal. apply IH. lia.
  - apply IH. lia.
  - apply IH. lia.
Qed.

Lemma bound_inside n i : 0 <= i <= n -> Py.bound n i = i.
Proof.
  intros H. unfold Py.bound.
  assert (E1 : (i <? 0) = false) by (apply Z.ltb_ge; lia).
  assert (E2 : (n <? i) = false) by (apply Z.ltb_ge; lia).
  rewrite E1. cbv zeta. rewrite E1, E2. reflexivity.
Qed.

(** The length of a slice with bounds inside the text. *)
Lemma len_slice s i j :
  0 <= i -> i <= j -> j <= Py.len s -> Py.len (Py.slice s i j) = j - i.
Proof.
  intros Hi Hij Hj. unfold Py.slice. rewrite !bound_inside by lia.
  destruct (Z.leb_spec j i).
  - cbn. lia.
  - unfold Py.len in *. rewrite length_substring; lia.
Qed.

(** The file with id 1 and text [doc], shown in the viewer, with its
    codes, annotations and case links. *)
Definition the_source (doc : string) : Source.row :=
  Source.mk 1 "doc" (Some doc) None "" "A" "2020-01-01".

Definition text_file (doc : string) (codes : list row) (annotations : list Annotation.row)
    (cases : list Case_text.row) : state :=
  ManageFiles.mk (Db.mk [the_source doc] codes annotations cases) [the_source doc] doc [].

(** Runs the menu on a state built from constructors: simplifies, unfolds
    the statements that the loops reach, and uses the facts [F] on the
    text. *)
Ltac run_menu F1 F2 F3 :=
  unfold textEdit_restricted_menu, restricted_edit_text, crossover_check, selectedText,
    source_at, show, text_file, the_source;
  repeat (progress
            (cbn -[Py.slice Py.len append String.eqb];
             unfold bind, ret, get, Sql.update_code_text, Sql.update_annotation,
               Sql.update_case_text, Sql.update_source, Sql.same_key, Code_text.key_eqb,
               Code_text.key, execute, execute_ok, modify;
             rewrite ?F1, ?F2, ?F3, ?Z.eqb_refl, ?Bool.andb_true_r, ?Bool.andb_false_r)).

Definition alphabet : string := "0123456789abcdefghijklmnopqrstuvwxyz".

Definition three_spans : list row :=
  [Code_text.mk 1 1 "56789" 5 10 "A" "2020-01-01" "";
   Code_text.mk 2 1 "fghij" 15 20 "A" "2020-01-01" "";
   Code_text.mk 3 1 "89abcd" 8 14 "A" "2020-01-01" ""].

(** C2, as stated, fails: with the spans [5,10), [15,20) and [8,14), the
    check of the selection [12,14) finds no crossover, lists [8,14) as the
    coded section, and the edit is carried out without a warning. *)
Lemma C2_edit_inside_8_14_is_accepted :
  let s := text_file alphabet three_spans [] [] in
  let result := textEdit_restricted_menu 0 (cursor 12 14) (Some action_item_edit)
                                         (Some "VWXYZ") s in
  fst (crossover_check 0 (cursor 12 14) s) = Return (mkresponse false [(8, 14)] [] [])
  /\ fst result = Return tt
  /\ shown (snd result) = []
  /\ text_view (snd result) = "0123456789abVWXYZefghijklmnopqrstuvwxyz"
  /\ text_view (snd result) <> text_view s.
Proof.
  vm_compute. repeat split. discriminate.
Qed.

(** C2, amended: in a text of 20 characters or more with the spans [5,10),
    [15,20) and [8,14), of any codes and coders, the edit that replaces
    [12,14) by five characters is accepted; it leaves [5,10) as it is,
    turns [15,20) into [18,23), and [8,14), which contains the selection,
    becomes [8,17) with the new text from 8 to 17 as its selected text. *)
Theorem C2_remap_three_spans (doc new_text : string)
    (c1 c2 c3 : Z) (o1 o2 o3 t1 t2 t3 d1 d2 d3 m1 m2 m3 : string) :
  20 <= Py.len doc ->
  Py.len new_text = 5 ->
  let fulltext := (Py.slice doc 0 12 ++ new_text ++ Py.slice doc 14 (Py.len doc))%string in
  textEdit_restricted_menu 0 (cursor 12 14) (Some action_item_edit) (Some new_text)
    (text_file doc [Code_text.mk c1 1 t1 5 10 o1 d1 m1;
                    Code_text.mk c2 1 t2 15 20 o2 d2 m2;
                    Code_text.mk c3 1 t3 8 14 o3 d3 m3] [] [])
  = (Return tt,
     text_file fulltext [Code_text.mk c1 1 t1 5 10 o1 d1 m1;
                         Code_text.mk c2 1 t2 18 23 o2 d2 m2;
                         Code_text.mk c3 1 (Py.slice fulltext 8 17) 8 17 o3 d3 m3] [] []).
Proof.
  intros Hd Hn fulltext.
  assert (F1 : String.eqb doc "" = false)
    by (destruct doc; [cbv in Hd; congruence | reflexivity]).
  assert (F2 : Py.len (Py.slice doc 12 14) = 2) by (rewrite len_slice; lia).
  run_menu F1 F2 Hn.
  reflexivity.
Qed.

(** The text of 36 characters with "VWXYZ" for its characters 12 and 13. *)
Lemma C2_remap_three_spans_witness :
  textEdit_restricted_menu 0 (cursor 12 14) (Some action_item_edit) (Some "VWXYZ")
    (text_file alphabet three_spans [] [])
  = (Return tt,
     text_file "0123456789abVWXYZefghijklmnopqrstuvwxyz"
       [Code_text.mk 1 1 "56789" 5 10 "A" "2020-01-01" "";
        Code_text.mk 2 1 "fghij" 18 23 "A" "2020-01-01" "";
        Code_text.mk 3 1 "89abVWXYZ" 8 17 "A" "2020-01-01" ""] [] []).
Proof.
  apply (C2_remap_three_spans alphabet "VWXYZ" 1 2 3 "A" "A" "A" "56789" "fghij" "89abcd"
           "2020-01-01" "2020-01-01" "2020-01-01" "" "" "");
    [cbv; discriminate | reflexivity].
Defined.

(** C3 fails on the code in two ways.  An edit that keeps the length
    (here "cat" to "dog" in the span [4,7)) returns before any span is
    updated, so the span keeps the selected text "cat" while the new text
    from 4 to 7 is "dog".  An edit that shortens the text (here [2,5)
    to "x", with a second span at [5,8)) first moves the later span to
    [3,6), then repeats the crossover check on the moved rows, finds that
    span inside the selection and leaves the span [2,5) as it was instead
    of [2,3). *)
Theorem C3_edited_span_not_updated :
  (let s := text_file cat_text [Code_text.mk 1 1 "cat" 4 7 "A" "2020-01-01" ""] [] [] in
   let result := textEdit_restricted_menu 0 (cursor 4 7) (Some action_item_edit)
                                          (Some "dog") s in
   fst (crossover_check 0 (cursor 4 7) s) = Return (mkresponse false [(4, 7)] [] [])
   /\ fst result = Return tt
   /\ text_view (snd result) = "The dog sat. The dog ran."
   /\ Db.code_text (conn (snd result)) = [Code_text.mk 1 1 "cat" 4 7 "A" "2020-01-01" ""]
   /\ Py.slice (text_view (snd result)) 4 7 = "dog")
  /\ (let s := text_file "abcdefgh" [Code_text.mk 1 1 "cde" 2 5 "A" "2020-01-01" "";
                                      Code_text.mk 2 1 "fgh" 5 8 "A" "2020-01-01" ""] [] [] in
      let result := textEdit_restricted_menu 0 (cursor 2 5) (Some action_item_edit)
                                             (Some "x") s in
      fst (crossover_check 0 (cursor 2 5) s) = Return (mkresponse false [(2, 5)] [] [])
      /\ fst result = Return tt
      /\ text_view (snd result) = "abxfgh"
      /\ Db.code_text (conn (snd result))
         = [Code_text.mk 1 1 "cde" 2 5 "A" "2020-01-01" "";
            Code_text.mk 2 1 "fgh" 3 6 "A" "2020-01-01" ""]
      /\ shown (snd result) = [Codes_cross_over_text 2 5 [(3, 6)]]).
Proof.
  vm_compute. repeat split.
Qed.

(** C4, as stated, fails: a case link [10,13) straddles the selection
    [12,14), no coded span or annotation does, and the edit is carried out
    without a warning; the case link stays at [10,13). *)
Lemma C4_case_link_straddle_is_accepted :
  let link := Case_text.mk 1 1 1 10 13 "A" "2020-01-01" "" in
  let s := text_file alphabet [Code_text.mk 1 1 "012" 0 3 "A" "2020-01-01" ""] [] [link] in
  let result := textEdit_restricted_menu 0 (cursor 12 14) (Some action_item_edit)
                                         (Some "VWXYZ") s in
  Case_text.pos0 link < 12 /\ 12 < Case_text.pos1 link < 14
  /\ fst result = Return tt
  /\ shown (snd result) = []
  /\ Db.source (conn (snd result)) = [the_source "0123456789abVWXYZefghijklmnopqrstuvwxyz"]
  /\ Db.source (conn (snd result)) <> Db.source (conn s)
  /\ Db.case_text (conn (snd result)) = [link].
Proof.
  vm_compute. repeat split; discriminate.
Qed.

(** C4, amended: when a coded span or an annotation of the file, of any
    coder, has its start or its end strictly inside the selection, the menu
    returns with the table, the loaded rows and the viewer's text as they
    were; when the edit was asked for (a selection of 1 to 20 characters in
    a non-empty text) it shows one warning that lists the coded spans that
    cross, or when there are none the annotations that cross.  Case links
    are not checked. *)
Theorem C4_crossover_is_rejected s x c action edit_dialog r :
  Py.index (source s) x = Some r ->
  (exists cr, In cr (Db.code_text (conn s)) /\ fid cr = Source.id r
              /\ (selectionStart c < pos0 cr < selectionEnd c
                  \/ selectionStart c < pos1 cr < selectionEnd c))
  \/ (exists an, In an (Db.annotation (conn s)) /\ Annotation.fid an = Source.id r
                 /\ (selectionStart c < Annotation.pos0 an < selectionEnd c
                     \/ selectionStart c < Annotation.pos1 an < selectionEnd c)) ->
  let result := textEdit_restricted_menu x c action edit_dialog s in
  let attempted :=
    match action with
    | Some action_item_edit =>
        negb (String.eqb (text_view s) "")
        && (Py.len (selectedText s c) >? 0) && (Py.len (selectedText s c) <? 21)
    | _ => false
    end in
  fst result = Return tt
  /\ conn (snd result) = conn s
  /\ source (snd result) = source s
  /\ text_view (snd result) = text_view s
  /\ shown (snd result)
     = (if attempted then shown s ++ [crossover_warning (conn s) (Source.id r) c]
        else shown s).
Proof.
  intros Hx Hcross result attempted. unfold result.
  assert (Hc : code_crossover (conn s) (Source.id r) c <> []
               \/ annote_crossover (conn s) (Source.id r) c <> []).
  { destruct Hcross as [(cr & I & F & C)|(an & I & F & C)].
    - left. eapply code_crossover_In; eauto.
    - right. eapply annote_crossover_In; eauto. }
  rewrite (menu_crossover s x c action edit_dialog r Hx Hc).
  fold attempted. destruct attempted; cbn [fst snd]; now repeat split.
Qed.

(** The selection [12,16) in the file with the spans [5,10), [15,20)
    and [8,14): the ends 14 and 15 lie inside it. *)
Lemma C4_crossover_is_rejected_witness :
  let s := text_file alphabet three_spans [] [] in
  let result := textEdit_restricted_menu 0 (cursor 12 16) (Some action_item_edit)
                                         (Some "VWXYZ") s in
  fst result = Return tt
  /\ conn (snd result) = conn s
  /\ source (snd result) = source s
  /\ text_view (snd result) = text_view s
  /\ shown (snd result) = [Codes_cross_over_text 12 16 [(15, 20); (8, 14)]].
Proof.
  intros s result.
  destruct (C4_crossover_is_rejected s 0 (cursor 12 16) (Some action_item_edit)
              (Some "VWXYZ") (the_source alphabet)) as (H1 & H2 & H3 & H4 & H5).
  - reflexivity.
  - left. exists (Code_text.mk 3 1 "89abcd" 8 14 "A" "2020-01-01" "").
    split; [cbn; tauto|]. split; [reflexivity|]. right. cbn. lia.
  - repeat split; assumption.
Defined.

(** An edit of [4,7) to six characters, in any text of 16 characters or
    more with a span at [4,7) and a coded span, an annotation and a case
    link at [13,16). *)
Lemma replace_4_7 (doc new_text : string) (cA cB : Z) (tA tB oA oB dA dB mA mB : string)
    (anid : Z) (n_memo n_owner n_date : string)
    (k_id k_case : Z) (k_owner k_date k_memo : string) :
  16 <= Py.len doc ->
  Py.len new_text = 6 ->
  let fulltext := (Py.slice doc 0 4 ++ new_text ++ Py.slice doc 7 (Py.len doc))%string in
  textEdit_restricted_menu 0 (cursor 4 7) (Some action_item_edit) (Some new_text)
    (text_file doc
       [Code_text.mk cA 1 tA 4 7 oA dA mA; Code_text.mk cB 1 tB 13 16 oB dB mB]
       [Annotation.mk anid 1 13 16 n_memo n_owner n_date]
       [Case_text.mk k_id k_case 1 13 16 k_owner k_date k_memo])
  = (Return tt,
     text_file fulltext
       [Code_text.mk cA 1 (Py.slice fulltext 4 10) 4 10 oA dA mA;
        Code_text.mk cB 1 tB 16 19 oB dB mB]
       [Annotation.mk anid 1 16 19 n_memo n_owner n_date]
       [Case_text.mk k_id k_case 1 16 19 k_owner k_date k_memo]).
Proof.
  intros Hd Hn fulltext.
  assert (F1 : String.eqb doc "" = false)
    by (destruct doc; [cbv in Hd; congruence | reflexivity]).
  assert (F2 : Py.len (Py.slice doc 4 7) = 3) by (rewrite len_slice; lia).
  run_menu F1 F2 Hn.
  reflexivity.
Qed.

(** C6: in the text "The cat sat. The dog ran." with a span [4,7) whose
    selected text is "cat", the edit that replaces [4,7) by "kitten"
    turns that span into [4,10) with the selected text "kitten"; a coded
    span, an annotation and a case link at [13,16), of any code and coder,
    move to [16,19); afterwards the selected text of both coded spans is
    the new text from their start to their end. *)
Theorem C6_cat_to_kitten (cA cB : Z) (oA oB dA dB mA mB : string)
    (anid : Z) (n_memo n_owner n_date : string)
    (k_id k_case : Z) (k_owner k_date k_memo : string) :
  let new_text := "The kitten sat. The dog ran." in
  let result :=
    textEdit_restricted_menu 0 (cursor 4 7) (Some action_item_edit) (Some "kitten")
      (text_file cat_text
         [Code_text.mk cA 1 "cat" 4 7 oA dA mA; Code_text.mk cB 1 "The" 13 16 oB dB mB]
         [Annotation.mk anid 1 13 16 n_memo n_owner n_date]
         [Case_text.mk k_id k_case 1 13 16 k_owner k_date k_memo]) in
  result
  = (Return tt,
     text_file new_text
       [Code_text.mk cA 1 "kitten" 4 10 oA dA mA; Code_text.mk cB 1 "The" 16 19 oB dB mB]
       [Annotation.mk anid 1 16 19 n_memo n_owner n_date]
       [Case_text.mk k_id k_case 1 16 19 k_owner k_date k_memo])
  /\ Forall (fun r => seltext r = Py.slice new_text (pos0 r) (pos1 r))
            (Db.code_text (conn (snd result))).
Proof.
  intros new_text result.
  assert (E : result
              = (Return tt,
                 text_file new_text
                   [Code_text.mk cA 1 "kitten" 4 10 oA dA mA;
                    Code_text.mk cB 1 "The" 16 19 oB dB mB]
                   [Annotation.mk anid 1 16 19 n_memo n_owner n_date]
                   [Case_text.mk k_id k_case 1 16 19 k_owner k_date k_memo])).
  { unfold result. rewrite replace_4_7; [reflexivity | cbv; discriminate | reflexivity]. }
  split; [exact E|]. rewrite E. repeat constructor.
Qed.

End Edits.

From Stdlib Require Import Sorting.Sorted Sorting.Permutation.

(** * Further properties of the methods *)

(** ** Unmarking, marking and reloading *)

Section MarkUnmark.
Import CodeText.

(** Two coders have coded file 1; coder A unmarks at offset 5. *)
Definition two_coders : state :=
  let mine := Code_text.mk 1 1 "cat" 4 7 "A" "2020-01-01" "" in
  let theirs := Code_text.mk 1 1 "cat" 4 7 "B" "2020-01-01" "" in
  CodeText.mk
    (Db.mk [Source.mk 1 "doc" (Some cat_text) None "" "A" "2020-01-01"] [mine; theirs] [] [])
    "A" [(1, "doc")] (File 1 "doc") cat_text [mine] [] [].

Example unmark_two_coders :
  Db.code_text (conn (snd (unmark 5 None two_coders)))
  = [Code_text.mk 1 1 "cat" 4 7 "B" "2020-01-01" ""].
Proof. reflexivity. Qed.

(** X1: [unmark] adds no row to [code_text], keeps every stored row of
    another coder (also one with the same code, file and offsets as the row
    it deletes), and leaves the other tables as they were. *)
Theorem unmark_keeps_rows_of_others s location select :
  let s' := snd (unmark location select s) in
  (forall r, In r (Db.code_text (conn s')) -> In r (Db.code_text (conn s)))
  /\ (forall r, In r (Db.code_text (conn s)) -> owner r <> codername s ->
                In r (Db.code_text (conn s')))
  /\ Db.annotation (conn s') = Db.annotation (conn s)
  /\ Db.case_text (conn s') = Db.case_text (conn s)
  /\ Db.source (conn s') = Db.source (conn s).
Proof.
  cbv zeta. destruct (unmark_only_own s location select) as (keep & -> & Hk & Ha & Hc & Hs).
  repeat split; try assumption.
  - intros r Hr. now apply filter_In in Hr.
  - intros r Hr Ho. apply filter_In. split; [exact Hr|].
    destruct (keep r) eqn:K; [reflexivity|]. now apply Hk in K.
Qed.



(** X3: after the reload, [self.code_text] holds exactly the stored spans of
    the open file and the current coder, each as often as it is stored,
    with the longest selected text first. *)
Theorem reload_lists_own_spans_longest_first s id fname :
  filename s = File id fname ->
  let s' := snd (get_coded_text_update_eventfilter_tooltips s) in
  Permutation (code_text s')
              (filter (fun r => (fid r =? id) && String.eqb (owner r) (codername s))
                      (Db.code_text (conn s)))
  /\ (forall r, In r (code_text s')
                <-> In r (Db.code_text (conn s)) /\ fid r = id /\ owner r = codername s)
  /\ StronglySorted (fun a b => Py.len (seltext b) <= Py.len (seltext a)) (code_text s')
  /\ conn s' = conn s.
Proof.
  intros Hf. cbv zeta.
  unfold get_coded_text_update_eventfilter_tooltips, bind, get, filename_id, modify.
  cbn beta iota. repeat (rewrite Hf; cbn beta iota). cbn [snd code_text with_code_text conn].
  set (l := filter _ _).
  assert (P : Permutation (Sql.order_by_length_desc l) l).
  { unfold Sql.order_by_length_desc. induction l as [|h t IH]; cbn [fold_right]; [constructor|].
    transitivity (h :: fold_right Sql.insert_by_length [] t); [|now constructor].
    generalize (fold_right Sql.insert_by_length [] t). clear.
    induction l as [|a l IH]; cbn [Sql.insert_by_length]; [reflexivity|].
    destruct (_ <? _); [|reflexivity].
    rewrite IH. apply perm_swap. }
  split; [exact P|]. split; [|split; [|reflexivity]].
  - intros r. rewrite In_order_by_length_desc. unfold l. rewrite filter_In.
    rewrite andb_true_iff, Z.eqb_eq, String.eqb_eq. tauto.
  - unfold Sql.order_by_length_desc. clear P.
    induction l as [|h t IH]; cbn [fold_right]; [constructor|].
    revert IH. generalize (fold_right Sql.insert_by_length [] t). clear.
    induction l as [|a l IH]; cbn [Sql.insert_by_length]; intros S.
    + repeat constructor.
    + destruct (Z.ltb_spec (Py.len (seltext h)) (Py.len (seltext a))).
      * inversion S as [|? ? S' F]; subst. constructor; [now apply IH|].
        rewrite Forall_forall. intros x Hx. apply In_insert_by_length in Hx as [->|Hx]; [lia|].
        rewrite Forall_forall in F. now apply F.
      * constructor; [exact S|]. constructor; [exact H|].
        inversion S as [|? ? S' F]; subst. rewrite Forall_forall in *.
        intros x Hx. specialize (F x Hx). lia.
Qed.

Lemma reload_lists_own_spans_longest_first_witness :
  code_text (snd (get_coded_text_update_eventfilter_tooltips two_coders))
  = [Code_text.mk 1 1 "cat" 4 7 "A" "2020-01-01" ""].
Proof.
  destruct (reload_lists_own_spans_longest_first two_coders 1 "doc" eq_refl) as (_ & _ & _ & _).
  reflexivity.
Defined.

End MarkUnmark.

(** ** Spans that do not intersect *)

Section SeparateSpans.
Import CodeText.

(** X4: two spans with a gap between them give no entry; two spans that touch
    (one ends where the other starts) give one entry of no width. *)
Theorem overlaps_of_separate_spans (i j : row) :
  i <> j -> pos0 i < pos1 i -> pos0 j < pos1 j ->
  (pos1 j < pos0 i ->
   apply_overline_to_overlaps [i; j] = [] /\ apply_overline_to_overlaps [j; i] = [])
  /\ (pos1 j = pos0 i ->
      apply_overline_to_overlaps [i; j] = [(pos0 i, pos0 i)]
      /\ apply_overline_to_overlaps [j; i] = [(pos0 i, pos0 i)]).
Proof.
  intros Hne Wi Wj.
  assert (E : forall a b, apply_overline_to_overlaps [a; b] = visit a b ++ visit b a).
  { intros a b. rewrite overlaps_are_visits. cbn [flat_map].
    now rewrite !visit_self, !app_nil_r. }
  rewrite !E. unfold visit, overlap_step, eqb.
  destruct (eq_dec j i) as [?|_]; [congruence|].
  destruct (eq_dec i j) as [?|_]; [congruence|].
  clear Hne E. cbn [negb].
  destruct i as [ci fi ti i0 i1 oi di mi], j as [cj fj tj j0 j1 oj dj mj].
  cbn [pos0 pos1] in *.
  split; intros H; split; zcases; cbn [app]; try lia; try reflexivity;
    repeat f_equal; lia.
Qed.

Lemma overlaps_of_separate_spans_witness :
  apply_overline_to_overlaps
    [Code_text.mk 1 1 "" 10 12 "A" "" ""; Code_text.mk 2 1 "" 0 10 "A" "" ""]
  = [(10, 10)].
Proof.
  destruct (overlaps_of_separate_spans
              (Code_text.mk 1 1 "" 10 12 "A" "" "") (Code_text.mk 2 1 "" 0 10 "A" "" ""))
    as (_ & T); [discriminate | cbn; lia | cbn; lia |].
  apply T. reflexivity.
Defined.

End SeparateSpans.

(** ** Resizing rewrites the coder's own rows in place *)

Section ResizeInPlace.
Import CodeText.

(** The table after is the table before with some rows of the current
    coder moved: no row is added or dropped, a row of another coder is left
    as it is, and a moved row keeps its code, file, selected text, coder, date
    and memo.  The other tables are not written. *)
Definition moved_in_place (s s' : state) : Prop :=
  (exists g : row -> row,
      Db.code_text (conn s') = map g (Db.code_text (conn s))
      /\ forall r, (owner r <> codername s -> g r = r)
                   /\ exists p0 p1, g r = set_pos p0 p1 r)
  /\ Db.source (conn s') = Db.source (conn s)
  /\ Db.annotation (conn s') = Db.annotation (conn s)
  /\ Db.case_text (conn s') = Db.case_text (conn s).

Lemma set_pos_same (r : row) : set_pos (pos0 r) (pos1 r) r = r.
Proof. now destruct r. Qed.

Lemma moved_in_place_refl s s' : conn s' = conn s -> moved_in_place s s'.
Proof.
  intros E. unfold moved_in_place. rewrite E. split; [|now repeat split].
  exists (fun r => r). split; [now rewrite map_id|].
  intros r. split; [reflexivity|]. exists (pos0 r), (pos1 r). now rewrite set_pos_same.
Qed.

(** One update of positions guarded by [where_code] with the coder's name. *)
Lemma moved_in_place_update s s1 s' c f p0 p1 (set : row -> row) :
  conn s1 = conn s ->
  (forall r, exists q0 q1, set r = set_pos q0 q1 r) ->
  conn s' = conn s1
  \/ conn s' = Db.with_code_text
                 (map (fun r => if where_code c f p0 p1 (codername s) r then set r else r)
                      (Db.code_text (conn s1)))
                 (conn s1) ->
  moved_in_place s s'.
Proof.
  intros E1 Hset [E|E].
  - apply moved_in_place_refl. congruence.
  - unfold moved_in_place. rewrite E, E1. split; [|now repeat split].
    eexists. split; [reflexivity|]. intros r. split.
    + intros Ho. destruct (where_code c f p0 p1 (codername s) r) eqn:W; [|reflexivity].
      apply where_code_key in W. inversion W. congruence.
    + destruct (where_code c f p0 p1 (codername s) r); [apply Hset|].
      exists (pos0 r), (pos1 r). now rewrite set_pos_same.
Qed.

Lemma key_handler_conn guard change (where_ : state -> row -> row -> bool) set k s :
  exists u : option row,
    conn (snd (key_handler guard change where_ set k s))
    = match u with
      | None => conn s
      | Some c =>
          Db.with_code_text
            (map (fun r => if where_ s c r then set c r else r) (Db.code_text (conn s)))
            (conn s)
      end.
Proof.
  unfold key_handler, bind, get.
  destruct (nth_error (code_text s) k) as [c|]; cbn [ret snd]; [|now exists None].
  destruct (guard s c); cbn [ret snd]; [now exists None|].
  unfold modify at 1. cbn [fst snd].
  unfold execute, Sql.update_code_text.
  destruct (Sql.unique_keys _); cbn [snd].
  - match goal with |- context [get_coded_text_update_eventfilter_tooltips ?s2] =>
      destruct (reload_codings s2) as (l & -> & _) end.
    exists (Some (change c)). reflexivity.
  - now exists None.
Qed.

Lemma change_code_pos_conn location start_or_end select getInt s :
  exists u : option (row * Z * Z),
    conn (snd (change_code_pos location start_or_end select getInt s))
    = match u with
      | None => conn s
      | Some (c, q0, q1) =>
          Db.with_code_text
            (map (fun r => if where_code (cid c) (fid c) (pos0 c) (pos1 c) (codername s) r
                           then set_pos q0 q1 r else r)
                 (Db.code_text (conn s)))
            (conn s)
      end.
Proof.
  unfold change_code_pos, bind, get.
  destruct (filename s); cbn [ret snd]; try (now exists None);
    (destruct (filter (here s location) (code_text s)) as [|c0 l0]; cbn [ret snd];
     [now exists None|];
     destruct (choose (c0 :: l0) select) as [c|]; cbn [ret snd]; [|now exists None];
     destruct (if String.eqb start_or_end "start" then getInt else Some 0)
       as [changed_start|]; cbn [ret snd]; [|now exists None];
     destruct (if String.eqb start_or_end "end" then getInt else Some 0)
       as [changed_end|]; cbn [ret snd]; [|now exists None];
     destruct ((changed_start =? 0) && (changed_end =? 0)); cbn [ret snd];
     [now exists None|];
     unfold execute, Sql.update_code_text;
     destruct (Sql.unique_keys _); cbn [snd]; [|now exists None];
     match goal with |- context [get_coded_text_update_eventfilter_tooltips ?s2] =>
       destruct (reload_codings s2) as (l & -> & _) end;
     exists (Some (c, pos0 c + changed_start, pos1 c + changed_end)); reflexivity).
Qed.

(** X5: the four key handlers and [change_code_pos] move rows of the current
    coder in place and write nothing else. *)
Theorem resize_moves_own_rows_in_place (s : state) :
  (forall k,
      moved_in_place s (snd (extend_left k s))
      /\ moved_in_place s (snd (extend_right k s))
      /\ moved_in_place s (snd (shrink_to_left k s))
      /\ moved_in_place s (snd (shrink_to_right k s)))
  /\ (forall location start_or_end select getInt,
         moved_in_place s (snd (change_code_pos location start_or_end select getInt s))).
Proof.
  assert (H : forall guard change c0 f0 q0 q1 set k,
             (forall c r, exists p0 p1, set c r = set_pos p0 p1 r) ->
             moved_in_place s
               (snd (key_handler guard change
                       (fun s c => where_code (c0 c) (f0 c) (q0 c) (q1 c) (codername s))
                       set k s))).
  { intros guard change c0 f0 q0 q1 set k Hset.
    destruct (key_handler_conn guard change
                (fun s c => where_code (c0 c) (f0 c) (q0 c) (q1 c) (codername s)) set k s)
      as ([c|] & E).
    - apply (moved_in_place_update s s _ (c0 c) (f0 c) (q0 c) (q1 c) (set c));
        [reflexivity | apply Hset | now right].
    - now apply moved_in_place_refl. }
  split.
  - intros k. rewrite extend_left_handler, extend_right_handler, shrink_to_left_handler,
      shrink_to_right_handler.
    repeat split; apply H; intros c r; eauto.
  - intros location start_or_end select getInt.
    destruct (change_code_pos_conn location start_or_end select getInt s)
      as ([[[c q0] q1]|] & E).
    + apply (moved_in_place_update s s _ (cid c) (fid c) (pos0 c) (pos1 c) (set_pos q0 q1));
        [reflexivity | intros r; eauto | now right].
    + now apply moved_in_place_refl.
Qed.

(** Coder A shrinks the own span [4,7); the equal span of coder B stays. *)
Example shrink_leaves_other_coder :
  Db.code_text (conn (snd (shrink_to_left 0 two_coders)))
  = [Code_text.mk 1 1 "cat" 4 6 "A" "2020-01-01" "";
     Code_text.mk 1 1 "cat" 4 7 "B" "2020-01-01" ""].
Proof. reflexivity. Qed.

(** X6: [change_code_pos], with a dialog that returns a number within its
    bounds, keeps a span that lies in the text inside the text: the start
    stays at 0 or later and the end at the length of the text or before. *)
Theorem change_code_pos_stays_in_text s location start_or_end select getInt r' :
  (forall c v,
      choose (filter (here s location) (code_text s)) select = Some c ->
      getInt = Some v ->
      (start_or_end = "start" -> start_min c <= v <= start_max c)
      /\ (start_or_end = "end" -> end_min c <= v <= end_max (Py.len (textEdit s)) c)) ->
  (forall c, choose (filter (here s location) (code_text s)) select = Some c ->
             0 <= pos0 c /\ pos1 c <= Py.len (textEdit s)) ->
  In r' (codings (snd (change_code_pos location start_or_end select getInt s))) ->
  In r' (codings s) \/ (0 <= pos0 r' /\ pos1 r' <= Py.len (textEdit s)).
Proof.
  intros Hdialog Hin Hr'.
  apply change_code_pos_codings in Hr'
    as [I|(c & cs & ce & r & Hc & Hs & He & Hr & W & ->)]; [now left|right].
  destruct (Hin c Hc) as [I0 I1].
  cbn [pos0 pos1 set_pos]. unfold start_min, start_max, end_min, end_max in Hdialog.
  destruct (String.eqb_spec start_or_end "start") as [Es|Ns].
  - subst start_or_end. cbn in He. injection He as <-.
    destruct (Hdialog c cs Hc Hs) as [B _]. specialize (B eq_refl). lia.
  - injection Hs as <-.
    destruct (String.eqb_spec start_or_end "end") as [Ee|Ne].
    + destruct (Hdialog c ce Hc He) as [_ B]. specialize (B Ee). lia.
    + injection He as <-. lia.
Qed.

(** The span [5,10) of the text of 25 characters, its end moved by 15. *)
Lemma change_code_pos_stays_in_text_witness :
  In (Code_text.mk 1 1 "at sa" 5 25 "A" "2020-01-01" "")
     (codings (snd (change_code_pos 5 "end" None (Some 15) (cat_file [span_5_10]))))
  /\ (In (Code_text.mk 1 1 "at sa" 5 25 "A" "2020-01-01" "") (codings (cat_file [span_5_10]))
      \/ 0 <= 5 /\ 25 <= Py.len (textEdit (cat_file [span_5_10]))).
Proof.
  assert (I : In (Code_text.mk 1 1 "at sa" 5 25 "A" "2020-01-01" "")
                 (codings (snd (change_code_pos 5 "end" None (Some 15)
                                                (cat_file [span_5_10])))))
    by (cbn; tauto).
  split; [exact I|].
  apply (change_code_pos_stays_in_text (cat_file [span_5_10]) 5 "end" None (Some 15)).
  - intros c v Hc Hv. injection Hc as <-. injection Hv as <-.
    split; [discriminate|]. intros _. cbv. split; discriminate.
  - intros c Hc. injection Hc as <-. cbv. split; discriminate.
  - exact I.
Defined.

End ResizeInPlace.

(** ** Annotations: what [annotate] writes *)

Section Annotate.
Import CodeText.

Lemma find_last_sound {A} (p : A -> bool) (l : list A) :
  forall i found k h,
    find_last p l i found = Some (k, h) -> p h = true \/ found = Some (k, h).
Proof.
  induction l as [|x l IH]; intros i found k h H; cbn in H; [now right|].
  apply IH in H as [H|H]; [now left|].
  destruct (p x) eqn:Px; [|now right].
  injection H as _ <-. now left.
Qed.



End Annotate.

(** ** Annotations: the loaded list holds the coder's own notes *)

Section OwnNotes.
Import CodeText.

Definition own_notes (s : state) : Prop :=
  Forall (fun n => Annotation.owner n = codername s) (annotations s).

Lemma Forall_set_nth {A} (P : A -> Prop) (l : list A) k v :
  Forall P l -> P v -> Forall P (Py.set_nth l k v).
Proof.
  intros Hl Hv. apply Forall_forall. intros x Hx.
  apply In_set_nth in Hx as [->|Hx]; [exact Hv|].
  now apply (proj1 (Forall_forall P l) Hl).
Qed.

Lemma In_remove_first {A} (eqb : A -> A -> bool) x y (l : list A) :
  In y (Py.remove_first eqb x l) -> In y l.
Proof.
  induction l as [|h t IH]; cbn; [easy|].
  destruct (eqb h x); cbn; [tauto|]. intros [->|H]; [now left|right; now apply IH].
Qed.

Lemma In_remove_while_iterating {A} (eqb : A -> A -> bool) cond y :
  forall fuel idx (l : list A),
    In y (Py.remove_while_iterating eqb cond fuel idx l) -> In y l.
Proof.
  induction fuel as [|fuel IH]; intros idx l; cbn; [easy|].
  destruct (nth_error l idx) as [note|]; [|easy].
  destruct (cond note); intros H; apply IH in H; [|exact H].
  now apply In_remove_first in H.
Qed.

Lemma Forall_remove_while_iterating {A} (P : A -> Prop) eqb cond fuel idx (l : list A) :
  Forall P l -> Forall P (Py.remove_while_iterating eqb cond fuel idx l).
Proof.
  intros Hl. apply Forall_forall. intros x Hx.
  apply In_remove_while_iterating in Hx.
  now apply (proj1 (Forall_forall P l) Hl).
Qed.

Lemma find_last_In {A} (p : A -> bool) (l : list A) :
  forall i found k h,
    find_last p l i found = Some (k, h) -> In h l \/ found = Some (k, h).
Proof.
  induction l as [|x l IH]; intros i found k h H; cbn in H; [now right|].
  apply IH in H as [H|H]; [left; now right|].
  destruct (p x); [|now right].
  injection H as _ <-. left. now left.
Qed.

Lemma annotate_own_notes location p0 p1 ui_memo now s :
  own_notes s ->
  own_notes (snd (annotate location p0 p1 ui_memo now s))
  /\ codername (snd (annotate location p0 p1 ui_memo now s)) = codername s.
Proof.
  unfold own_notes. intros Own.
  unfold annotate, bind, get.
  destruct (filename s) as [| |file_id file_name]; try (cbn; now split).
  destruct ((p0 >=? Py.len (textEdit s)) || (p1 >=? Py.len (textEdit s)));
    [cbn; now split|].
  destruct (find_last _ (annotations s) 0%nat None) as [[k note]|] eqn:Found.
  - rewrite andb_false_r.
    apply find_last_In in Found as [I|I]; [|discriminate].
    assert (On : Annotation.owner note = codername s)
      by now apply (proj1 (Forall_forall _ _) Own).
    destruct note as [a f q0 q1 m o d]. cbn in On. subst o.
    destruct (String.eqb_spec ui_memo "") as [E|N].
    + subst ui_memo. cbn. split; [|reflexivity].
      apply Forall_remove_while_iterating.
      repeat apply Forall_set_nth; solve [exact Own | reflexivity].
    + cbn. destruct (String.eqb_spec ui_memo "") as [E|_]; [contradiction|]. cbn.
      split; [|reflexivity].
      apply Forall_app. split; [|now constructor].
      repeat apply Forall_set_nth; solve [exact Own | reflexivity].
  - destruct (p0 =? p1); cbn [andb]; [cbn; now split|].
    destruct (String.eqb_spec ui_memo "") as [E|N].
    + subst ui_memo. cbn. split; [|reflexivity].
      now apply Forall_remove_while_iterating.
    + cbn. destruct (String.eqb_spec ui_memo "") as [E|_]; [contradiction|]. cbn.
      split; [|reflexivity].
      apply Forall_app. split; [exact Own|]. now constructor.
Qed.

(** One call of [annotate]: position, selection, memo of the dialog, date. *)
Definition annotate_call (s : state) (c : Z * Z * Z * string * string) : state :=
  let '(location, p0, p1, ui_memo, now) := c in
  snd (annotate location p0 p1 ui_memo now s).

(** X8: the list that the dialog loads with [get_annotations] holds notes of
    the current coder only, and stays so under any sequence of [annotate]
    calls; the coder with them is the coder of the list.  (The [delete]
    statement of [annotate] is not restricted to this list.) *)
Theorem annotations_stay_own (s : state) (calls : list (Z * Z * Z * string * string)) :
  annotations s = App.get_annotations (conn s) (codername s) ->
  own_notes (fold_left annotate_call calls s).
Proof.
  intros Load.
  assert (Own : own_notes s).
  { unfold own_notes. rewrite Load. apply Forall_forall. intros n Hn.
    apply filter_In in Hn as [_ Hn]. now apply String.eqb_eq in Hn. }
  clear Load. revert s Own.
  induction calls as [|[[[[location p0] p1] ui_memo] now] calls IH]; intros s Own;
    [exact Own|].
  cbn [fold_left annotate_call]. apply IH.
  now apply annotate_own_notes.
Qed.

Lemma annotations_stay_own_witness :
  own_notes (fold_left annotate_call
                       [(5, 4, 7, "seen", "2020-02-02"); (5, 4, 7, "", "2020-02-03")]
                       annotated_file).
Proof.
  apply annotations_stay_own. reflexivity.
Defined.

End OwnNotes.

(** ** Restricted edits: what the viewer's menu reads and writes *)

Section EditFrame.
Import ManageFiles.

Lemma with_shown_same (s : state) : with_shown (shown s) s = s.
Proof. now destruct s. Qed.

(** [crossover_check] changes the message boxes only. *)
Lemma crossover_check_state x c s :
  exists o sh, crossover_check x c s = (o, with_shown sh s).
Proof.
  unfold crossover_check, bind, source_at, get.
  destruct (Py.index (source s) x) as [r|].
  - destruct (map _ (filter _ (Db.code_text (conn s)))) as [|p l].
    + destruct (map _ (filter _ (Db.annotation (conn s)))) as [|q l'].
      * eexists _, (shown s). cbn. now rewrite with_shown_same.
      * eexists _, _. reflexivity.
    + eexists _, _. reflexivity.
  - eexists _, (shown s). now rewrite with_shown_same.
Qed.

(** X9: [crossover_check] raises [IndexError] for a row that is not loaded.
    Otherwise it returns, changing nothing but the message boxes: the flag is
    set exactly when a coded span or an annotation of the file crosses the
    selection, one warning is shown exactly then, and every section it
    returns contains the selection. *)
Theorem crossover_check_reads_only x c s :
  match Py.index (source s) x with
  | None => crossover_check x c s = (Raise IndexError, s)
  | Some r =>
      exists resp,
        crossover_check x c s
        = (Return resp,
           if crossover resp
           then with_shown (shown s ++ [crossover_warning (conn s) (Source.id r) c]) s
           else s)
        /\ (crossover resp = true
            <-> code_crossover (conn s) (Source.id r) c <> []
                \/ annote_crossover (conn s) (Source.id r) c <> [])
        /\ Forall (fun p => fst p <= selectionStart c /\ selectionEnd c <= snd p)
                  (coded_section resp)
        /\ Forall (fun p => fst p <= selectionStart c /\ selectionEnd c <= snd p)
                  (annoted_section resp)
        /\ Forall (fun p => fst (fst p) <= selectionStart c
                            /\ selectionEnd c <= snd (fst p))
                  (cased_section resp)
  end.
Proof.
  assert (W : forall a b p0 p1, within a b p0 p1 = true -> p0 <= a /\ b <= p1).
  { intros a b p0 p1 H. unfold within in H. apply andb_prop in H as [H1 H2].
    rewrite Z.geb_leb in H1. apply Z.leb_le in H1, H2. lia. }
  destruct (Py.index (source s) x) as [r|] eqn:Hx.
  - unfold crossover_check, bind, source_at, get. rewrite Hx.
    unfold crossover_warning.
    fold (code_crossover (conn s) (Source.id r) c).
    fold (annote_crossover (conn s) (Source.id r) c).
    assert (Coded : Forall (fun p => fst p <= selectionStart c /\ selectionEnd c <= snd p)
                      (map (fun r0 => (pos0 r0, pos1 r0))
                           (filter (fun r0 => (fid r0 =? Source.id r)
                                              && within (selectionStart c) (selectionEnd c)
                                                        (pos0 r0) (pos1 r0))
                                   (Db.code_text (conn s))))).
    { apply Forall_forall. intros p Hp. apply in_map_iff in Hp as (r0 & <- & Hr0).
      apply filter_In in Hr0 as [_ Hr0]. apply andb_prop in Hr0 as [_ Hr0].
      now apply W. }
    destruct (code_crossover (conn s) (Source.id r) c) as [|p l] eqn:Ec.
    + destruct (annote_crossover (conn s) (Source.id r) c) as [|q l'] eqn:Ea.
      * eexists (mkresponse false _ _ _). split; [reflexivity|].
        cbn [crossover coded_section annoted_section cased_section].
        split; [split; [discriminate | intros [H|H]; contradiction]|].
        split; [exact Coded|]. split.
        -- apply Forall_forall. intros p Hp. apply in_map_iff in Hp as (r0 & <- & Hr0).
           apply filter_In in Hr0 as [_ Hr0]. apply andb_prop in Hr0 as [_ Hr0].
           now apply W.
        -- apply Forall_forall. intros p Hp. apply in_map_iff in Hp as (r0 & <- & Hr0).
           apply filter_In in Hr0 as [_ Hr0]. apply andb_prop in Hr0 as [_ Hr0].
           now apply W.
      * eexists (mkresponse true _ _ _). split; [reflexivity|].
        cbn [crossover coded_section annoted_section cased_section].
        split; [split; [intros _; right; discriminate | reflexivity]|].
        split; [exact Coded|]. split; constructor.
    + eexists (mkresponse true _ _ _). split; [reflexivity|].
      cbn [crossover coded_section annoted_section cased_section].
      split; [split; [intros _; left; discriminate | reflexivity]|].
      repeat split; constructor.
  - unfold crossover_check, bind, source_at. now rewrite Hx.
Qed.

(** *** Rows of other files *)

(** A row after an edit of the file [id], against the row before: the
    primary key and the file are kept, and a row of another file is kept
    whole. *)
Definition source_kept (id : Z) (r r' : Source.row) : Prop :=
  Source.id r' = Source.id r /\ (Source.id r <> id -> r' = r).
Definition code_text_kept (id : Z) (r r' : row) : Prop :=
  fid r' = fid r /\ cid r' = cid r /\ owner r' = owner r /\ (fid r <> id -> r' = r).
Definition annotation_kept (id : Z) (r r' : Annotation.row) : Prop :=
  Annotation.anid r' = Annotation.anid r /\ Annotation.fid r' = Annotation.fid r
  /\ Annotation.memo r' = Annotation.memo r
  /\ (Annotation.fid r <> id -> r' = r).
Definition case_text_kept (id : Z) (r r' : Case_text.row) : Prop :=
  Case_text.id r' = Case_text.id r /\ Case_text.fid r' = Case_text.fid r
  /\ Case_text.caseid r' = Case_text.caseid r
  /\ (Case_text.fid r <> id -> r' = r).

(** The tables row by row: no row is added, dropped or moved. *)
Definition edits_only_file (id : Z) (db db' : Db.database) : Prop :=
  Forall2 (source_kept id) (Db.source db) (Db.source db')
  /\ Forall2 (code_text_kept id) (Db.code_text db) (Db.code_text db')
  /\ Forall2 (annotation_kept id) (Db.annotation db) (Db.annotation db')
  /\ Forall2 (case_text_kept id) (Db.case_text db) (Db.case_text db').

Lemma Forall2_same {A} (R : A -> A -> Prop) (l : list A) :
  (forall r, R r r) -> Forall2 R l l.
Proof. intros H. induction l; constructor; auto. Qed.

Lemma Forall2_map_step {A} (R : A -> A -> Prop) (h : A -> A) (t t' : list A) :
  Forall2 R t t' ->
  (forall r r', In r t -> R r r' -> R r (h r')) ->
  Forall2 R t (map h t').
Proof.
  induction 1 as [|r r' t t' Hr Ht IH]; intros Hh; cbn [map]; constructor.
  - apply Hh; [now left | exact Hr].
  - apply IH. intros a a' Ha. apply Hh. now right.
Qed.

Lemma Forall2_In_r {A} (R : A -> A -> Prop) (l l' : list A) b :
  Forall2 R l l' -> In b l' -> exists a, In a l /\ R a b.
Proof.
  induction 1 as [|x y l l' Hxy Hl IH]; cbn [In]; [easy|].
  intros [->|H]; [exists x; auto|].
  destruct (IH H) as (a & Ha & Rab). exists a. auto.
Qed.

Lemma NoDup_map_eq {A B} (f : A -> B) (l : list A) a b :
  NoDup (map f l) -> In a l -> In b l -> f a = f b -> a = b.
Proof.
  induction l as [|h t IH]; cbn [map]; intros Hn Ha Hb E; [easy|].
  inversion Hn as [|? ? Hnot Hn']; subst.
  destruct Ha as [->|Ha], Hb as [->|Hb]; try reflexivity.
  - exfalso. apply Hnot. rewrite E. now apply in_map.
  - exfalso. apply Hnot. rewrite <- E. now apply in_map.
  - now apply IH.
Qed.

Lemma edits_only_file_refl id db : edits_only_file id db db.
Proof.
  repeat split; apply Forall2_same; intros r; now repeat split.
Qed.

Section OneFile.
Variable id : Z.
Variable db0 : Db.database.
Hypothesis anids : NoDup (map Annotation.anid (Db.annotation db0)).
Hypothesis ids : NoDup (map Case_text.id (Db.case_text db0)).

Definition kept (s : state) : Prop := edits_only_file id db0 (conn s).

Lemma bind_kept {A B} (m : M state A) (k : A -> M state B) s :
  kept (snd (m s)) ->
  (forall a s', kept s' -> kept (snd (k a s'))) ->
  kept (snd (bind m k s)).
Proof.
  intros Hm Hk. unfold bind. destruct (m s) as [[a|e] s']; cbn [snd] in *; auto.
Qed.

Lemma for_each_kept {A} (l : list A) (body : A -> M state unit) :
  (forall a s, In a l -> kept s -> kept (snd (body a s))) ->
  forall s, kept s -> kept (snd (for_each l body s)).
Proof.
  induction l as [|a l IH]; intros Hb s Hs; cbn [for_each]; [exact Hs|].
  apply bind_kept.
  - apply Hb; [now left | exact Hs].
  - intros _ s' Hs'. apply IH; [|exact Hs']. intros b s2 Hin. apply Hb. now right.
Qed.

Lemma update_source_kept fulltext s :
  kept s ->
  kept (snd (execute_ok (Sql.update_source (fun r => Source.id r =? id)
                                           (Source.set_fulltext fulltext)) s)).
Proof.
  intros (Hs & Hc & Ha & Hk). repeat split; cbn; auto.
  apply Forall2_map_step; [exact Hs|].
  intros r r' _ [E K]. destruct (Z.eqb_spec (Source.id r') id) as [E'|N].
  - split; [exact E|]. intros N. congruence.
  - now split.
Qed.

Lemma update_case_text_kept where_ p0 p1 s :
  (forall r r', In r (Db.case_text db0) -> case_text_kept id r r' ->
                where_ r' = true -> Case_text.fid r = id) ->
  kept s ->
  kept (snd (execute_ok
               (Sql.update_case_text where_
                  (fun r => Case_text.set_pos (p0 r) (p1 r) r)) s)).
Proof.
  intros Hw (Hs & Hc & Ha & Hk). repeat split; cbn; auto.
  apply Forall2_map_step; [exact Hk|].
  intros r r' Hin K. destruct (where_ r') eqn:W; [|exact K].
  specialize (Hw r r' Hin K W). destruct K as (E1 & E2 & E3 & K).
  repeat split; cbn; auto. intros N. contradiction.
Qed.

Lemma update_annotation_kept where_ p0 p1 s :
  (forall r r', In r (Db.annotation db0) -> annotation_kept id r r' ->
                where_ r' = true -> Annotation.fid r = id) ->
  kept s ->
  kept (snd (execute_ok
               (Sql.update_annotation where_
                  (fun r => Annotation.set_pos (p0 r) (p1 r) r)) s)).
Proof.
  intros Hw (Hs & Hc & Ha & Hk). repeat split; cbn; auto.
  apply Forall2_map_step; [exact Ha|].
  intros r r' Hin K. destruct (where_ r') eqn:W; [|exact K].
  specialize (Hw r r' Hin K W). destruct K as (E1 & E2 & E3 & K).
  repeat split; cbn; auto. intros N. contradiction.
Qed.

Lemma update_code_text_kept where_ set s :
  (forall r', where_ r' = true -> fid r' = id) ->
  (forall r', fid (set r') = fid r' /\ cid (set r') = cid r' /\ owner (set r') = owner r') ->
  kept s ->
  kept (snd (execute (Sql.update_code_text where_ set) s)).
Proof.
  intros Hw Hset (Hs & Hc & Ha & Hk).
  unfold execute, Sql.update_code_text.
  destruct (Sql.unique_keys _); cbn [snd]; [|now repeat split].
  repeat split; cbn; auto.
  apply Forall2_map_step; [exact Hc|].
  intros r r' Hin K. destruct (where_ r') eqn:W; [|exact K].
  specialize (Hw r' W). destruct K as (E1 & E2 & E3 & K).
  destruct (Hset r') as (S1 & S2 & S3).
  repeat split; solve [congruence | intros N; congruence].
Qed.

Lemma crossover_check_kept x c s : kept s -> kept (snd (crossover_check x c s)).
Proof.
  intros H. destruct (crossover_check_state x c s) as (o & sh & ->). exact H.
Qed.

Lemma restricted_edit_text_kept x c edit_dialog s r :
  conn s = db0 ->
  Py.index (source s) x = Some r -> Source.id r = id ->
  kept (snd (restricted_edit_text x c edit_dialog s)).
Proof.
  intros Hdb Hx Hid.
  assert (K0 : kept s) by (unfold kept; rewrite Hdb; apply edits_only_file_refl).
  unfold restricted_edit_text. unfold bind at 1, get at 1.
  destruct (Py.len (selectedText s c) >? 20); [exact K0|].
  destruct edit_dialog as [new_text|]; [|exact K0].
  unfold bind at 1, source_at at 1. rewrite Hx.
  destruct (Source.fulltext r) as [old|]; [|exact K0].
  rewrite Hid.
  unfold bind at 1, modify at 1.
  apply bind_kept.
  { apply update_source_kept. exact K0. }
  intros _ s1 K1.
  destruct (Py.len new_text - Py.len (selectedText s c) =? 0); [exact K1|].
  unfold bind at 1, get at 1.
  pose proof K1 as (_ & _ & Ha1 & Hk1).
  apply bind_kept.
  { apply for_each_kept; [|exact K1]. intros i s2 Hi K2.
    apply (update_case_text_kept _ (fun _ => _) (fun _ => _)); [|exact K2].
    intros r0 r' Hin (E1 & E2 & _) W. apply Z.eqb_eq in W.
    apply filter_In in Hi as [Hi Fi]. apply andb_prop in Fi as [Fi _].
    apply Z.eqb_eq in Fi.
    (* [i] is a row of the table after the update of [source]. *)
    destruct (Forall2_In_r _ _ _ _ Hk1 Hi) as (i0 & Hi0 & (F1 & F2 & _)).
    assert (r0 = i0) by (apply (NoDup_map_eq Case_text.id _ _ _ ids Hin Hi0); congruence).
    subst i0. congruence. }
  intros _ s2 K2.
  apply bind_kept.
  { apply for_each_kept; [|exact K2]. intros i s3 Hi K3.
    apply (update_annotation_kept _ (fun _ => _) (fun _ => _)); [|exact K3].
    intros r0 r' Hin (E1 & E2 & _) W. apply Z.eqb_eq in W.
    apply filter_In in Hi as [Hi Fi]. apply andb_prop in Fi as [Fi _].
    apply Z.eqb_eq in Fi.
    destruct (Forall2_In_r _ _ _ _ Ha1 Hi) as (i0 & Hi0 & (F1 & F2 & _)).
    assert (r0 = i0)
      by (apply (NoDup_map_eq Annotation.anid _ _ _ anids Hin Hi0); congruence).
    subst i0. congruence. }
  intros _ s3 K3.
  apply bind_kept.
  { apply for_each_kept; [|exact K3]. intros i s4 Hi K4.
    apply update_code_text_kept; [| |exact K4].
    - intros r' W. apply andb_prop in W as [W _]. apply andb_prop in W as [W _].
      now apply Z.eqb_eq in W.
    - intros r'. now repeat split. }
  intros _ s4 K4.
  apply bind_kept; [now apply crossover_check_kept|].
  intros crossovers s5 K5.
  apply bind_kept.
  { apply for_each_kept; [|exact K5]. intros i s6 Hi K6.
    apply update_code_text_kept; [| |exact K6].
    - intros r' W. apply andb_prop in W as [W _]. apply andb_prop in W as [W _].
      now apply Z.eqb_eq in W.
    - intros r'. now repeat split. }
  intros _ s6 K6.
  apply bind_kept.
  { apply for_each_kept; [|exact K6]. intros i s7 Hi K7.
    apply (update_annotation_kept _ (fun r => Annotation.pos0 r) (fun _ => _));
      [|exact K7].
    intros r0 r' Hin (E1 & E2 & _) W.
    apply andb_prop in W as [W _]. apply andb_prop in W as [W _].
    apply Z.eqb_eq in W. congruence. }
  intros _ s7 K7.
  apply for_each_kept; [|exact K7]. intros i s8 Hi K8.
  apply (update_case_text_kept _ (fun r => Case_text.pos0 r) (fun _ => _)); [|exact K8].
  intros r0 r' Hin (E1 & E2 & _) W.
  apply andb_prop in W as [W _]. apply andb_prop in W as [W _].
  apply Z.eqb_eq in W. congruence.
Qed.

End OneFile.

(** X10: a restricted edit of a loaded file writes rows of that file only.
    With the primary keys of [annotation] and [case_text] unique, every
    table has after the menu the rows it had before, in their places: a
    source row of another file, and a coded span, annotation or case link of
    another file, is unchanged; a row of the edited file keeps its primary
    key and its file (a coded span also its code and coder). *)
Theorem restricted_edit_touches_one_file x c action edit_dialog s r :
  Py.index (source s) x = Some r ->
  NoDup (map Annotation.anid (Db.annotation (conn s))) ->
  NoDup (map Case_text.id (Db.case_text (conn s))) ->
  edits_only_file (Source.id r) (conn s)
    (conn (snd (textEdit_restricted_menu x c action edit_dialog s))).
Proof.
  intros Hx anids ids.
  pose proof (edits_only_file_refl (Source.id r) (conn s)) as K0.
  unfold textEdit_restricted_menu. unfold bind at 1, get at 1.
  destruct (String.eqb (text_view s) ""); [exact K0|].
  destruct action as [[]|]; try exact K0.
  destruct ((Py.len (selectedText s c) >? 0) && (Py.len (selectedText s c) <? 21));
    [|exact K0].
  unfold bind at 1.
  destruct (crossover_check_state x c s) as (o & sh & ->).
  destruct o as [resp|e]; [|exact K0].
  destruct (crossover resp); [exact K0|].
  apply (bind_kept (Source.id r) (conn s)).
  - now apply (restricted_edit_text_kept (Source.id r) (conn s) anids ids x c edit_dialog
                 (with_shown sh s) r).
  - intros _ s' K. unfold bind, source_at.
    destruct (Py.index (source s') x) as [r'|]; [|exact K].
    destruct (Source.fulltext r'); exact K.
Qed.

End EditFrame.

Section EditWrites.
Import ManageFiles.

(** A text of 23 characters with a coded span on "cat", a note on "the"
    and a case link on "The". *)
Definition cat_on_mat : state :=
  text_file "The cat sat on the mat."
    [Code_text.mk 1 1 "cat" 4 7 "A" "2020-01-01" ""]
    [Annotation.mk 1 1 15 18 "which" "A" "2020-01-01"]
    [Case_text.mk 1 1 1 0 3 "A" "2020-01-01" ""].

Lemma restricted_edit_touches_one_file_witness :
  edits_only_file 1 (conn cat_on_mat)
    (conn (snd (textEdit_restricted_menu 0 (cursor 4 7) (Some action_item_edit)
                  (Some "kitten") cat_on_mat))).
Proof.
  apply (restricted_edit_touches_one_file 0 (cursor 4 7) (Some action_item_edit)
           (Some "kitten") cat_on_mat (the_source "The cat sat on the mat.")).
  - reflexivity.
  - cbn. repeat constructor. cbn. tauto.
  - cbn. repeat constructor. cbn. tauto.
Defined.

Lemma crossover_check_clear x c s resp s' r :
  Py.index (source s) x = Some r ->
  crossover_check x c s = (Return resp, s') ->
  crossover resp = false ->
  code_crossover (conn s) (Source.id r) c = []
  /\ annote_crossover (conn s) (Source.id r) c = [].
Proof.
  intros Hx. unfold crossover_check, bind, source_at, get. rewrite Hx.
  fold (code_crossover (conn s) (Source.id r) c).
  fold (annote_crossover (conn s) (Source.id r) c).
  destruct (code_crossover (conn s) (Source.id r) c) as [|p l].
  - destruct (annote_crossover (conn s) (Source.id r) c) as [|q l'].
    + now split.
    + cbn. intros E. injection E as <- _. discriminate.
  - cbn. intros E. injection E as <- _. discriminate.
Qed.

Lemma restricted_edit_text_no_write x c edit_dialog s r :
  Py.index (source s) x = Some r ->
  edit_dialog = None \/ Source.fulltext r = None ->
  exists o sh, restricted_edit_text x c edit_dialog s = (o, with_shown sh s).
Proof.
  intros Hx H. unfold restricted_edit_text, bind, get.
  destruct (Py.len (selectedText s c) >? 20); [eexists _, _; reflexivity|].
  destruct edit_dialog as [new_text|].
  - destruct H as [H|H]; [discriminate|].
    unfold source_at. rewrite Hx, H. eexists _, (shown s).
    now rewrite with_shown_same.
  - eexists _, (shown s). now rewrite with_shown_same.
Qed.

Lemma reload_view_conn x s :
  conn (snd ((r <- source_at x ;;
              match Source.fulltext r with
              | None => raise TypeError
              | Some t => modify (with_text_view t)
              end) s)) = conn s.
Proof.
  unfold bind, source_at. destruct (Py.index (source s) x) as [r|]; [|reflexivity].
  now destruct (Source.fulltext r).
Qed.

(** X11: the menu writes to the database only for an accepted edit: when the
    database after the menu differs from the database before, the action was
    [Edit text], the viewer showed a text, 1 to 20 characters were selected,
    the edit dialog was not cancelled, the row [x] was loaded and has a text,
    and no coded span or annotation of the file crossed the selection. *)
Theorem menu_writes_only_for_accepted_edit x c action edit_dialog s :
  conn (snd (textEdit_restricted_menu x c action edit_dialog s)) <> conn s ->
  action = Some action_item_edit
  /\ text_view s <> ""
  /\ 0 < Py.len (selectedText s c) <= 20
  /\ (exists new_text, edit_dialog = Some new_text)
  /\ exists r old,
       Py.index (source s) x = Some r
       /\ Source.fulltext r = Some old
       /\ code_crossover (conn s) (Source.id r) c = []
       /\ annote_crossover (conn s) (Source.id r) c = [].
Proof.
  unfold textEdit_restricted_menu. unfold bind at 1, get at 1.
  destruct (String.eqb_spec (text_view s) "") as [|Hview]; [now intros []|].
  destruct action as [[]|]; try now intros [].
  destruct (Py.len (selectedText s c) >? 0) eqn:L0; [|now intros []].
  destruct (Py.len (selectedText s c) <? 21) eqn:L1; [|now intros []].
  cbn [andb]. apply Z.gtb_lt in L0. apply Z.ltb_lt in L1.
  unfold bind at 1.
  destruct (crossover_check_state x c s) as (o & sh & E). rewrite E.
  destruct o as [resp|e]; [|now intros []].
  destruct (crossover resp) eqn:Cr; [now intros []|].
  destruct (Py.index (source s) x) as [r|] eqn:Hx.
  2:{ unfold crossover_check, bind, source_at in E. rewrite Hx in E. discriminate. }
  destruct (crossover_check_clear x c s resp _ r Hx E Cr) as [Ec Ea].
  assert (No : edit_dialog = None \/ Source.fulltext r = None ->
               conn (snd ((restricted_edit_text x c edit_dialog ;;
                           r <- source_at x ;;
                           match Source.fulltext r with
                           | None => raise TypeError
                           | Some t => modify (with_text_view t)
                           end) (with_shown sh s))) = conn s).
  { intros H. unfold bind at 1.
    destruct (restricted_edit_text_no_write x c edit_dialog (with_shown sh s) r Hx H)
      as (o & sh' & ->).
    destruct o; [|reflexivity]. now rewrite reload_view_conn. }
  destruct edit_dialog as [new_text|].
  - destruct (Source.fulltext r) as [old|] eqn:Ht.
    + intros _. split; [reflexivity|]. split; [exact Hview|]. split; [lia|].
      split; [now exists new_text|]. exists r, old. now repeat split.
    + intros H. exfalso. apply H, No. now right.
  - intros H. exfalso. apply H, No. now left.
Qed.

Lemma menu_writes_only_for_accepted_edit_witness :
  Some action_item_edit = Some action_item_edit
  /\ text_view cat_on_mat <> ""
  /\ 0 < Py.len (selectedText cat_on_mat (cursor 4 7)) <= 20
  /\ (exists new_text, Some "kitten" = Some new_text)
  /\ exists r old,
       Py.index (source cat_on_mat) 0 = Some r
       /\ Source.fulltext r = Some old
       /\ code_crossover (conn cat_on_mat) (Source.id r) (cursor 4 7) = []
       /\ annote_crossover (conn cat_on_mat) (Source.id r) (cursor 4 7) = [].
Proof.
  apply (menu_writes_only_for_accepted_edit 0 (cursor 4 7) (Some action_item_edit)
           (Some "kitten") cat_on_mat).
  vm_compute. discriminate.
Defined.

End EditWrites.

(** ** Slices of a text *)

Section Slices.

Lemma len_append (a b : string) : Py.len (a ++ b) = Py.len a + Py.len b.
Proof.
  unfold Py.len. induction a as [|x a IH]; cbn [append String.length]; lia.
Qed.

Lemma len_nonneg (a : string) : 0 <= Py.len a.
Proof. unfold Py.len. lia. Qed.

Lemma append_empty_r (a : string) : (a ++ "")%string = a.
Proof. induction a as [|x a IH]; cbn [append]; congruence. Qed.

Lemma append_assoc (a b c : string) : ((a ++ b) ++ c)%string = (a ++ b ++ c)%string.
Proof. induction a as [|x a IH]; cbn [append]; congruence. Qed.

Lemma substring_append_mid (a b c : string) :
  substring (String.length a) (String.length b) (a ++ b ++ c) = b.
Proof.
  induction a as [|x a IH]; cbn [append String.length substring]; [|exact IH].
  induction b as [|y b IHb]; cbn [append String.length substring].
  - now destruct c.
  - now rewrite IHb.
Qed.

(** Two neighbouring pieces of a text make one piece. *)
Lemma substring_append (s : string) : forall n m k,
  (n + m <= String.length s)%nat ->
  (substring n m s ++ substring (n + m) k s)%string = substring n (m + k) s.
Proof.
  induction s as [|x s IH]; intros n m k H; cbn [String.length] in H.
  - assert (n = 0%nat) by lia. assert (m = 0%nat) by lia. subst. reflexivity.
  - destruct n as [|n].
    + destruct m as [|m]; cbn [plus substring append].
      * reflexivity.
      * f_equal. apply (IH 0%nat m k). lia.
    + cbn [plus substring]. apply IH. lia.
Qed.

Lemma substring_all (s : string) : substring 0 (String.length s) s = s.
Proof. induction s as [|x s IH]; cbn [String.length substring]; congruence. Qed.

Lemma slice_inside s i j :
  0 <= i -> i <= j -> j <= Py.len s ->
  Py.slice s i j = substring (Z.to_nat i) (Z.to_nat (j - i)) s.
Proof.
  intros Hi Hij Hj. unfold Py.slice. rewrite !bound_inside by lia.
  destruct (Z.leb_spec j i) as [L|L]; [|reflexivity].
  assert (j = i) by lia. subst j. rewrite Z.sub_diag. cbn [Z.to_nat].
  generalize (Z.to_nat i). clear. induction s as [|x s IH]; intros [|n]; cbn; auto.
Qed.

(** [(a + b + c)[len(a) : len(a) + len(b)] == b] *)
Lemma slice_append_mid (a b c : string) :
  Py.slice (a ++ b ++ c) (Py.len a) (Py.len a + Py.len b) = b.
Proof.
  pose proof (len_nonneg a). pose proof (len_nonneg b). pose proof (len_nonneg c).
  rewrite slice_inside; rewrite ?len_append; try lia.
  replace (Py.len a + Py.len b - Py.len a) with (Py.len b) by lia.
  unfold Py.len. rewrite !Nat2Z.id. apply substring_append_mid.
Qed.

(** [s[a:b] + s[b:c] == s[a:c]] for offsets in order and inside the text. *)
Lemma slice_append s a b c :
  0 <= a -> a <= b -> b <= c -> c <= Py.len s ->
  (Py.slice s a b ++ Py.slice s b c)%string = Py.slice s a c.
Proof.
  intros Ha Hab Hbc Hc. rewrite !slice_inside by lia.
  replace (Z.to_nat b) with (Z.to_nat a + Z.to_nat (b - a))%nat by lia.
  replace (Z.to_nat (c - a)) with (Z.to_nat (b - a) + Z.to_nat (c - b))%nat by lia.
  apply substring_append. unfold Py.len in Hc. lia.
Qed.

Lemma slice_all s : Py.slice s 0 (Py.len s) = s.
Proof.
  pose proof (len_nonneg s). rewrite slice_inside by lia.
  rewrite Z.sub_0_r. unfold Py.len. rewrite Nat2Z.id. apply substring_all.
Qed.

End Slices.

(** ** Restricted edits: the text after an edit *)

Section EditText.
Import ManageFiles.

Lemma length_set_nth {A} (l : list A) k v : List.length (Py.set_nth l k v) = List.length l.
Proof.
  revert k. induction l as [|h t IH]; intros [|k]; cbn [Py.set_nth List.length]; auto.
Qed.

Lemma nth_error_set_nth {A} (l : list A) k v r :
  nth_error l k = Some r -> nth_error (Py.set_nth l k v) k = Some v.
Proof.
  revert k. induction l as [|h t IH]; intros [|k]; cbn [Py.set_nth nth_error];
    try discriminate; auto.
Qed.

Lemma index_set_index {A} (l : list A) x v r :
  Py.index l x = Some r -> Py.index (Py.set_index l x v) x = Some v.
Proof.
  unfold Py.index, Py.set_index. cbv zeta.
  set (n := Z.of_nat (List.length l)). set (x' := if x <? 0 then x + n else x).
  intros H. destruct (x' <? 0) eqn:E; [discriminate|].
  rewrite length_set_nth. fold n. fold x'. rewrite E.
  now apply (nth_error_set_nth l _ v r).
Qed.

(** The loops of [restricted_edit_text] keep the loaded rows and the
    [source] table. *)
Definition same_sources (l : list Source.row) (t : list Source.row) (s : state) : Prop :=
  source s = l /\ Db.source (conn s) = t.

Lemma bind_same_sources l t {A B} (m : M state A) (k : A -> M state B) s :
  same_sources l t (snd (m s)) ->
  (forall a s', same_sources l t s' -> same_sources l t (snd (k a s'))) ->
  same_sources l t (snd (bind m k s)).
Proof.
  intros Hm Hk. unfold bind. destruct (m s) as [[a|e] s']; cbn [snd] in *; auto.
Qed.

Lemma for_each_same_sources l t {A} (items : list A) (body : A -> M state unit) :
  (forall a s, same_sources l t s -> same_sources l t (snd (body a s))) ->
  forall s, same_sources l t s -> same_sources l t (snd (for_each items body s)).
Proof.
  intros Hb. induction items as [|a items IH]; intros s Hs; cbn [for_each]; [exact Hs|].
  apply bind_same_sources; auto.
Qed.

Lemma execute_code_text_same_sources l t where_ set s :
  same_sources l t s ->
  same_sources l t (snd (execute (Sql.update_code_text where_ set) s)).
Proof.
  intros H. unfold execute, Sql.update_code_text.
  destruct (Sql.unique_keys _); exact H.
Qed.

Ltac same_sources_step :=
  match goal with
  | H : same_sources _ _ ?s |- same_sources _ _ (snd (bind _ _ ?s)) =>
      apply bind_same_sources; [|intros ? ? ?]
  | H : same_sources _ _ ?s |- same_sources _ _ (snd (for_each _ _ ?s)) =>
      apply for_each_same_sources; [intros ? ? ?|exact H]
  | H : same_sources _ _ ?s |- same_sources _ _ (snd (execute_ok _ ?s)) => exact H
  | H : same_sources _ _ ?s |- same_sources _ _ (snd (execute _ ?s)) =>
      apply execute_code_text_same_sources; exact H
  | H : same_sources _ _ ?s |- same_sources _ _ (snd (crossover_check ?x ?c ?s)) =>
      destruct (crossover_check_state x c s) as (? & ? & ->); exact H
  end.

(** X12: an edit that passes the length check and the dialog, on a loaded
    row with a text, replaces the text of the row by the text before the
    selection, the new text and the text after the selection, in the loaded
    row and in every [source] row with the id, whatever the later statements
    do.  The new text has the length of the old one plus the difference of
    the lengths of the new and the selected text; it agrees with the old text
    before the selection and after it, holds the new text in between, and is
    the old text again when the new text is the text that was selected. *)
Theorem edit_splices_text x c new_text s r old :
  Py.index (source s) x = Some r ->
  Source.fulltext r = Some old ->
  0 <= selectionStart c -> selectionStart c <= selectionEnd c ->
  selectionEnd c <= Py.len old ->
  Py.len (selectedText s c) <= 20 ->
  let a := selectionStart c in
  let b := selectionEnd c in
  let fulltext := (Py.slice old 0 a ++ new_text ++ Py.slice old b (Py.len old))%string in
  let s' := snd (restricted_edit_text x c (Some new_text) s) in
  Py.index (source s') x = Some (Source.set_fulltext fulltext r)
  /\ Db.source (conn s')
     = map (fun r0 => if Source.id r0 =? Source.id r
                      then Source.set_fulltext fulltext r0 else r0)
           (Db.source (conn s))
  /\ Py.len fulltext = Py.len old + (Py.len new_text - (b - a))
  /\ Py.slice fulltext 0 a = Py.slice old 0 a
  /\ Py.slice fulltext a (a + Py.len new_text) = new_text
  /\ Py.slice fulltext (a + Py.len new_text) (Py.len fulltext) = Py.slice old b (Py.len old)
  /\ (new_text = Py.slice old a b -> fulltext = old).
Proof.
  intros Hx Ht Ha Hab Hb Hlen. cbv zeta.
  set (a := selectionStart c). set (b := selectionEnd c).
  set (before := Py.slice old 0 a). set (after := Py.slice old b (Py.len old)).
  assert (La : Py.len before = a) by (unfold before; rewrite len_slice; lia).
  assert (Lb : Py.len after = Py.len old - b) by (unfold after; rewrite len_slice; lia).
  pose proof (len_nonneg new_text) as Ln.
  assert (Frame :
    same_sources
      (Py.set_index (source s) x (Source.set_fulltext (before ++ new_text ++ after) r))
      (map (fun r0 => if Source.id r0 =? Source.id r
                      then Source.set_fulltext (before ++ new_text ++ after) r0 else r0)
           (Db.source (conn s)))
      (snd (restricted_edit_text x c (Some new_text) s))).
  { unfold restricted_edit_text. unfold bind at 1, get at 1.
    destruct (Z.gtb_spec (Py.len (selectedText s c)) 20) as [G|_]; [lia|].
    unfold bind at 1, source_at at 1. rewrite Hx, Ht.
    fold a b before after.
    unfold bind at 1, modify at 1. unfold bind at 1, execute_ok at 1, modify at 1.
    match goal with |- same_sources ?l ?t (snd (?k ?s1)) =>
      assert (S1 : same_sources l t s1) by (split; reflexivity);
      generalize dependent s1 end.
    intros s1 S1.
    destruct (_ =? 0); [exact S1|].
    unfold bind at 1, get at 1.
    repeat same_sources_step. }
  destruct Frame as [F1 F2]. rewrite F1, F2.
  split; [now apply (index_set_index _ _ _ r)|].
  split; [reflexivity|].
  split; [rewrite !len_append; lia|].
  split; [rewrite <- La at 1;
          apply (slice_append_mid "" before (new_text ++ after))|].
  split; [rewrite <- La; apply slice_append_mid|].
  split.
  - rewrite <- append_assoc.
    replace (a + Py.len new_text) with (Py.len (before ++ new_text))
      by (rewrite len_append; lia).
    replace (Py.len ((before ++ new_text) ++ after))
      with (Py.len (before ++ new_text) + Py.len after)
      by (rewrite !len_append; lia).
    rewrite <- (append_empty_r after) at 1. apply slice_append_mid.
  - intros ->. unfold before, after.
    rewrite (slice_append old a b (Py.len old)) by lia.
    rewrite (slice_append old 0 a (Py.len old)) by lia.
    apply slice_all.
Qed.

Lemma edit_splices_text_witness :
  Py.index (source (snd (restricted_edit_text 0 (cursor 4 7) (Some "kitten") cat_on_mat))) 0
  = Some (Source.set_fulltext "The kitten sat on the mat."
                              (the_source "The cat sat on the mat.")).
Proof.
  apply (edit_splices_text 0 (cursor 4 7) "kitten" cat_on_mat
           (the_source "The cat sat on the mat.") "The cat sat on the mat.");
    try reflexivity; vm_compute; discriminate.
Defined.

End EditText.

(** ** Auto-coding: the spans stored are pieces of the texts *)

Section AutoCodeText.
Import CodeText.

Lemma prefix_append (a s : string) :
  prefix a s = true -> exists rest, s = (a ++ rest)%string.
Proof.
  revert s. induction a as [|x a IH]; intros s H.
  - now exists s.
  - destruct s as [|y s]; cbn [prefix] in H; [discriminate|].
    destruct (ascii_dec x y) as [->|]; [|discriminate].
    destruct (IH s H) as (rest & ->). now exists rest.
Qed.

Lemma prefix_length (a s : string) :
  prefix a s = true -> (String.length a <= String.length s)%nat.
Proof.
  intros H. destruct (prefix_append a s H) as (rest & ->).
  clear H. induction a as [|x a IH]; cbn [append String.length]; lia.
Qed.

(** A start that [finditer] reports is the offset of an occurrence. *)
Lemma finditer_from_sound pat : forall s pos skip p,
  In p (Py.finditer_from pat s pos skip) ->
  exists pre rest, s = (pre ++ pat ++ rest)%string /\ p = pos + Py.len pre.
Proof.
  assert (Shift : forall c s pos p,
             (exists pre rest, s = (pre ++ pat ++ rest)%string /\ p = pos + 1 + Py.len pre) ->
             exists pre rest, String c s = (pre ++ pat ++ rest)%string /\ p = pos + Py.len pre).
  { intros c s pos p (pre & rest & -> & ->). exists (String c pre), rest.
    split; [reflexivity|]. unfold Py.len. cbn [String.length]. lia. }
  induction s as [|c s IH]; intros pos skip p H; cbn [Py.finditer_from] in H; [easy|].
  destruct skip as [|k].
  - destruct (prefix pat (String c s)) eqn:P.
    + destruct H as [<-|H]; [|now apply Shift, (IH _ _ _ H)].
      destruct (prefix_append _ _ P) as (rest & ->).
      exists "", rest. split; [reflexivity|]. cbn. lia.
    + now apply Shift, (IH _ _ _ H).
  - now apply Shift, (IH _ _ _ H).
Qed.

(** The row [r] holds the text of a stored file between its offsets. *)
Definition coded_from_text (db : Db.database) (r : row) : Prop :=
  exists src t,
    In src (Db.source db) /\ Source.id src = fid r /\ Source.fulltext src = Some t
    /\ 0 <= pos0 r /\ pos1 r = pos0 r + Py.len (seltext r) /\ pos1 r <= Py.len t
    /\ Py.slice t (pos0 r) (pos1 r) = seltext r.

Lemma coded_at_offset db src t pre piece rest c id owner now :
  In src (Db.source db) -> Source.id src = id -> Source.fulltext src = Some t ->
  t = (pre ++ piece ++ rest)%string ->
  coded_from_text db
    (Code_text.mk c id piece (Py.len pre) (Py.len pre + Py.len piece) owner now "").
Proof.
  intros Hin Hid Ht ->. exists src, (pre ++ piece ++ rest)%string.
  cbn [fid pos0 pos1 seltext].
  pose proof (len_nonneg pre). pose proof (len_nonneg rest).
  repeat split; try assumption; try lia.
  - rewrite !len_append. lia.
  - apply slice_append_mid.
Qed.

(** The rows of the sentence loop, for the sentences that [split] reads
    from the rest [s] of a text, after [pre] and the segment [cur]. *)
Lemma sentence_items_sound db src t c id text ending owner now :
  In src (Db.source db) -> Source.id src = id -> Source.fulltext src = Some t ->
  ending <> "" ->
  forall s pre cur skip r,
    t = (pre ++ cur ++ s)%string ->
    (skip <= String.length s)%nat -> (skip <> 0%nat -> cur = "") ->
    In r (sentence_items c id text ending owner now (Py.split_from ending s cur skip)
                         (Py.len pre + Z.of_nat skip)) ->
    coded_from_text db r /\ cid r = c /\ Code_text.owner r = owner /\ memo r = ""
    /\ Py.contains text (seltext r) = true.
Proof.
  intros Hin Hid Ht Hend.
  assert (Row : forall pre cur rest r,
             t = (pre ++ cur ++ rest)%string ->
             In r (if Py.contains text cur
                   then [Code_text.mk c id cur (Py.len pre) (Py.len pre + Py.len cur)
                                      owner now ""]
                   else []) ->
             coded_from_text db r /\ cid r = c /\ Code_text.owner r = owner /\ memo r = ""
             /\ Py.contains text (seltext r) = true).
  { intros pre cur rest r E H. destruct (Py.contains text cur) eqn:C; [|easy].
    destruct H as [<-|[]]. split; [|now repeat split].
    now apply (coded_at_offset db src t pre cur rest). }
  induction s as [|x s IH]; intros pre cur skip r E Hskip Hcur H;
    cbn [Py.split_from String.length] in *.
  - assert (skip = 0%nat) by lia. subst skip. rewrite Z.add_0_r in H.
    cbn [sentence_items] in H. rewrite app_nil_r in H. now apply (Row pre cur "").
  - destruct skip as [|k].
    + rewrite Z.add_0_r in H. destruct (prefix ending (String x s)) eqn:P.
      * cbn [sentence_items] in H. apply in_app_or in H as [H|H].
        -- now apply (Row pre cur (String x s)).
        -- destruct ending as [|e ending]; [contradiction|].
           pose proof (prefix_length _ _ P) as L. cbn [String.length] in L.
           apply (IH (pre ++ cur ++ String x "")%string "" (String.length ending - 0)%nat r).
           ++ rewrite E, !append_assoc. reflexivity.
           ++ lia.
           ++ reflexivity.
           ++ cbn [String.length] in H. rewrite !len_append.
              replace (Py.len pre + (Py.len cur + Py.len (String x ""))
                       + Z.of_nat (String.length ending - 0))
                with (Py.len pre + Py.len cur + Py.len (String e ending)); [exact H|].
              unfold Py.len. cbn [String.length]. lia.
      * apply (IH pre (cur ++ String x "")%string 0%nat r).
        -- rewrite E, !append_assoc. reflexivity.
        -- lia.
        -- easy.
        -- now rewrite Z.add_0_r.
    + rewrite (Hcur ltac:(lia)) in *.
      apply (IH (pre ++ String x "")%string "" k r).
      * rewrite E, !append_assoc. reflexivity.
      * lia.
      * reflexivity.
      * rewrite len_append.
        replace (Py.len pre + Py.len (String x "") + Z.of_nat k)
          with (Py.len pre + Z.of_nat (S k)); [exact H|].
        unfold Py.len. cbn [String.length]. lia.
Qed.

Lemma attempts_In rows : forall t r,
  In r (fold_left attempt rows t) -> In r t \/ In r rows.
Proof.
  induction rows as [|r0 rows IH]; intros t r H; cbn [fold_left] in H; [now left|].
  apply IH in H as [H|H]; [|right; now right].
  unfold attempt in H. destruct (existsb _ _); [now left|].
  apply in_app_or in H as [H|[<-|[]]]; [now left | right; now left].
Qed.

(** The state [s] has the [source] table of [db0], and every coded span
    that [db0] does not have is [good]. *)
Definition grown (good : row -> Prop) (db0 : Db.database) (s : state) : Prop :=
  Db.source (conn s) = Db.source db0
  /\ Db.annotation (conn s) = Db.annotation db0
  /\ Db.case_text (conn s) = Db.case_text db0
  /\ forall r, In r (Db.code_text (conn s)) -> In r (Db.code_text db0) \/ good r.

Lemma grown_attempts good db0 rows s :
  grown good db0 s -> (forall r, In r rows -> good r) ->
  grown good db0
    (with_conn (Db.with_code_text (fold_left attempt rows (Db.code_text (conn s)))
                                  (conn s)) s).
Proof.
  intros (Hs & Ha & Hc & Hr) Hrows. repeat split; try assumption.
  cbn [conn with_conn Db.code_text Db.with_code_text]. intros r H.
  apply attempts_In in H as [H|H]; [now apply Hr | right; now apply Hrows].
Qed.

Lemma grown_weaken (good good' : row -> Prop) db0 s :
  (forall r, good r -> good' r) -> grown good db0 s -> grown good' db0 s.
Proof.
  intros W (Hs & Ha & Hc & Hr). repeat split; try assumption.
  intros r H. destruct (Hr r H); [now left | right; auto].
Qed.

Lemma grown_reload good db0 s :
  grown good db0 s -> grown good db0 (snd (get_coded_text_update_eventfilter_tooltips s)).
Proof.
  intros H. destruct (reload_codings s) as (l & -> & _). exact H.
Qed.

Lemma for_each_grown good db0 {A} (items : list A) (body : A -> M state unit) :
  (forall a s, In a items -> grown good db0 s -> grown good db0 (snd (body a s))) ->
  forall s, grown good db0 s -> grown good db0 (snd (for_each items body s)).
Proof.
  induction items as [|a items IH]; intros Hb s Hs; cbn [for_each]; [exact Hs|].
  unfold bind. pose proof (Hb a s (or_introl eq_refl) Hs) as Ha.
  destruct (body a s) as [[[]|e] s1]; cbn [snd] in *; [|exact Ha].
  apply IH; [|exact Ha]. intros b s2 Hin. apply Hb. now right.
Qed.

(** *** The literal-match rule *)

Definition occurrence (db0 : Db.database) (c : Z) (coder : string) (r : row) : Prop :=
  coded_from_text db0 r /\ cid r = c /\ owner r = coder /\ memo r = ""
  /\ seltext r <> "".

Lemma auto_code_files_grown db0 c txt coder now :
  txt <> "" ->
  forall files filenames s,
    grown (occurrence db0 c coder) db0 s ->
    grown (occurrence db0 c coder) db0 (snd (auto_code_files c txt coder now files filenames s)).
Proof.
  intros Htxt. induction files as [|[f_id f_name] files IH]; intros filenames s Hs;
    cbn [auto_code_files]; [exact Hs|].
  unfold bind at 1, get at 1.
  destruct (filter _ (Db.source (conn s))) as [|src l] eqn:F; [exact Hs|].
  assert (Hsrc : In src (filter (fun r => (Source.id r =? f_id)
                                          && match Source.mediapath r with
                                             | None => true | Some _ => false end)
                                (Db.source (conn s)))) by (rewrite F; now left).
  apply filter_In in Hsrc as [Hin Hid]. apply andb_prop in Hid as [Hid _].
  apply Z.eqb_eq in Hid.
  destruct (Source.fulltext src) as [text|] eqn:Ht; [|exact Hs].
  unfold bind at 1. rewrite auto_code_inserts_attempts.
  unfold bind at 1, show at 1, modify at 1.
  apply IH.
  pose proof Hs as (Es & _).
  apply (grown_attempts _ _ _ _ Hs). intros r Hr.
  unfold auto_code_items in Hr. apply in_map_iff in Hr as (p & <- & Hp).
  apply finditer_from_sound in Hp as (pre & rest & E & ->). rewrite Z.add_0_l.
  split; [|now repeat split].
  apply (coded_at_offset db0 src text pre txt rest); try assumption. now rewrite <- Es.
Qed.

(** The spans that a run of [auto_code] may add. *)
Definition auto_coded (item : option tree_item) (s : state) (r : row) : Prop :=
  (exists name, item = Some (Code_item name (cid r)))
  /\ coded_from_text (conn s) r
  /\ owner r = codername s /\ memo r = "" /\ seltext r <> "".

Lemma auto_code_grown item dialog ui now s :
  grown (auto_coded item s) (conn s) (snd (auto_code item dialog ui now s)).
Proof.
  assert (Same : forall good, grown good (conn s) s) by (intros good; repeat split; auto).
  unfold auto_code.
  destruct item as [[name c|name c]|]; try apply Same.
  destruct dialog as [find_text|]; [|apply Same].
  destruct (String.eqb find_text ""); [apply Same|].
  unfold bind at 1, get at 1.
  destruct (Z.of_nat (List.length (filenames s)) =? 0); [apply Same|].
  destruct ui as [files|]; [|apply Same].
  destruct (Z.of_nat (List.length files) =? 0); [apply Same|].
  apply (grown_weaken (occurrence (conn s) c (codername s))).
  { intros r (Hc & <- & Ho & Hm & Ht). split; [now exists name|]. now repeat split. }
  unfold bind.
  pose proof (for_each_grown (occurrence (conn s) c (codername s)) (conn s)
                (filter (fun t => negb (String.eqb t ""))
                        (Py.dedup (Py.split find_text "|")))
                (fun txt => auto_code_files c txt (codername s) now files "")) as L.
  match type of L with ?P -> _ => assert (B : P) end.
  { intros txt s1 Htxt Hs1. apply auto_code_files_grown; [|exact Hs1].
    apply filter_In in Htxt as [_ Htxt]. apply negb_true_iff in Htxt.
    intros ->. discriminate. }
  specialize (L B s (Same _)).
  destruct (for_each _ _ s) as [[[]|e] s1]; cbn [snd] in *; [|exact L].
  now apply grown_reload.
Qed.

(** X13: [auto_code] writes the [code_text] table only, and every coded
    span it adds is an occurrence of a text searched: a span of the chosen
    code and the current coder with an empty memo, whose selected text is not
    empty and is the text of a stored file with the span's file id between the
    span's offsets, inside that text. *)
Theorem auto_code_stores_occurrences item dialog ui now s :
  let s' := snd (auto_code item dialog ui now s) in
  Db.source (conn s') = Db.source (conn s)
  /\ Db.annotation (conn s') = Db.annotation (conn s)
  /\ Db.case_text (conn s') = Db.case_text (conn s)
  /\ forall r,
       In r (Db.code_text (conn s')) ->
       In r (Db.code_text (conn s))
       \/ ((exists name, item = Some (Code_item name (cid r)))
           /\ coded_from_text (conn s) r
           /\ owner r = codername s /\ memo r = "" /\ seltext r <> "").
Proof.
  cbv zeta. destruct (auto_code_grown item dialog ui now s) as (Hs & Ha & Hc & Hr).
  repeat split; assumption.
Qed.

Lemma auto_code_stores_occurrences_witness :
  coded_from_text (conn three_cats) (Code_text.mk 1 1 "cat" 8 11 "A" "2020-01-02" "").
Proof.
  destruct (auto_code_stores_occurrences (Some (Code_item "animal" 1)) (Some "cat")
              (Some [(1, "doc")]) "2020-01-02" three_cats) as (_ & _ & _ & H).
  destruct (H (Code_text.mk 1 1 "cat" 8 11 "A" "2020-01-02" "")) as [I|(_ & C & _)].
  - vm_compute. tauto.
  - exfalso. vm_compute in I. destruct I as [I|[]]. discriminate.
  - exact C.
Defined.

(** *** The sentence rule *)

Lemma In_insert_by_name r x l : In x (insert_by_name r l) -> x = r \/ In x l.
Proof.
  induction l as [|h t IH]; cbn [insert_by_name].
  - intros [<-|[]]. now left.
  - destruct (String.ltb _ _); cbn [In]; [|intuition].
    intros [<-|H]; [right; now left|]. apply IH in H. tauto.
Qed.

Lemma In_get_file_texts fileids db name id t :
  In (name, id, t) (get_file_texts fileids db) ->
  exists src, In src (Db.source db) /\ Source.id src = id /\ Source.fulltext src = Some t.
Proof.
  assert (With : forall rows,
             In (name, id, t)
                (flat_map (fun r => match Source.fulltext r with
                                    | Some t => [(Source.name r, Source.id r, t)]
                                    | None => []
                                    end) rows) ->
             exists src, In src rows /\ Source.id src = id /\ Source.fulltext src = Some t).
  { intros rows H. apply in_flat_map in H as (src & Hin & H).
    destruct (Source.fulltext src) as [t'|] eqn:E; [|easy].
    destruct H as [H|[]]. injection H as _ <- <-. now exists src. }
  unfold get_file_texts. destruct fileids as [i|]; intros H; apply With in H
    as (src & Hin & H).
  - apply filter_In in Hin as [Hin _]. now exists src.
  - exists src. split; [|exact H]. clear H.
    induction (Db.source db) as [|h l IH]; cbn [fold_right] in Hin; [easy|].
    apply In_insert_by_name in Hin as [->|Hin]; [now left | right; auto].
Qed.

Definition sentence (db0 : Db.database) (c : Z) (text coder : string) (r : row) : Prop :=
  coded_from_text db0 r /\ cid r = c /\ owner r = coder /\ memo r = ""
  /\ Py.contains text (seltext r) = true.

Lemma code_sentences_files_grown db0 c text ending coder now :
  ending <> "" ->
  forall files msg s,
    (forall name id t, In (name, id, t) files ->
       exists src, In src (Db.source db0) /\ Source.id src = id
                   /\ Source.fulltext src = Some t) ->
    grown (sentence db0 c text coder) db0 s ->
    grown (sentence db0 c text coder) db0
      (snd (code_sentences_files c text ending coder now files msg s)).
Proof.
  intros Hend. induction files as [|[[f_name f_id] f_fulltext] files IH];
    intros msg s Hfiles Hs; cbn [code_sentences_files]; [exact Hs|].
  unfold bind at 1.
  destruct (code_sentences_loop_attempts c f_id text ending coder now
              (Py.split f_fulltext ending) 0 0 s) as (n & ->).
  apply IH; [intros name id t H; apply (Hfiles name id t); now right|].
  apply (grown_attempts _ _ _ _ Hs). intros r Hr.
  destruct (Hfiles f_name f_id f_fulltext (or_introl eq_refl)) as (src & Hin & Hid & Ht).
  apply (sentence_items_sound db0 src f_fulltext c f_id text ending coder now
           Hin Hid Ht Hend f_fulltext "" "" 0%nat r); try reflexivity; try lia.
  exact Hr.
Qed.

(** The spans that a run of [code_sentences] may add. *)
Definition sentence_coded (item : option tree_item) (dialog : option string) (s : state)
    (r : row) : Prop :=
  (exists name, item = Some (Code_item name (cid r)))
  /\ (exists text, dialog = Some text /\ Py.contains text (seltext r) = true)
  /\ coded_from_text (conn s) r
  /\ owner r = codername s /\ memo r = "".

Lemma code_sentences_grown item all dialog dialog2 now s :
  grown (sentence_coded item dialog s) (conn s)
        (snd (code_sentences item all dialog dialog2 now s)).
Proof.
  assert (Same : grown (sentence_coded item dialog s) (conn s) s) by (repeat split; auto).
  unfold code_sentences.
  destruct item as [[name c|name c]|]; try exact Same.
  destruct dialog as [text|]; [|exact Same].
  destruct dialog2 as [ending|]; [|exact Same].
  destruct (String.eqb text ""); [exact Same|].
  destruct (String.eqb_spec ending "") as [|Hend]; [exact Same|].
  unfold bind at 1, get at 1.
  assert (G : forall files,
             (forall name id t, In (name, id, t) files ->
                exists src, In src (Db.source (conn s)) /\ Source.id src = id
                            /\ Source.fulltext src = Some t) ->
             grown (sentence_coded (Some (Code_item name c)) (Some text) s) (conn s)
               (snd ((msg <- code_sentences_files c text ending (codername s) now files [] ;;
                      show (Automatic_code_sentence name text ending msg) ;;
                      get_coded_text_update_eventfilter_tooltips) s))).
  { intros files Hfiles.
    apply (grown_weaken (sentence (conn s) c text (codername s))).
    { intros r (Hc & <- & Ho & Hm & Ht).
      split; [now exists name|]. split; [now exists text|]. now repeat split. }
    unfold bind.
    pose proof (code_sentences_files_grown (conn s) c text ending (codername s) now Hend
                  files [] s Hfiles) as L.
    match type of L with ?P -> _ => assert (B : P) by (repeat split; auto) end.
    specialize (L B).
    destruct (code_sentences_files _ _ _ _ _ _ _ s) as [[msg|e] s1]; cbn [snd] in *;
      [|exact L].
    unfold show, modify. apply grown_reload. exact L. }
  destruct (String.eqb all "all").
  - unfold bind at 1, ret at 1. apply G.
    intros name0 id t. apply In_get_file_texts.
  - unfold bind at 1. unfold bind at 1, filename_id.
    destruct (filename s) as [| |id fname]; try exact Same.
    unfold ret at 1. apply G.
    intros name0 id0 t. apply In_get_file_texts.
Qed.

(** X14: [code_sentences] writes the [code_text] table only, and every
    coded span it adds is a sentence of a stored text: a span of the chosen
    code and the current coder with an empty memo, whose selected text
    contains the text fragment asked for and is the text of a stored file with
    the span's file id between the span's offsets, inside that text. *)
Theorem code_sentences_stores_sentences item all dialog dialog2 now s :
  let s' := snd (code_sentences item all dialog dialog2 now s) in
  Db.source (conn s') = Db.source (conn s)
  /\ Db.annotation (conn s') = Db.annotation (conn s)
  /\ Db.case_text (conn s') = Db.case_text (conn s)
  /\ forall r,
       In r (Db.code_text (conn s')) ->
       In r (Db.code_text (conn s))
       \/ ((exists name, item = Some (Code_item name (cid r)))
           /\ (exists text, dialog = Some text /\ Py.contains text (seltext r) = true)
           /\ coded_from_text (conn s) r
           /\ owner r = codername s /\ memo r = "").
Proof.
  cbv zeta.
  destruct (code_sentences_grown item all dialog dialog2 now s) as (Hs & Ha & Hc & Hr).
  repeat split; assumption.
Qed.

Lemma code_sentences_stores_sentences_witness :
  coded_from_text (conn three_sentences)
                  (Code_text.mk 1 1 "C cat" 14 19 "A" "2020-01-02" "").
Proof.
  destruct (code_sentences_stores_sentences (Some (Code_item "animal" 1)) "" (Some "cat")
              (Some ". ") "2020-01-02" three_sentences) as (_ & _ & _ & H).
  destruct (H (Code_text.mk 1 1 "C cat" 14 19 "A" "2020-01-02" "")) as [I|(_ & _ & C & _)].
  - vm_compute. tauto.
  - exfalso. vm_compute in I. destruct I as [I|[]]. discriminate.
  - exact C.
Defined.

End AutoCodeText.

(** ** Undoing: unmark after mark, an emptied memo after a new note *)

Section Undo.
Import CodeText.

Lemma filter_none {A} (p : A -> bool) (l : list A) :
  existsb p l = false -> filter (fun r => negb (p r)) l = l.
Proof.
  induction l as [|h t IH]; cbn [existsb filter]; [reflexivity|].
  intros H. apply orb_false_iff in H as [-> H]. cbn [negb]. now rewrite IH.
Qed.

Lemma reload_conn s : conn (snd (get_coded_text_update_eventfilter_tooltips s)) = conn s.
Proof. destruct (reload_codings s) as (l & -> & _). reflexivity. Qed.

(** X15: [unmark] undoes [mark].  When [mark] stores a span (a file is
    open, the selection is not empty and the key is not stored yet) and
    [unmark] is then called at an offset where that span is the one taken
    (the only coding of the list there, or the one chosen in the dialog), the
    [code_text] table is again the table before [mark], and the other
    tables were never written. *)
Theorem unmark_undoes_mark s name c p0 p1 now id fname location select :
  filename s = File id fname ->
  p0 <> p1 ->
  stored (c, id, p0, p1, codername s) (conn s) = false ->
  let coded := Code_text.mk c id (Py.slice (textEdit s) p0 p1) p0 p1 (codername s) now "" in
  let s1 := snd (mark (Some (Code_item name c)) p0 p1 now s) in
  choose (filter (here s1 location) (code_text s1)) select = Some coded ->
  let s2 := snd (unmark location select s1) in
  conn s1 = Db.with_code_text (Db.code_text (conn s) ++ [coded]) (conn s)
  /\ conn s2 = conn s.
Proof.
  intros Hf Hne Hst coded. cbv zeta.
  rewrite (mark_fresh s name c p0 p1 now id fname Hf Hne Hst). fold coded.
  cbn [snd]. intros Hch. split; [reflexivity|].
  unfold unmark, bind, get.
  cbn [filename with_conn with_code_text]. rewrite Hf.
  destruct (filter _ _) as [|c0 l0] eqn:F; [destruct select as [[|i]|]; discriminate|].
  rewrite Hch. unfold execute_ok, modify. cbn [fst snd].
  rewrite reload_conn.
  cbn [conn with_conn with_code_text codername cid fid pos0 pos1 coded].
  unfold Sql.delete_code_text. cbn [Db.code_text Db.with_code_text].
  rewrite filter_app. cbn [filter].
  assert (W : where_code c id p0 p1 (codername s) coded = true)
    by (apply where_code_key; reflexivity).
  rewrite W. cbn [negb]. rewrite app_nil_r.
  rewrite filter_none.
  - now destruct (conn s).
  - exact Hst.
Qed.

(** Coder A marks "sat" and unmarks at offset 9; the span of coder B at
    [4,7) stays. *)
Lemma unmark_undoes_mark_witness :
  conn (snd (unmark 9 None (snd (mark (Some (Code_item "animal" 1)) 8 11 "2020-01-02"
                                      two_coders))))
  = conn two_coders.
Proof.
  apply (unmark_undoes_mark two_coders "animal" 1 8 11 "2020-01-02" 1 "doc" 9 None);
    try reflexivity; discriminate.
Defined.

Lemma find_last_last {A} (p : A -> bool) (l : list A) x :
  p x = true -> forall i found,
  find_last p (l ++ [x]) i found = Some ((i + List.length l)%nat, x).
Proof.
  intros Px. induction l as [|h t IH]; intros i found; cbn [app find_last List.length].
  - rewrite Px. now rewrite Nat.add_0_r.
  - rewrite IH. f_equal. f_equal. lia.
Qed.

(** X16: emptying the memo of a note just added restores the
    [annotation] table, when no stored annotation starts at the offset of the
    note: the second call finds the new note in the list (at any offset
    inside it, for any selection inside the text) and its delete statement
    removes that row only. *)
Theorem emptied_memo_undoes_new_note s id fname location p0 p1 ui_memo now
    location' q0 q1 now' :
  filename s = File id fname ->
  p0 < Py.len (textEdit s) -> p1 < Py.len (textEdit s) -> p0 <> p1 ->
  q0 < Py.len (textEdit s) -> q1 < Py.len (textEdit s) ->
  ui_memo <> "" ->
  find_last (fun note => (location >=? Annotation.pos0 note)
                         && (location <=? Annotation.pos1 note)
                         && (Annotation.fid note =? id))
            (annotations s) 0 None = None ->
  p0 <= location' <= p1 ->
  Forall (fun r => Annotation.pos0 r <> p0) (Db.annotation (conn s)) ->
  let s1 := snd (annotate location p0 p1 ui_memo now s) in
  let s2 := snd (annotate location' q0 q1 "" now' s1) in
  Db.annotation (conn s1)
  = Db.annotation (conn s)
    ++ [Annotation.mk (Sql.next_anid (Db.annotation (conn s))) id p0 p1 ui_memo
                      (codername s) now]
  /\ conn s2 = conn s.
Proof.
  intros Hf R0 R1 Hne Q0 Q1 Hmemo Hnone Hloc Hfree. cbv zeta.
  assert (E0 : (p0 >=? Py.len (textEdit s)) = false) by (rewrite Z.geb_leb; apply Z.leb_gt; lia).
  assert (E1 : (p1 >=? Py.len (textEdit s)) = false) by (rewrite Z.geb_leb; apply Z.leb_gt; lia).
  assert (E2 : (q0 >=? Py.len (textEdit s)) = false) by (rewrite Z.geb_leb; apply Z.leb_gt; lia).
  assert (E3 : (q1 >=? Py.len (textEdit s)) = false) by (rewrite Z.geb_leb; apply Z.leb_gt; lia).
  assert (E4 : (p0 =? p1) = false) by now apply Z.eqb_neq.
  assert (E5 : String.eqb ui_memo "" = false) by now apply String.eqb_neq.
  set (item := Annotation.mk (Sql.next_anid (Db.annotation (conn s))) id p0 p1 ui_memo
                             (codername s) now).
  assert (First : annotate location p0 p1 ui_memo now s
                  = (Return tt,
                     with_shown (shown s ++ [Annotation_added p0 p1 fname])
                       (with_annotations (annotations s ++ [item])
                          (with_conn (Db.with_annotation (Db.annotation (conn s) ++ [item])
                                                         (conn s)) s)))).
  { unfold annotate, bind, get. rewrite Hf, E0, E1, Hnone, E4. cbn [orb andb].
    unfold modify, execute_ok, show, modify.
    cbn [fst snd Annotation.memo Annotation.set_memo Annotation.set_anid Annotation.anid
         Annotation.fid Annotation.pos0 Annotation.pos1 Annotation.owner Annotation.date].
    rewrite E5. cbn [negb]. cbn. reflexivity. }
  rewrite First. cbn [snd]. split; [reflexivity|].
  unfold annotate, bind, get.
  cbn [filename textEdit annotations with_shown with_annotations with_conn].
  rewrite Hf, E2, E3. cbn [orb].
  rewrite find_last_last.
  2:{ cbn [item Annotation.pos0 Annotation.pos1 Annotation.fid].
      rewrite Z.eqb_refl, andb_true_r. apply andb_true_intro.
      rewrite Z.geb_leb. split; apply Z.leb_le; lia. }
  rewrite andb_false_r.
  unfold modify, execute_ok, show, modify.
  cbn [fst snd item Annotation.memo Annotation.set_memo Annotation.pos0 String.eqb negb
       ret conn with_conn with_annotations with_shown].
  unfold Sql.delete_annotation. cbn [Db.annotation Db.with_annotation].
  rewrite filter_app. cbn [filter Annotation.pos0]. rewrite Z.eqb_refl. cbn [negb].
  rewrite app_nil_r.
  assert (Keep : filter (fun r => negb (Annotation.pos0 r =? p0)) (Db.annotation (conn s))
                 = Db.annotation (conn s)).
  { clear - Hfree. induction Hfree as [|h t Hh Ht IH]; cbn [filter]; [reflexivity|].
    apply Z.eqb_neq in Hh. rewrite Hh. cbn [negb]. now rewrite IH. }
  rewrite Keep. now destruct (conn s).
Qed.

Lemma emptied_memo_undoes_new_note_witness :
  conn (snd (annotate 9 8 11 "" "2020-02-03"
               (snd (annotate 9 8 11 "sat" "2020-02-02" annotated_file))))
  = conn annotated_file.
Proof.
  apply (emptied_memo_undoes_new_note annotated_file 1 "doc" 9 8 11 "sat" "2020-02-02"
           9 8 11 "2020-02-03");
    try reflexivity; try discriminate; try (vm_compute; split; discriminate).
  repeat constructor; discriminate.
Defined.

End Undo.

(** ** Stored spans hold the text of their file *)

Section SpansHoldText.
Import CodeText CodeTextFile.

(** The viewer shows the stored text of the open file. *)
Definition shows_stored_text (s : state) : Prop :=
  exists id name src,
    filename s = File id name /\ In src (Db.source (conn s)) /\ Source.id src = id
    /\ Source.fulltext src = Some (textEdit s).

(** X17: [load_file] sets [self.filename] first and never writes to the
    database.  For a file without a stored text it then raises [IndexError],
    with the text of the viewer and the loaded codings as before; otherwise
    it returns, the viewer shows the stored text of the file, and the codings
    loaded are stored spans of that file and of the current coder. *)
Theorem load_file_shows_stored_text id name s :
  let result := load_file (id, name) s in
  filename (snd result) = File id name
  /\ conn (snd result) = conn s
  /\ match get_file_texts (Some id) (conn s) with
     | [] =>
         fst result = Raise IndexError
         /\ textEdit (snd result) = textEdit s
         /\ code_text (snd result) = code_text s
     | (_, _, t) :: _ =>
         fst result = Return tt
         /\ textEdit (snd result) = t
         /\ shows_stored_text (snd result)
         /\ Forall (fun c => In c (Db.code_text (conn s)) /\ fid c = id
                             /\ owner c = codername s)
                   (code_text (snd result))
     end.
Proof.
  cbv zeta. unfold load_file, bind, modify, get.
  cbn [conn with_filename].
  destruct (get_file_texts (Some id) (conn s)) as [|[[n i] t] l] eqn:G.
  - cbn. now repeat split.
  - assert (Hin : In (n, i, t) (get_file_texts (Some id) (conn s))) by (rewrite G; now left).
    assert (Hid : i = id).
    { unfold get_file_texts in Hin. apply in_flat_map in Hin as (src & Hsrc & Hin).
      apply filter_In in Hsrc as [_ Hsrc]. apply Z.eqb_eq in Hsrc.
      destruct (Source.fulltext src); [|easy]. destruct Hin as [Hin|[]].
      injection Hin as _ <- _. exact Hsrc. }
    apply In_get_file_texts in Hin as (src & Hsrc & Hi & Ht). subst i.
    unfold get_coded_text_update_eventfilter_tooltips, bind, get, filename_id, modify.
    cbn [filename with_textEdit with_filename fst snd conn textEdit code_text with_code_text
         codername].
    repeat split.
    + exists id, name, src. now repeat split.
    + apply Forall_forall. intros c Hc.
      apply In_order_by_length_desc, filter_In in Hc as [Hc Hf].
      apply andb_prop in Hf as [Hf Ho].
      apply Z.eqb_eq in Hf. apply String.eqb_eq in Ho. now repeat split.
Qed.







End SpansHoldText.

(** ** The code tree: merging and deleting codes *)

Section CodeTreeProps.
Import CodeTree.

(** The [code_text] table behind the dialog. *)
Definition spans (s : state) : list row := Db.code_text (CodeText.conn (dialog s)).

(** [update code_text set cid=new where cid=old] on one row. *)
Definition recode (old new : Z) (r : row) : row :=
  if cid r =? old then set_cid new r else r.

Lemma update_dialog_tables s :
  let s' := snd (update_dialog_codes_and_categories s) in
  CodeText.conn (dialog s') = CodeText.conn (dialog s)
  /\ code_name s' = code_name s /\ code_av s' = code_av s
  /\ code_image s' = code_image s /\ shown s' = shown s.
Proof.
  cbv zeta. unfold update_dialog_codes_and_categories, get_codes_and_categories, bind,
    modify, lift.
  cbn [dialog with_codes].
  destruct (reload_codings (dialog s)) as (l & E & _).
  destruct (CodeText.get_coded_text_update_eventfilter_tooltips (dialog s)) as [o d].
  cbn [snd] in *. subst d. now repeat split.
Qed.

(** The state in which a merge that was not refused refreshes the
    dialog. *)
Definition merged (item : Code_name.row) (parent : CodeText.tree_item) (s : state) : state :=
  let old := Code_name.cid item in
  let new := tree_id parent in
  mk (CodeText.with_conn
        (Db.with_code_text (map (recode old new) (spans s)) (CodeText.conn (dialog s)))
        (dialog s))
     (filter (fun r => negb (Code_name.cid r =? old)) (code_name s))
     (map (fun r => if Code_av.cid r =? old then Code_av.set_cid new r else r) (code_av s))
     (map (fun r => if Code_image.cid r =? old then Code_image.set_cid new r else r)
          (code_image s))
     (codes s)
     (shown s ++ [Merge_code (Code_name.name item) (tree_name parent)]).

Lemma merge_codes_run item parent s :
  merge_codes item parent true s
  = if Sql.unique_keys (map (recode (Code_name.cid item) (tree_id parent)) (spans s))
    then update_dialog_codes_and_categories (merged item parent s)
    else (Return tt, with_shown (shown s ++ [Cannot_merge IntegrityError]) s).
Proof.
  unfold merge_codes. cbn [negb].
  unfold bind at 1, caught. unfold bind at 1, lift at 1, CodeText.execute,
    Sql.update_code_text.
  fold (spans s). fold (recode (Code_name.cid item) (tree_id parent)).
  destruct (Sql.unique_keys _).
  - reflexivity.
  - destruct s as [d ? ? ? ? ?]. reflexivity.
Qed.

(** The two outcomes of a merge that was not declined. *)
Lemma merge_codes_result item parent s :
  let old := Code_name.cid item in
  let new := tree_id parent in
  let s' := snd (merge_codes item parent true s) in
  if Sql.unique_keys (map (recode old new) (spans s))
  then CodeText.conn (dialog s')
       = Db.with_code_text (map (recode old new) (spans s)) (CodeText.conn (dialog s))
       /\ code_av s' = map (fun r => if Code_av.cid r =? old
                                     then Code_av.set_cid new r else r) (code_av s)
       /\ code_image s' = map (fun r => if Code_image.cid r =? old
                                        then Code_image.set_cid new r else r)
                              (code_image s)
       /\ code_name s' = filter (fun r => negb (Code_name.cid r =? old)) (code_name s)
       /\ shown s' = shown s ++ [Merge_code (Code_name.name item) (tree_name parent)]
  else merge_codes item parent true s
       = (Return tt, with_shown (shown s ++ [Cannot_merge IntegrityError]) s).
Proof.
  cbv zeta. rewrite merge_codes_run.
  destruct (Sql.unique_keys _); [|reflexivity].
  destruct (update_dialog_tables (merged item parent s)) as (E1 & E2 & E3 & E4 & E5).
  rewrite E1, E2, E3, E4, E5. now repeat split.
Qed.



Lemma two_positions_one_key (l1 l2 l3 : list row) a b :
  key a = key b -> Sql.unique_keys (l1 ++ a :: l2 ++ b :: l3) = false.
Proof.
  intros K. induction l1 as [|h l1 IH]; cbn [app Sql.unique_keys].
  - rewrite existsb_app. cbn [existsb]. unfold Sql.same_key at 2.
    rewrite K, key_eqb_refl. now rewrite orb_true_r.
  - rewrite IH. apply andb_false_r.
Qed.

Lemma In_two_split {A} (t : list A) a b :
  In a t -> In b t -> a <> b ->
  exists l1 l2 l3, t = l1 ++ a :: l2 ++ b :: l3 \/ t = l1 ++ b :: l2 ++ a :: l3.
Proof.
  intros Ha Hb Hne. apply in_split in Ha as (l1 & l2 & ->).
  apply in_app_or in Hb as [Hb|[Hb|Hb]]; [|congruence|].
  - apply in_split in Hb as (m1 & m2 & ->). exists m1, m2, l2. right.
    now rewrite <- app_assoc.
  - apply in_split in Hb as (m1 & m2 & ->). exists l1, m1, m2. now left.
Qed.

(** X20: a merge is refused when a span of the old code and a span of
    the new code are the same segment of a file for one coder (the case the
    information box names: unmark overlapping text first): nothing is written
    and the box is shown. *)
Theorem merge_codes_refuses_coinciding_spans item parent s r1 r2 :
  In r1 (spans s) -> In r2 (spans s) ->
  cid r1 = Code_name.cid item -> cid r2 = tree_id parent ->
  Code_name.cid item <> tree_id parent ->
  fid r1 = fid r2 -> pos0 r1 = pos0 r2 -> pos1 r1 = pos1 r2 -> owner r1 = owner r2 ->
  merge_codes item parent true s
  = (Return tt, with_shown (shown s ++ [Cannot_merge IntegrityError]) s).
Proof.
  intros H1 H2 C1 C2 Hne Ef E0 E1 Eo.
  pose proof (merge_codes_result item parent s) as R. cbv zeta in R.
  assert (K : key (recode (Code_name.cid item) (tree_id parent) r1)
              = key (recode (Code_name.cid item) (tree_id parent) r2)).
  { unfold recode. rewrite C1, C2, Z.eqb_refl.
    destruct (Z.eqb_spec (tree_id parent) (Code_name.cid item)); [congruence|].
    unfold key, set_cid. cbn. congruence. }
  assert (U : Sql.unique_keys (map (recode (Code_name.cid item) (tree_id parent)) (spans s))
              = false).
  { destruct (In_two_split (spans s) r1 r2 H1 H2) as (l1 & l2 & l3 & [E|E]);
      [congruence| |]; rewrite E, map_app; cbn [map]; rewrite map_app; cbn [map];
      now apply two_positions_one_key. }
  rewrite U in R. exact R.
Qed.

(** Code 2 is merged into code 1 while coder A has coded [4,7) with both. *)
Definition coded_twice : state :=
  CodeTree.mk
    (cat_file [Code_text.mk 1 1 "cat" 4 7 "A" "2020-01-01" "";
               Code_text.mk 2 1 "cat" 4 7 "A" "2020-01-03" ""])
    [Code_name.mk 1 "animal" "" None "A" "2020-01-01" "#F781F3";
     Code_name.mk 2 "pet" "" None "A" "2020-01-01" "#81BEF7"]
    [] []
    [Code_name.mk 1 "animal" "" None "A" "2020-01-01" "#F781F3";
     Code_name.mk 2 "pet" "" None "A" "2020-01-01" "#81BEF7"]
    [].

Lemma merge_codes_refuses_coinciding_spans_witness :
  merge_codes (Code_name.mk 2 "pet" "" None "A" "2020-01-01" "#81BEF7")
              (CodeText.Code_item "animal" 1) true coded_twice
  = (Return tt, with_shown [Cannot_merge IntegrityError] coded_twice).
Proof.
  apply (merge_codes_refuses_coinciding_spans
           (Code_name.mk 2 "pet" "" None "A" "2020-01-01" "#81BEF7")
           (CodeText.Code_item "animal" 1) coded_twice
           (Code_text.mk 2 1 "cat" 4 7 "A" "2020-01-03" "")
           (Code_text.mk 1 1 "cat" 4 7 "A" "2020-01-01" ""));
    try reflexivity; try discriminate; cbn; tauto.
Defined.

(** The state in which a confirmed deletion refreshes the dialog. *)
Definition deleted (c : Z) (s : state) : state :=
  mk (CodeText.with_conn
        (Sql.delete_code_text (fun r => cid r =? c) (CodeText.conn (dialog s))) (dialog s))
     (filter (fun r => negb (Code_name.cid r =? c)) (code_name s))
     (filter (fun r => negb (Code_av.cid r =? c)) (code_av s))
     (filter (fun r => negb (Code_image.cid r =? c)) (code_image s))
     (codes s)
     (shown s).

Lemma delete_code_run selected ok s :
  delete_code selected ok s
  = match CodeText.find_last (fun c => Code_name.cid c =? tree_id selected) (codes s)
                             0 None with
    | None => (Return tt, s)
    | Some (_, code_) =>
        if negb ok then (Return tt, s)
        else (update_dialog_codes_and_categories ;;
              show (Code_deleted (Code_name.name code_)))
               (deleted (Code_name.cid code_) s)
    end.
Proof.
  unfold delete_code. unfold bind at 1, get at 1.
  destruct (CodeText.find_last _ (codes s) 0%nat None) as [[k code_]|]; [|reflexivity].
  destruct ok; reflexivity.
Qed.

Lemma refresh_then_show_tables e s :
  let s' := snd ((update_dialog_codes_and_categories ;; show e) s) in
  CodeText.conn (dialog s') = CodeText.conn (dialog s)
  /\ code_name s' = code_name s /\ code_av s' = code_av s
  /\ code_image s' = code_image s.
Proof.
  cbv zeta. unfold bind.
  pose proof (update_dialog_tables s) as H. cbv zeta in H.
  destruct (update_dialog_codes_and_categories s) as [[[]|x] s1]; cbn [snd] in *;
    destruct H as (E1 & E2 & E3 & E4 & _); now repeat split.
Qed.

Lemma find_last_none {A} (p : A -> bool) (l : list A) :
  forall i, CodeText.find_last p l i None = None -> Forall (fun x => p x = false) l.
Proof.
  induction l as [|h t IH]; intros i H; cbn [CodeText.find_last] in H; [constructor|].
  destruct (p h) eqn:Ph.
  - exfalso. clear - H. revert i H.
    assert (G : forall l j (v : nat * A), CodeText.find_last p l j (Some v) <> None).
    { induction l as [|x l IHl]; intros j v; cbn [CodeText.find_last]; [discriminate|].
      destruct (p x); apply IHl. }
    intros i H. now apply G in H.
  - constructor; [exact Ph|]. now apply (IH (S i)).
Qed.

Lemma filter_other {A} (f : A -> Z) c (l : list A) r :
  In r (filter (fun r => negb (f r =? c)) l) <-> In r l /\ f r <> c.
Proof.
  rewrite filter_In, negb_true_iff, Z.eqb_neq. reflexivity.
Qed.

(** X21: [delete_code] acts on the last code of [self.codes] with the id
    of the tree item.  Without such a code, or when the deletion is not
    confirmed, none of the four tables that name a code is written.
    Otherwise every row with the code is deleted from [code_name], from
    [code_text] (for every coder and file), from [code_av] and from
    [code_image]; every row of another code is kept, and the other tables
    are not written. *)
Theorem delete_code_removes_the_code selected ok s :
  let c := tree_id selected in
  let s' := snd (delete_code selected ok s) in
  (CodeText.conn (dialog s') = CodeText.conn (dialog s)
   /\ code_name s' = code_name s /\ code_av s' = code_av s
   /\ code_image s' = code_image s
   /\ (ok = false \/ Forall (fun n => Code_name.cid n <> c) (codes s)))
  \/ (ok = true
      /\ (exists n, In n (codes s) /\ Code_name.cid n = c)
      /\ (forall r, In r (spans s') <-> In r (spans s) /\ cid r <> c)
      /\ (forall r, In r (code_name s') <-> In r (code_name s) /\ Code_name.cid r <> c)
      /\ (forall r, In r (code_av s') <-> In r (code_av s) /\ Code_av.cid r <> c)
      /\ (forall r, In r (code_image s') <-> In r (code_image s) /\ Code_image.cid r <> c)
      /\ Db.source (CodeText.conn (dialog s')) = Db.source (CodeText.conn (dialog s))
      /\ Db.annotation (CodeText.conn (dialog s')) = Db.annotation (CodeText.conn (dialog s))
      /\ Db.case_text (CodeText.conn (dialog s')) = Db.case_text (CodeText.conn (dialog s))).
Proof.
  cbv zeta. rewrite delete_code_run.
  destruct (CodeText.find_last _ (codes s) 0%nat None) as [[k code_]|] eqn:F.
  - pose proof (find_last_sound _ _ _ _ _ _ F) as [P|P]; [|discriminate].
    pose proof (find_last_In _ _ _ _ _ _ F) as [I|I]; [|discriminate].
    apply Z.eqb_eq in P.
    destruct ok; cbn [negb]; [right|left; cbn; repeat split; now left].
    destruct (refresh_then_show_tables (Code_deleted (Code_name.name code_))
                (deleted (Code_name.cid code_) s)) as (E1 & E2 & E3 & E4).
    assert (Es : spans (snd ((update_dialog_codes_and_categories ;;
                              show (Code_deleted (Code_name.name code_)))
                               (deleted (Code_name.cid code_) s)))
                 = filter (fun r => negb (cid r =? Code_name.cid code_)) (spans s))
      by (unfold spans at 1; now rewrite E1).
    rewrite Es, E1, E2, E3, E4, P.
    split; [reflexivity|]. split; [now exists code_|].
    cbn [deleted dialog code_name code_av code_image CodeText.conn CodeText.with_conn].
    split; [intros r; apply (filter_other cid)|].
    split; [intros r; apply (filter_other Code_name.cid)|].
    split; [intros r; apply (filter_other Code_av.cid)|].
    split; [intros r; apply (filter_other Code_image.cid)|].
    now repeat split.
  - left. cbn [snd]. repeat split. right.
    apply find_last_none in F. apply Forall_forall. intros n Hn.
    apply (proj1 (Forall_forall _ _) F) in Hn. now apply Z.eqb_neq.
Qed.

(** Every coded span names a stored code. *)
Definition no_orphans (s : state) : Prop :=
  forall r, In r (spans s) -> exists n, In n (code_name s) /\ Code_name.cid n = cid r.

(** X22: when every coded span names a stored code, this still holds
    after [merge_codes] of a code into another stored code, and after
    [delete_code]. *)
Theorem codings_keep_a_stored_code s :
  no_orphans s ->
  (forall item parent reply,
      Code_name.cid item <> tree_id parent ->
      (exists n, In n (code_name s) /\ Code_name.cid n = tree_id parent) ->
      no_orphans (snd (merge_codes item parent reply s)))
  /\ (forall selected ok, no_orphans (snd (delete_code selected ok s))).
Proof.
  intros Inv. split.
  - intros item parent reply Hne (m & Hm & Em). destruct reply; [|exact Inv].
    pose proof (merge_codes_result item parent s) as R. cbv zeta in R.
    destruct (Sql.unique_keys _); [|rewrite R; exact Inv].
    destruct R as (E1 & _ & _ & E4 & _).
    intros r Hr. unfold spans in Hr. rewrite E1 in Hr. rewrite E4.
    cbn [Db.code_text Db.with_code_text] in Hr.
    apply in_map_iff in Hr as (r0 & <- & Hr0). unfold recode.
    destruct (Z.eqb_spec (cid r0) (Code_name.cid item)) as [E|N].
    + exists m. split; [|now rewrite Em]. apply filter_In. split; [exact Hm|].
      apply negb_true_iff, Z.eqb_neq. congruence.
    + destruct (Inv r0 Hr0) as (n & Hn & En). exists n. split; [|exact En].
      apply filter_In. split; [exact Hn|]. apply negb_true_iff, Z.eqb_neq. congruence.
  - intros selected ok. rewrite delete_code_run.
    destruct (CodeText.find_last _ (codes s) 0%nat None) as [[k code_]|]; [|exact Inv].
    destruct ok; [|exact Inv]. cbn [negb].
    destruct (refresh_then_show_tables (Code_deleted (Code_name.name code_))
                (deleted (Code_name.cid code_) s)) as (E1 & E2 & _).
    intros r Hr. unfold spans in Hr. rewrite E1 in Hr. rewrite E2.
    cbn [deleted dialog code_name CodeText.conn CodeText.with_conn] in *.
    unfold Sql.delete_code_text in Hr. cbn [Db.code_text Db.with_code_text] in Hr.
    apply filter_In in Hr as [Hr Hc]. apply negb_true_iff, Z.eqb_neq in Hc.
    destruct (Inv r Hr) as (n & Hn & En). exists n. split; [|exact En].
    apply filter_In. split; [exact Hn|]. apply negb_true_iff, Z.eqb_neq. congruence.
Qed.

(** Codes 1 and 2, each with one span; code 2 is merged into code 1. *)
Definition two_codes : state :=
  CodeTree.mk
    (cat_file [Code_text.mk 1 1 "cat" 4 7 "A" "2020-01-01" "";
               Code_text.mk 2 1 "dog" 17 20 "A" "2020-01-03" ""])
    [Code_name.mk 1 "animal" "" None "A" "2020-01-01" "#F781F3";
     Code_name.mk 2 "pet" "" None "A" "2020-01-01" "#81BEF7"]
    [] []
    [Code_name.mk 1 "animal" "" None "A" "2020-01-01" "#F781F3";
     Code_name.mk 2 "pet" "" None "A" "2020-01-01" "#81BEF7"]
    [].

Lemma codings_keep_a_stored_code_witness :
  no_orphans (snd (merge_codes (Code_name.mk 2 "pet" "" None "A" "2020-01-01" "#81BEF7")
                               (CodeText.Code_item "animal" 1) true two_codes)).
Proof.
  apply (codings_keep_a_stored_code two_codes).
  - intros r Hr. destruct Hr as [<-|[<-|[]]].
    + exists (Code_name.mk 1 "animal" "" None "A" "2020-01-01" "#F781F3").
      split; [now left | reflexivity].
    + exists (Code_name.mk 2 "pet" "" None "A" "2020-01-01" "#81BEF7").
      split; [right; now left | reflexivity].
  - discriminate.
  - eexists. split; [left; reflexivity | reflexivity].
Defined.

End CodeTreeProps.

(** ** Restricted edits: annotations and case links after an edit *)

Section EditShifts.
Import ManageFiles.

Lemma for_each_execute_ok {A} (items : list A) (f : A -> Db.database -> Db.database) :
  forall s,
    for_each items (fun i => execute_ok (f i)) s
    = (Return tt, with_conn (fold_left (fun db i => f i db) items (conn s)) s).
Proof.
  induction items as [|i items IH]; intros s; cbn [for_each fold_left].
  - now destruct s.
  - unfold bind, execute_ok at 1, modify. rewrite IH. reflexivity.
Qed.

(** The loops that update [code_text] write no other table. *)
Lemma for_each_execute_code_text {A} (items : list A) w g :
  forall s,
    exists o t,
      for_each items (fun i => execute (Sql.update_code_text (w i) (g i))) s
      = (o, with_conn (Db.with_code_text t (conn s)) s).
Proof.
  induction items as [|i items IH]; intros s; cbn [for_each].
  - exists (Return tt), (Db.code_text (conn s)). destruct s as [[] ? ? ?]. reflexivity.
  - unfold bind, execute at 1, Sql.update_code_text at 1.
    destruct (Sql.unique_keys _).
    + match goal with |- context [for_each items _ ?s1] =>
        destruct (IH s1) as (o & t & ->) end.
      exists o, t. reflexivity.
    + exists (Raise IntegrityError), (Db.code_text (conn s)).
      destruct s as [[] ? ? ?]. reflexivity.
Qed.

Lemma Forall2_map_change {A} (R R' : A -> A -> Prop) (h : A -> A) (t t' : list A) :
  Forall2 R t t' ->
  (forall r r', In r t -> R r r' -> R' r (h r')) ->
  Forall2 R' t (map h t').
Proof.
  induction 1 as [|r r' t t' Hr Ht IH]; intros Hh; cbn [map]; constructor.
  - apply Hh; [now left | exact Hr].
  - apply IH. intros a a' Ha. apply Hh. now right.
Qed.

Lemma Forall2_weaken {A} (R R' : A -> A -> Prop) (t t' : list A) :
  Forall2 R t t' ->
  (forall r r', In r t -> R r r' -> R' r r') ->
  Forall2 R' t t'.
Proof.
  induction 1 as [|r r' t t' Hr Ht IH]; intros Hh; constructor.
  - apply Hh; [now left | exact Hr].
  - apply IH. intros a a' Ha. apply Hh. now right.
Qed.

Lemma Forall2_compose {A} (R S : A -> A -> Prop) (t t' t'' : list A) :
  Forall2 R t t' -> Forall2 S t' t'' ->
  Forall2 (fun r r'' => exists r', R r r' /\ S r' r'') t t''.
Proof.
  intros H. revert t''. induction H as [|r r' t t' Hr Ht IH]; intros t'' H';
    inversion H'; subst; constructor; eauto.
Qed.

(** *** Rows updated by their primary key *)

Section ByKey.
Variables (A : Type) (key_of : A -> Z) (shift : A -> A) (upd : A -> A -> A).
Hypothesis shift_key : forall r, key_of (shift r) = key_of r.
(** [upd i r'] is the row [r'] after the statement for the item [i];
    on the item itself it is the shifted item. *)
Hypothesis upd_self : forall i, upd i i = shift i.

Definition step_by_key (t : list A) (i : A) : list A :=
  map (fun r => if key_of r =? key_of i then upd i r else r) t.

Definition keyed (l : list A) (r : A) : bool :=
  existsb (fun i => key_of r =? key_of i) l.

Lemma fold_step_by_key (t0 : list A) :
  NoDup (map key_of t0) ->
  forall items done t,
    Forall2 (fun r r' => r' = if keyed done r then shift r else r) t0 t ->
    (forall i, In i items -> In i t0 /\ keyed done i = false) ->
    NoDup (map key_of items) ->
    Forall2 (fun r r' => r' = if keyed (done ++ items) r then shift r else r) t0
            (fold_left step_by_key items t).
Proof.
  intros Hnd. induction items as [|i items IH]; intros done t Ht Hitems Hnd';
    cbn [fold_left].
  - now rewrite app_nil_r.
  - replace (done ++ i :: items) with ((done ++ [i]) ++ items)
      by (now rewrite <- app_assoc).
    inversion Hnd' as [|? ? Hnot Hnd'']; subst.
    destruct (Hitems i (or_introl eq_refl)) as [Hi Hdone].
    apply IH; [| |exact Hnd''].
    + unfold step_by_key. apply (Forall2_map_change _ _ _ _ _ Ht).
      intros r r' Hr ->. unfold keyed. rewrite existsb_app. cbn [existsb].
      rewrite orb_false_r. fold (keyed done r).
      assert (K : key_of (if keyed done r then shift r else r) = key_of r)
        by (destruct (keyed done r); [apply shift_key | reflexivity]).
      rewrite K. destruct (Z.eqb_spec (key_of r) (key_of i)) as [E|N].
      * assert (r = i) by (apply (NoDup_map_eq key_of t0); assumption). subst r.
        rewrite Hdone. cbn [orb]. apply upd_self.
      * now rewrite orb_false_r.
    + intros j Hj. destruct (Hitems j (or_intror Hj)) as [Hj0 Hjd]. split; [exact Hj0|].
      unfold keyed. rewrite existsb_app. cbn [existsb]. fold (keyed done j).
      rewrite Hjd, orb_false_r. cbn [orb]. apply Z.eqb_neq. intros E.
      apply Hnot. rewrite <- E. now apply in_map.
Qed.

Lemma keyed_In (t0 : list A) items r :
  NoDup (map key_of t0) -> In r t0 -> (forall i, In i items -> In i t0) ->
  keyed items r = true <-> In r items.
Proof.
  intros Hnd Hr Hitems. unfold keyed. rewrite existsb_exists. split.
  - intros (i & Hi & E). apply Z.eqb_eq in E.
    assert (r = i) by (apply (NoDup_map_eq key_of t0); auto). now subst.
  - intros H. exists r. split; [exact H | apply Z.eqb_refl].
Qed.

Lemma NoDup_map_filter (p : A -> bool) (t : list A) :
  NoDup (map key_of t) -> NoDup (map key_of (filter p t)).
Proof.
  induction t as [|h t IH]; cbn [map filter]; intros H; [constructor|].
  inversion H as [|? ? Hnot H']; subst.
  destruct (p h); cbn [map]; [|auto]. constructor; [|auto].
  intros Hin. apply Hnot. apply in_map_iff in Hin as (x & E & Hx).
  apply filter_In in Hx as [Hx _]. rewrite <- E. now apply in_map.
Qed.

(** All rows that [p] selects, each moved once; the others as they were. *)
Lemma shift_selected (p : A -> bool) (t0 : list A) :
  NoDup (map key_of t0) ->
  Forall2 (fun r r' => r' = if p r then shift r else r) t0
          (fold_left step_by_key (filter p t0) t0).
Proof.
  intros Hnd.
  pose proof (fold_step_by_key t0 Hnd (filter p t0) [] t0) as H.
  cbn [app] in H.
  assert (F : Forall2 (fun r r' => r' = if keyed (filter p t0) r then shift r else r) t0
                      (fold_left step_by_key (filter p t0) t0)).
  { apply H.
    - apply Forall2_same. reflexivity.
    - intros i Hi. apply filter_In in Hi as [Hi _]. now split.
    - now apply NoDup_map_filter. }
  clear H. revert F. generalize (fold_left step_by_key (filter p t0) t0). intros t F.
  assert (G : forall r, In r t0 -> keyed (filter p t0) r = p r).
  { intros r Hr. destruct (p r) eqn:P.
    - apply (keyed_In t0); auto.
      + intros i Hi. now apply filter_In in Hi.
      + apply filter_In. now split.
    - destruct (keyed (filter p t0) r) eqn:K; [|reflexivity].
      apply (keyed_In t0) in K; auto.
      + apply filter_In in K as [_ K]. congruence.
      + intros i Hi. now apply filter_In in Hi. }
  apply (Forall2_weaken _ _ _ _ F). intros r r' Hr ->. now rewrite G.
Qed.

End ByKey.

(** *** The statements of [restricted_edit_text] on the tables *)

Lemma fold_update_annotation {A} (items : list A) w g :
  forall db,
    let db' := fold_left (fun db i => Sql.update_annotation (w i) (g i) db) items db in
    Db.annotation db'
    = fold_left (fun t i => map (fun r => if w i r then g i r else r) t) items
                (Db.annotation db)
    /\ Db.case_text db' = Db.case_text db.
Proof.
  induction items as [|i items IH]; intros db; cbn [fold_left]; [now split|].
  cbv zeta in IH. destruct (IH (Sql.update_annotation (w i) (g i) db)) as [E1 E2].
  now rewrite E1, E2.
Qed.

Lemma fold_update_case_text {A} (items : list A) w g :
  forall db,
    let db' := fold_left (fun db i => Sql.update_case_text (w i) (g i) db) items db in
    Db.case_text db'
    = fold_left (fun t i => map (fun r => if w i r then g i r else r) t) items
                (Db.case_text db)
    /\ Db.annotation db' = Db.annotation db.
Proof.
  induction items as [|i items IH]; intros db; cbn [fold_left]; [now split|].
  cbv zeta in IH. destruct (IH (Sql.update_case_text (w i) (g i) db)) as [E1 E2].
  now rewrite E1, E2.
Qed.

(** The sections that [crossover_check] returns contain the selection. *)
Lemma crossover_check_sections x c s :
  exists o sh,
    crossover_check x c s = (o, with_shown sh s)
    /\ match o with
       | Return resp =>
           Forall (fun p => fst p <= selectionStart c /\ selectionEnd c <= snd p)
                  (annoted_section resp)
           /\ Forall (fun p => fst (fst p) <= selectionStart c
                               /\ selectionEnd c <= snd (fst p))
                     (cased_section resp)
       | Raise _ => True
       end.
Proof.
  assert (W : forall a b p0 p1, within a b p0 p1 = true -> p0 <= a /\ b <= p1).
  { intros a b p0 p1 H. unfold within in H. apply andb_prop in H as [H1 H2].
    rewrite Z.geb_leb in H1. apply Z.leb_le in H1, H2. lia. }
  unfold crossover_check, bind, source_at, get.
  destruct (Py.index (source s) x) as [r|].
  - destruct (map _ (filter _ (Db.code_text (conn s)))) as [|p l].
    + destruct (map _ (filter _ (Db.annotation (conn s)))) as [|q l'].
      * eexists _, (shown s). rewrite with_shown_same. split; [reflexivity|].
        cbn [annoted_section cased_section]. split.
        -- apply Forall_forall. intros p Hp. apply in_map_iff in Hp as (r0 & <- & Hr0).
           apply filter_In in Hr0 as [_ Hr0]. apply andb_prop in Hr0 as [_ Hr0].
           now apply W.
        -- apply Forall_forall. intros p Hp. apply in_map_iff in Hp as (r0 & <- & Hr0).
           apply filter_In in Hr0 as [_ Hr0]. apply andb_prop in Hr0 as [_ Hr0].
           now apply W.
      * eexists _, _. split; [reflexivity|]. cbn. split; constructor.
    + eexists _, _. split; [reflexivity|]. cbn. split; constructor.
  - eexists _, (shown s). rewrite with_shown_same. now split.
Qed.

(** An annotation after an edit of the text of file [id] that replaced
    [a, b) by a text longer by [delta]. *)
Definition note_after_edit (id a b delta : Z) (r r' : Annotation.row) : Prop :=
  (Annotation.fid r <> id -> r' = r)
  /\ (Annotation.fid r = id -> Annotation.pos1 r <= a -> r' = r)
  /\ (Annotation.fid r = id -> b <= Annotation.pos0 r -> b < Annotation.pos1 r ->
      r' = Annotation.set_pos (Annotation.pos0 r + delta) (Annotation.pos1 r + delta) r)
  /\ (Annotation.fid r = id -> Annotation.pos0 r <= a -> b <= Annotation.pos1 r ->
      exists q, Annotation.pos1 r <= q /\ r' = Annotation.set_pos (Annotation.pos0 r) q r).

Definition case_link_after_edit (id a b delta : Z) (r r' : Case_text.row) : Prop :=
  (Case_text.fid r <> id -> r' = r)
  /\ (Case_text.fid r = id -> Case_text.pos1 r <= a -> r' = r)
  /\ (Case_text.fid r = id -> b <= Case_text.pos0 r -> b < Case_text.pos1 r ->
      r' = Case_text.set_pos (Case_text.pos0 r + delta) (Case_text.pos1 r + delta) r)
  /\ (Case_text.fid r = id -> Case_text.pos0 r <= a -> b <= Case_text.pos1 r ->
      exists q, Case_text.pos1 r <= q /\ r' = Case_text.set_pos (Case_text.pos0 r) q r).

Lemma after_selection_spec a b p0 p1 :
  a < b ->
  (after_selection a b p0 p1 = true -> a < p0 /\ b < p1)
  /\ (b <= p0 -> b < p1 -> after_selection a b p0 p1 = true)
  /\ (p1 <= a -> after_selection a b p0 p1 = false)
  /\ (p0 <= a -> b <= p1 -> after_selection a b p0 p1 = false).
Proof.
  intros Hab. unfold after_selection, within.
  rewrite Z.geb_leb, Z.gtb_ltb.
  destruct (Z.ltb_spec b p1), (Z.leb_spec p0 a), (Z.leb_spec b p1); cbn;
    repeat split; intros; try discriminate; try reflexivity; lia.
Qed.

(** The statements that follow the second [crossover_check]: a row that
    contains the selection keeps its start and its end does not move left;
    the other rows are not written. *)
Definition note_grown (id a b : Z) (r r' : Annotation.row) : Prop :=
  (Annotation.fid r = id /\ Annotation.pos0 r <= a /\ b <= Annotation.pos1 r ->
   exists q, Annotation.pos1 r <= q /\ r' = Annotation.set_pos (Annotation.pos0 r) q r)
  /\ (~ (Annotation.fid r = id /\ Annotation.pos0 r <= a /\ b <= Annotation.pos1 r) ->
      r' = r).

Definition case_link_grown (id a b : Z) (r r' : Case_text.row) : Prop :=
  (Case_text.fid r = id /\ Case_text.pos0 r <= a /\ b <= Case_text.pos1 r ->
   exists q, Case_text.pos1 r <= q /\ r' = Case_text.set_pos (Case_text.pos0 r) q r)
  /\ (~ (Case_text.fid r = id /\ Case_text.pos0 r <= a /\ b <= Case_text.pos1 r) ->
      r' = r).

Lemma notes_grown id a b delta (sections : list (Z * Z)) (t0 : list Annotation.row) :
  0 < delta ->
  Forall (fun p => fst p <= a /\ b <= snd p) sections ->
  Forall2 (note_grown id a b) t0
    (fold_left
       (fun t i =>
          map (fun r => if (Annotation.fid r =? id) && (Annotation.pos0 r =? fst i)
                           && (Annotation.pos1 r =? snd i)
                        then Annotation.set_pos (Annotation.pos0 r) (snd i + delta) r
                        else r) t)
       sections t0).
Proof.
  intros Hd Hs.
  assert (G : forall t, Forall2 (note_grown id a b) t0 t ->
                        Forall2 (note_grown id a b) t0
                          (fold_left
                             (fun t i =>
                                map (fun r => if (Annotation.fid r =? id)
                                                 && (Annotation.pos0 r =? fst i)
                                                 && (Annotation.pos1 r =? snd i)
                                              then Annotation.set_pos (Annotation.pos0 r)
                                                                      (snd i + delta) r
                                              else r) t)
                             sections t)).
  { induction Hs as [|p sections [Hp0 Hp1] Hs IH]; intros t Ht; cbn [fold_left];
      [exact Ht|].
    apply IH. apply (Forall2_map_step _ _ _ _ Ht). intros r r' _ [G1 G2].
    destruct ((Annotation.fid r' =? id) && (Annotation.pos0 r' =? fst p)
              && (Annotation.pos1 r' =? snd p)) eqn:W; [|now split].
    apply andb_prop in W as [W W1]. apply andb_prop in W as [Wf W0].
    apply Z.eqb_eq in Wf, W0, W1.
    assert (In_ : Annotation.fid r = id /\ Annotation.pos0 r <= a /\ b <= Annotation.pos1 r).
    { destruct (Z.eq_dec (Annotation.fid r) id) as [Ef|Nf];
        [destruct (Z_le_gt_dec (Annotation.pos0 r) a) as [L0|L0];
         [destruct (Z_le_gt_dec b (Annotation.pos1 r)) as [L1|L1]; [tauto|]|]|];
        rewrite (G2 ltac:(lia)) in *; lia. }
    destruct (G1 In_) as (q & Hq & ->). cbn in W0, W1 |- *.
    split; [|tauto]. intros _. exists (snd p + delta). split; [lia|reflexivity]. }
  apply G. apply Forall2_same. intros r. split; [|reflexivity].
  intros _. exists (Annotation.pos1 r). split; [lia|now destruct r].
Qed.

Lemma case_links_grown id a b delta (sections : list (Z * Z * Z))
    (t0 : list Case_text.row) :
  0 < delta ->
  Forall (fun p => fst (fst p) <= a /\ b <= snd (fst p)) sections ->
  Forall2 (case_link_grown id a b) t0
    (fold_left
       (fun t i =>
          map (fun r => if (Case_text.fid r =? id) && (Case_text.pos0 r =? fst (fst i))
                           && (Case_text.pos1 r =? snd (fst i))
                        then Case_text.set_pos (Case_text.pos0 r) (snd (fst i) + delta) r
                        else r) t)
       sections t0).
Proof.
  intros Hd Hs.
  assert (G : forall t, Forall2 (case_link_grown id a b) t0 t ->
                        Forall2 (case_link_grown id a b) t0
                          (fold_left
                             (fun t i =>
                                map (fun r => if (Case_text.fid r =? id)
                                                 && (Case_text.pos0 r =? fst (fst i))
                                                 && (Case_text.pos1 r =? snd (fst i))
                                              then Case_text.set_pos (Case_text.pos0 r)
                                                     (snd (fst i) + delta) r
                                              else r) t)
                             sections t)).
  { induction Hs as [|p sections [Hp0 Hp1] Hs IH]; intros t Ht; cbn [fold_left];
      [exact Ht|].
    apply IH. apply (Forall2_map_step _ _ _ _ Ht). intros r r' _ [G1 G2].
    destruct ((Case_text.fid r' =? id) && (Case_text.pos0 r' =? fst (fst p))
              && (Case_text.pos1 r' =? snd (fst p))) eqn:W; [|now split].
    apply andb_prop in W as [W W1]. apply andb_prop in W as [Wf W0].
    apply Z.eqb_eq in Wf, W0, W1.
    assert (In_ : Case_text.fid r = id /\ Case_text.pos0 r <= a /\ b <= Case_text.pos1 r).
    { destruct (Z.eq_dec (Case_text.fid r) id) as [Ef|Nf];
        [destruct (Z_le_gt_dec (Case_text.pos0 r) a) as [L0|L0];
         [destruct (Z_le_gt_dec b (Case_text.pos1 r)) as [L1|L1]; [tauto|]|]|];
        rewrite (G2 ltac:(lia)) in *; lia. }
    destruct (G1 In_) as (q & Hq & ->). cbn in W0, W1 |- *.
    split; [|tauto]. intros _. exists (snd (fst p) + delta). split; [lia|reflexivity]. }
  apply G. apply Forall2_same. intros r. split; [|reflexivity].
  intros _. exists (Case_text.pos1 r). split; [lia|now destruct r].
Qed.

Lemma for_each_code_text_only {A} (items : list A) (body : A -> M state unit) :
  (forall i s, exists o t, body i s = (o, with_conn (Db.with_code_text t (conn s)) s)) ->
  forall s, exists o t,
    for_each items body s = (o, with_conn (Db.with_code_text t (conn s)) s).
Proof.
  intros Hb. induction items as [|i items IH]; intros s; cbn [for_each].
  - exists (Return tt), (Db.code_text (conn s)). destruct s as [[] ? ? ?]. reflexivity.
  - unfold bind. destruct (Hb i s) as ([[]|e] & t & ->).
    + destruct (IH (with_conn (Db.with_code_text t (conn s)) s)) as (o & t' & ->).
      exists o, t'. reflexivity.
    + now exists (Raise e), t.
Qed.

Lemma execute_update_code_text where_ set s :
  exists o t,
    execute (Sql.update_code_text where_ set) s
    = (o, with_conn (Db.with_code_text t (conn s)) s).
Proof.
  unfold execute, Sql.update_code_text. destruct (Sql.unique_keys _).
  - eexists _, _. reflexivity.
  - exists (Raise IntegrityError), (Db.code_text (conn s)).
    destruct s as [[] ? ? ?]. reflexivity.
Qed.

(** The tables of annotations and case links after an edit that changes
    the length: the rows after the selection are moved, each by the statement
    for its primary key, and then rows are lengthened for a list of sections
    that contain the selection (no section when a statement raised or the
    second check found a crossover). *)
Lemma edit_tables x c new_text s r old :
  Py.index (source s) x = Some r ->
  Source.fulltext r = Some old ->
  Py.len (selectedText s c) <= 20 ->
  Py.len new_text - Py.len (selectedText s c) <> 0 ->
  let a := selectionStart c in
  let b := selectionEnd c in
  let id := Source.id r in
  let delta := Py.len new_text - Py.len (selectedText s c) in
  let s' := snd (restricted_edit_text x c (Some new_text) s) in
  exists (notes : list (Z * Z)) (cases : list (Z * Z * Z)),
    Forall (fun p => fst p <= a /\ b <= snd p) notes
    /\ Forall (fun p => fst (fst p) <= a /\ b <= snd (fst p)) cases
    /\ Db.annotation (conn s')
       = fold_left
           (fun t i =>
              map (fun r => if (Annotation.fid r =? id) && (Annotation.pos0 r =? fst i)
                               && (Annotation.pos1 r =? snd i)
                            then Annotation.set_pos (Annotation.pos0 r) (snd i + delta) r
                            else r) t)
           notes
           (fold_left
              (step_by_key _ Annotation.anid
                 (fun i => Annotation.set_pos (Annotation.pos0 i + delta)
                                              (Annotation.pos1 i + delta)))
              (filter (fun r => (Annotation.fid r =? id)
                                && after_selection a b (Annotation.pos0 r)
                                                   (Annotation.pos1 r))
                      (Db.annotation (conn s)))
              (Db.annotation (conn s)))
    /\ Db.case_text (conn s')
       = fold_left
           (fun t i =>
              map (fun r => if (Case_text.fid r =? id) && (Case_text.pos0 r =? fst (fst i))
                               && (Case_text.pos1 r =? snd (fst i))
                            then Case_text.set_pos (Case_text.pos0 r)
                                                   (snd (fst i) + delta) r
                            else r) t)
           cases
           (fold_left
              (step_by_key _ Case_text.id
                 (fun i => Case_text.set_pos (Case_text.pos0 i + delta)
                                             (Case_text.pos1 i + delta)))
              (filter (fun r => (Case_text.fid r =? id)
                                && after_selection a b (Case_text.pos0 r)
                                                   (Case_text.pos1 r))
                      (Db.case_text (conn s)))
              (Db.case_text (conn s))).
Proof.
  intros Hx Ht Hlen Hd. cbv zeta.
  remember (snd (restricted_edit_text x c (Some new_text) s)) as s' eqn:E.
  unfold restricted_edit_text in E. unfold bind at 1, get at 1 in E.
  destruct (Z.gtb_spec (Py.len (selectedText s c)) 20) as [G|_]; [lia|].
  unfold bind at 1, source_at at 1 in E. rewrite Hx, Ht in E.
  unfold bind at 1, modify at 1 in E. unfold bind at 1, execute_ok at 1, modify at 1 in E.
  destruct (Z.eqb_spec (Py.len new_text - Py.len (selectedText s c)) 0) as [E0|_];
    [contradiction|].
  unfold bind at 1, get at 1 in E.
  unfold bind at 1 in E. rewrite for_each_execute_ok in E.
  unfold bind at 1 in E. rewrite for_each_execute_ok in E.
  cbn [conn with_conn with_source] in E.
  (* the tables after the two loops by primary key *)
  match type of E with context [bind ?m ?k ?s3] =>
    set (S3 := s3) in E;
    assert (T3 : Db.annotation (conn S3)
                 = fold_left
                     (step_by_key _ Annotation.anid
                        (fun i => Annotation.set_pos
                                    (Annotation.pos0 i
                                     + (Py.len new_text - Py.len (selectedText s c)))
                                    (Annotation.pos1 i
                                     + (Py.len new_text - Py.len (selectedText s c)))))
                     (filter (fun r0 => (Annotation.fid r0 =? Source.id r)
                                        && after_selection (selectionStart c) (selectionEnd c)
                                             (Annotation.pos0 r0) (Annotation.pos1 r0))
                             (Db.annotation (conn s)))
                     (Db.annotation (conn s))
                 /\ Db.case_text (conn S3)
                    = fold_left
                        (step_by_key _ Case_text.id
                           (fun i => Case_text.set_pos
                                       (Case_text.pos0 i
                                        + (Py.len new_text - Py.len (selectedText s c)))
                                       (Case_text.pos1 i
                                        + (Py.len new_text - Py.len (selectedText s c)))))
                        (filter (fun r0 => (Case_text.fid r0 =? Source.id r)
                                           && after_selection (selectionStart c)
                                                (selectionEnd c)
                                                (Case_text.pos0 r0) (Case_text.pos1 r0))
                                (Db.case_text (conn s)))
                        (Db.case_text (conn s)));
    [ unfold S3; cbn [conn with_conn];
      match goal with |- context [fold_left ?f ?La (fold_left ?g ?Lc ?db0)] =>
        destruct (fold_update_annotation La
                    (fun i r0 => Annotation.anid r0 =? Annotation.anid i)
                    (fun i => Annotation.set_pos
                                (Annotation.pos0 i
                                 + (Py.len new_text - Py.len (selectedText s c)))
                                (Annotation.pos1 i
                                 + (Py.len new_text - Py.len (selectedText s c))))
                    (fold_left g Lc db0)) as [A1 A2];
        destruct (fold_update_case_text Lc
                    (fun i r0 => Case_text.id r0 =? Case_text.id i)
                    (fun i => Case_text.set_pos
                                (Case_text.pos0 i
                                 + (Py.len new_text - Py.len (selectedText s c)))
                                (Case_text.pos1 i
                                 + (Py.len new_text - Py.len (selectedText s c))))
                    db0) as [C1 C2]
      end;
      split; [rewrite A1, C2; reflexivity | rewrite A2, C1; reflexivity]
    | destruct T3 as [TA TC]; rewrite <- TA, <- TC; clearbody S3 ]
  end.
  (* the first loop on [code_text] *)
  unfold bind at 1 in E.
  match type of E with context [for_each ?L ?body S3] =>
    destruct (for_each_code_text_only L body
                (fun i s => execute_update_code_text _ _ s) S3) as (o1 & t1 & E1)
  end.
  rewrite E1 in E. clear E1.
  destruct o1 as [[]|e1].
  2:{ exists [], []. subst s'. cbn. now repeat split. }
  (* the second check *)
  unfold bind at 1 in E.
  match type of E with context [crossover_check x c ?s4] =>
    destruct (crossover_check_sections x c s4) as (o2 & sh & E2 & F)
  end.
  rewrite E2 in E. clear E2.
  destruct o2 as [resp|e2].
  2:{ exists [], []. subst s'. cbn. now repeat split. }
  destruct F as [FA FC].
  (* the second loop on [code_text] *)
  unfold bind at 1 in E.
  match type of E with context [for_each ?L ?body ?s5] =>
    destruct (for_each_code_text_only L body
                (fun i s => execute_update_code_text _ _ s) s5) as (o3 & t3 & E3)
  end.
  rewrite E3 in E. clear E3.
  destruct o3 as [[]|e3].
  2:{ exists [], []. subst s'. cbn. now repeat split. }
  unfold bind at 1 in E. rewrite for_each_execute_ok in E.
  rewrite for_each_execute_ok in E.
  exists (annoted_section resp), (cased_section resp).
  split; [exact FA|]. split; [exact FC|].
  subst s'. cbn [snd conn with_conn with_shown Db.with_code_text Db.annotation Db.case_text].
  match goal with |- context [fold_left ?f (cased_section resp) (fold_left ?g ?La ?db0)] =>
    destruct (fold_update_case_text (cased_section resp)
                (fun i r0 => (Case_text.fid r0 =? Source.id r)
                             && (Case_text.pos0 r0 =? fst (fst i))
                             && (Case_text.pos1 r0 =? snd (fst i)))
                (fun i r0 => Case_text.set_pos (Case_text.pos0 r0)
                               (snd (fst i)
                                + (Py.len new_text - Py.len (selectedText s c))) r0)
                (fold_left g La db0)) as [C1 C2];
    destruct (fold_update_annotation La
                (fun i r0 => (Annotation.fid r0 =? Source.id r)
                             && (Annotation.pos0 r0 =? fst i)
                             && (Annotation.pos1 r0 =? snd i))
                (fun i r0 => Annotation.set_pos (Annotation.pos0 r0)
                               (snd i + (Py.len new_text - Py.len (selectedText s c))) r0)
                db0) as [A1 A2]
  end.
  split; [rewrite C2, A1; reflexivity | rewrite C1, A2; reflexivity].
Qed.

(** X23: an edit that makes the text longer (by [delta] > 0) and
    replaces a selection that is not empty, with unique primary keys in
    [annotation] and [case_text], keeps both tables row for row: an
    annotation or case link of another file, or of the file and ending at or
    before the start of the selection, is unchanged; one of the file that
    starts at or after the end of the selection is moved by exactly [delta]
    (start and end, once); one that contains the selection keeps its start
    and its end is not moved left. *)
Theorem edit_shifts_notes_and_case_links x c new_text s r old :
  Py.index (source s) x = Some r ->
  Source.fulltext r = Some old ->
  Py.len (selectedText s c) <= 20 ->
  selectionStart c < selectionEnd c ->
  0 < Py.len new_text - Py.len (selectedText s c) ->
  NoDup (map Annotation.anid (Db.annotation (conn s))) ->
  NoDup (map Case_text.id (Db.case_text (conn s))) ->
  let delta := Py.len new_text - Py.len (selectedText s c) in
  let s' := snd (restricted_edit_text x c (Some new_text) s) in
  Forall2 (note_after_edit (Source.id r) (selectionStart c) (selectionEnd c) delta)
          (Db.annotation (conn s)) (Db.annotation (conn s'))
  /\ Forall2 (case_link_after_edit (Source.id r) (selectionStart c) (selectionEnd c) delta)
             (Db.case_text (conn s)) (Db.case_text (conn s')).
Proof.
  intros Hx Ht Hlen Hab Hd Hanid Hid. cbv zeta.
  destruct (edit_tables x c new_text s r old Hx Ht Hlen ltac:(lia))
    as (notes & cases & FA & FC & EA & EC).
  rewrite EA, EC. clear EA EC.
  set (delta := Py.len new_text - Py.len (selectedText s c)) in *.
  set (a := selectionStart c) in *. set (b := selectionEnd c) in *.
  set (id := Source.id r) in *.
  pose proof (after_selection_spec a b) as Spec.
  split.
  - pose proof (shift_selected _ Annotation.anid
                  (fun r0 => Annotation.set_pos (Annotation.pos0 r0 + delta)
                                                (Annotation.pos1 r0 + delta) r0)
                  (fun i => Annotation.set_pos (Annotation.pos0 i + delta)
                                               (Annotation.pos1 i + delta))
                  (fun r0 => eq_refl) (fun i => eq_refl)
                  (fun r0 => (Annotation.fid r0 =? id)
                             && after_selection a b (Annotation.pos0 r0)
                                                (Annotation.pos1 r0))
                  (Db.annotation (conn s)) Hanid) as S.
    cbv beta in S.
    match type of S with Forall2 _ _ ?t3 =>
      pose proof (notes_grown id a b delta notes t3 Hd FA) as G end.
    pose proof (Forall2_compose _ _ _ _ _ S G) as C.
    apply (Forall2_weaken _ _ _ _ C). clear S G C.
    intros r0 r' _ (r3 & -> & [G1 G2]).
    destruct (Spec (Annotation.pos0 r0) (Annotation.pos1 r0) Hab) as (S1 & S2 & S3 & S4).
    destruct (Z.eqb_spec (Annotation.fid r0) id) as [Ef|Nf]; cbn [andb] in *.
    + destruct (after_selection a b (Annotation.pos0 r0) (Annotation.pos1 r0)) eqn:Af.
      * destruct (S1 eq_refl) as [L0 L1].
        rewrite G2 by (cbn; lia).
        split; [intros N; contradiction|]. split; [intros _ H1; lia|].
        split; [reflexivity|]. intros _ H0 H1. lia.
      * split; [intros N; contradiction|].
        split; [intros _ H1; apply G2; lia|].
        split; [intros _ H0 H1; discriminate (S2 H0 H1)|].
        intros _ H0 H1. apply G1. tauto.
    + rewrite G2 by tauto. now repeat split.
  - pose proof (shift_selected _ Case_text.id
                  (fun r0 => Case_text.set_pos (Case_text.pos0 r0 + delta)
                                               (Case_text.pos1 r0 + delta) r0)
                  (fun i => Case_text.set_pos (Case_text.pos0 i + delta)
                                              (Case_text.pos1 i + delta))
                  (fun r0 => eq_refl) (fun i => eq_refl)
                  (fun r0 => (Case_text.fid r0 =? id)
                             && after_selection a b (Case_text.pos0 r0)
                                                (Case_text.pos1 r0))
                  (Db.case_text (conn s)) Hid) as S.
    cbv beta in S.
    match type of S with Forall2 _ _ ?t3 =>
      pose proof (case_links_grown id a b delta cases t3 Hd FC) as G end.
    pose proof (Forall2_compose _ _ _ _ _ S G) as C.
    apply (Forall2_weaken _ _ _ _ C). clear S G C.
    intros r0 r' _ (r3 & -> & [G1 G2]).
    destruct (Spec (Case_text.pos0 r0) (Case_text.pos1 r0) Hab) as (S1 & S2 & S3 & S4).
    destruct (Z.eqb_spec (Case_text.fid r0) id) as [Ef|Nf]; cbn [andb] in *.
    + destruct (after_selection a b (Case_text.pos0 r0) (Case_text.pos1 r0)) eqn:Af.
      * destruct (S1 eq_refl) as [L0 L1].
        rewrite G2 by (cbn; lia).
        split; [intros N; contradiction|]. split; [intros _ H1; lia|].
        split; [reflexivity|]. intros _ H0 H1. lia.
      * split; [intros N; contradiction|].
        split; [intros _ H1; apply G2; lia|].
        split; [intros _ H0 H1; discriminate (S2 H0 H1)|].
        intros _ H0 H1. apply G1. tauto.
    + rewrite G2 by tauto. now repeat split.
Qed.

(** "cat" at [4,7) becomes "kitten": the note on "the" moves from
    [15,18) to [18,21), the case link on "The" at [0,3) stays. *)
Lemma edit_shifts_notes_and_case_links_witness :
  Forall2 (note_after_edit 1 4 7 3)
          [Annotation.mk 1 1 15 18 "which" "A" "2020-01-01"]
          [Annotation.mk 1 1 18 21 "which" "A" "2020-01-01"]
  /\ Forall2 (case_link_after_edit 1 4 7 3)
             [Case_text.mk 1 1 1 0 3 "A" "2020-01-01" ""]
             [Case_text.mk 1 1 1 0 3 "A" "2020-01-01" ""].
Proof.
  apply (edit_shifts_notes_and_case_links 0 (cursor 4 7) "kitten" cat_on_mat
           (the_source "The cat sat on the mat.") "The cat sat on the mat.");
    try reflexivity; try (vm_compute; discriminate);
    cbn; repeat constructor; cbn; tauto.
Defined.

End EditShifts.
